(** * Hera Browser: persistence gateway and tab coordinator

    A shallow embedding of [src/database.ts] (the SQLite access layer) and of
    the tab, download, command-surface and internal-protocol code of
    [src/index.ts], with the properties the design document states about
    them.

    Conventions of the embedding:
    - a JavaScript string is a [string]; its characters stand for code units
      below 256, which is all the patterns and prefixes of the program look at,
      but for the pattern of [isValidUrl]: the argument of that function is
      the list of its UTF-16 code units; the accented letters in the literals
      of the program are written as the bytes of their UTF-8 form;
    - [ORDER BY] is a stable sort of the rows in the order of the table; the
      database may return rows of equal keys in another order, and the
      properties are stated up to that order;
    - a JavaScript number holding an integer (row ids, positions, counters,
      millisecond clocks) is a [Z];
    - [undefined] and SQL [NULL] are [None];
    - values the program draws from its environment ([Date.now()],
      [uuidv4()], the state reported by the download item) are arguments of
      the embedded function;
    - of the host objects (window, views, sessions) the state keeps what the
      embedded functions read or write; the bounds of a view, its preload
      script and its partition are not recorded;
    - [console.log] and [console.error] are not modelled. *)

From Stdlib Require Import ZArith String Ascii List Lia.
From stdpp Require Import base tactics option list sorting gmap strings.

Local Open Scope string_scope.
Local Open Scope Z_scope.

(** ** JavaScript string and truthiness helpers *)

Module Js.

(** [s.startsWith(p)] *)
Definition startsWith (s p : string) : bool := String.prefix p s.

(** [s.includes(sub)] *)
Fixpoint includes (s sub : string) : bool :=
  String.prefix sub s ||
  match s with
  | EmptyString => false
  | String _ s' => includes s' sub
  end.

(** Truthiness of a value of type [string | undefined | null]. *)
Definition truthy (o : option string) : bool :=
  match o with
  | Some s => negb (String.eqb s EmptyString)
  | None => false
  end.

(** [o || d] where [d] is a string. *)
Definition or_str (o : option string) (d : string) : string :=
  match o with
  | Some s => if String.eqb s EmptyString then d else s
  | None => d
  end.

(** [o || undefined] and [o || null]. *)
Definition or_undefined (o : option string) : option string :=
  match o with
  | Some s => if String.eqb s EmptyString then None else Some s
  | None => None
  end.

End Js.

(** ** Regular expressions

    The patterns of the program use literals, character classes, sequence,
    alternation, [?], [+], [{2,}] and the anchors [^] and [$].  They are
    matched here by derivatives. *)

Module Regex.

Inductive re :=
| Void
| Eps
| Class (p : ascii → bool)
| Cat (r1 r2 : re)
| Alt (r1 r2 : re)
| Star (r : re).

Fixpoint nullable (r : re) : bool :=
  match r with
  | Void => false
  | Eps => true
  | Class _ => false
  | Cat r1 r2 => nullable r1 && nullable r2
  | Alt r1 r2 => nullable r1 || nullable r2
  | Star _ => true
  end.

Fixpoint deriv (a : ascii) (r : re) : re :=
  match r with
  | Void => Void
  | Eps => Void
  | Class p => if p a then Eps else Void
  | Cat r1 r2 =>
      if nullable r1 then Alt (Cat (deriv a r1) r2) (deriv a r2)
      else Cat (deriv a r1) r2
  | Alt r1 r2 => Alt (deriv a r1) (deriv a r2)
  | Star r1 => Cat (deriv a r1) (Star r1)
  end.

(** The whole of [s] matches [r]. *)
Fixpoint matches (r : re) (s : list ascii) : bool :=
  match s with
  | [] => nullable r
  | a :: s' => matches (deriv a r) s'
  end.

(** Some prefix of [s] matches [r]. *)
Fixpoint matches_prefix (r : re) (s : list ascii) : bool :=
  nullable r ||
  match s with
  | [] => false
  | a :: s' => matches_prefix (deriv a r) s'
  end.

(** [r] matches at some index of [s]. *)
Fixpoint search (r : re) (s : list ascii) : bool :=
  matches_prefix r s ||
  match s with
  | [] => false
  | _ :: s' => search r s'
  end.

(** [/^r$/.test(s)], [/^r/.test(s)] and [/r/.test(s)] *)
Definition test_whole (r : re) (s : string) : bool :=
  matches r (list_ascii_of_string s).
Definition test_start (r : re) (s : string) : bool :=
  matches_prefix r (list_ascii_of_string s).
Definition test (r : re) (s : string) : bool :=
  search r (list_ascii_of_string s).

Definition Chr (c : ascii) : re := Class (Ascii.eqb c).

Fixpoint Lit (s : string) : re :=
  match s with
  | EmptyString => Eps
  | String c s' => Cat (Chr c) (Lit s')
  end.

(** [r+] and [r?] *)
Definition Plus (r : re) : re := Cat r (Star r).
Definition Opt (r : re) : re := Alt r Eps.

Definition in_range (lo hi a : ascii) : bool :=
  (nat_of_ascii lo <=? nat_of_ascii a)%nat && (nat_of_ascii a <=? nat_of_ascii hi)%nat.

(** [[a-zA-Z]] *)
Definition letter (a : ascii) : bool :=
  in_range "a" "z" a || in_range "A" "Z" a.

(** [[a-zA-Z0-9-]] *)
Definition label_char (a : ascii) : bool :=
  in_range "a" "z" a || in_range "A" "Z" a || in_range "0" "9" a || Ascii.eqb a "-".

(** [[a-zA-Z0-9_-]] *)
Definition key_char (a : ascii) : bool :=
  in_range "a" "z" a || in_range "A" "Z" a || in_range "0" "9" a
  || Ascii.eqb a "_" || Ascii.eqb a "-".

End Regex.

(** ** The SQLite driver

    The database is a record of tables.  Every statement run through
    [better-sqlite3] either returns or throws; a throw leaves the tables as
    the statement found them.  Besides constraint violations, a write can fail
    because of the environment (disk full, file locked): [writes_left] is the
    number of write statements the environment will still accept, [None]
    meaning no limit. *)

Inductive Exn :=
| Error (msg : string)
| SqliteError (code : string).

Inductive Outcome (A : Type) :=
| Returned (a : A)
| Thrown (e : Exn).
Arguments Returned {A} a.
Arguments Thrown {A} e.

Record HistoryRow := {
  h_id : Z;
  h_url : string;
  h_title : string;
  h_timestamp : Z;
  h_visit_count : Z;
  h_favicon : option string
}.

Record TabStateRow := {
  t_id : string;
  t_url : string;
  t_title : string;
  t_favicon : option string;
  t_position : Z;
  t_active : Z
}.

Record BookmarkRow := {
  b_id : string;
  b_url : option string;
  b_title : string;
  b_favicon : option string;
  b_folder_id : option string;
  b_position : Z;
  b_created_at : Z;
  b_updated_at : Z
}.

Record DownloadRow := {
  d_id : string;
  d_filename : string;
  d_savePath : string;
  d_totalBytes : Z;
  d_receivedBytes : Z;
  d_state : string;
  d_timestamp : Z
}.

Record Conn := {
  history : list HistoryRow;
  history_seq : Z;              (* AUTOINCREMENT counter of [history] *)
  open_tabs : list TabStateRow;
  bookmarks : list BookmarkRow;
  settings : gmap string string;
  downloads : list DownloadRow;
  writes_left : option nat
}.

Definition empty_conn : Conn :=
  {| history := []; history_seq := 0; open_tabs := []; bookmarks := [];
     settings := ∅; downloads := []; writes_left := None |}.

Definition with_history (h : list HistoryRow) (seq : Z) (c : Conn) : Conn :=
  {| history := h; history_seq := seq; open_tabs := open_tabs c;
     bookmarks := bookmarks c; settings := settings c;
     downloads := downloads c; writes_left := writes_left c |}.

Definition with_open_tabs (t : list TabStateRow) (c : Conn) : Conn :=
  {| history := history c; history_seq := history_seq c; open_tabs := t;
     bookmarks := bookmarks c; settings := settings c;
     downloads := downloads c; writes_left := writes_left c |}.

Definition with_bookmarks (b : list BookmarkRow) (c : Conn) : Conn :=
  {| history := history c; history_seq := history_seq c;
     open_tabs := open_tabs c; bookmarks := b; settings := settings c;
     downloads := downloads c; writes_left := writes_left c |}.

Definition with_settings (s : gmap string string) (c : Conn) : Conn :=
  {| history := history c; history_seq := history_seq c;
     open_tabs := open_tabs c; bookmarks := bookmarks c; settings := s;
     downloads := downloads c; writes_left := writes_left c |}.

Definition with_downloads (d : list DownloadRow) (c : Conn) : Conn :=
  {| history := history c; history_seq := history_seq c;
     open_tabs := open_tabs c; bookmarks := bookmarks c;
     settings := settings c; downloads := d; writes_left := writes_left c |}.

Definition with_writes_left (w : option nat) (c : Conn) : Conn :=
  {| history := history c; history_seq := history_seq c;
     open_tabs := open_tabs c; bookmarks := bookmarks c;
     settings := settings c; downloads := downloads c; writes_left := w |}.

(** Statements run against an open connection. *)
Definition Stmt (A : Type) : Type := Conn → Outcome A * Conn.

Module Sqlite.

Definition ret {A} (a : A) : Stmt A := λ c, (Returned a, c).

Definition throw {A} (e : Exn) : Stmt A := λ c, (Thrown e, c).

Definition bind {A B} (m : Stmt A) (k : A → Stmt B) : Stmt B :=
  λ c, match m c with
       | (Returned a, c') => k a c'
       | (Thrown e, c') => (Thrown e, c')
       end.

(** [try { m } catch (e) { h e }] *)
Definition try_catch {A} (m : Stmt A) (h : Exn → Stmt A) : Stmt A :=
  λ c, match m c with
       | (Returned a, c') => (Returned a, c')
       | (Thrown e, c') => h e c'
       end.

(** [stmt.get()] and [stmt.all()]: a query reads the tables. *)
Definition query {A} (q : Conn → A) : Stmt A := λ c, (Returned (q c), c).

(** [stmt.run()]: the statement [f] either violates a constraint or yields
    the number of changed rows and the new tables.  It is refused when the
    environment accepts no more writes. *)
Definition run (f : Conn → Exn + (nat * Conn)) : Stmt nat :=
  λ c, match writes_left c with
       | Some O => (Thrown (SqliteError "SQLITE_FULL"), c)
       | budget =>
           match f c with
           | inl e => (Thrown e, c)
           | inr (n, c') => (Returned n, with_writes_left (pred <$> budget) c')
           end
       end.

(** [db.transaction(fn)(args)]: when [fn] throws, the tables go back to
    what they were when the transaction began, and the exception is
    rethrown. *)
Definition transaction {A} (body : Stmt A) : Stmt A :=
  λ c, match body c with
       | (Returned a, c') => (Returned a, c')
       | (Thrown e, c') => (Thrown e, with_writes_left (writes_left c') c)
       end.

(** [for (const x of xs) body(x)] *)
Fixpoint for_each {A} (xs : list A) (body : A → Stmt unit) : Stmt unit :=
  match xs with
  | [] => ret tt
  | x :: xs' => bind (body x) (λ _, for_each xs' body)
  end.

End Sqlite.

Declare Scope stmt_scope.
Delimit Scope stmt_scope with stmt.
Notation "'let*' x ':=' m 'in' k" := (Sqlite.bind m (λ x, k))
  (at level 10, x name, m at level 100, k at level 200) : stmt_scope.
Notation "m '>>>' k" := (Sqlite.bind m (λ _, k))
  (at level 85, right associativity) : stmt_scope.

Local Open Scope stmt_scope.

(** ** Runtime type guards ([types/guards.ts]) *)

(** The values a field of a history entry can hold at run time. *)
Inductive JsValue :=
| VUndefined
| VNull
| VNumber (n : Z)
| VString (s : string).

(** [typeof v] *)
Definition typeof (v : JsValue) : string :=
  match v with
  | VUndefined => "undefined"
  | VNull => "object"
  | VNumber _ => "number"
  | VString _ => "string"
  end.

(** An object with the fields of a [HistoryEntry], before validation. *)
Record HistoryEntry := {
  he_id : JsValue;
  he_url : JsValue;
  he_title : JsValue;
  he_timestamp : JsValue;
  he_visit_count : JsValue;
  he_favicon : JsValue
}.

(** An object with the fields of a [Bookmark], before validation. *)
Record BookmarkObject := {
  bo_id : JsValue;
  bo_url : JsValue;
  bo_title : JsValue;
  bo_favicon : JsValue;
  bo_folder_id : JsValue;
  bo_position : JsValue;
  bo_created_at : JsValue;
  bo_updated_at : JsValue
}.

(** ** Regular expressions on UTF-16 code units

    The pattern of [isValidUrl] uses [.], which tells the line terminators
    U+2028 and U+2029 from the other characters; a string that it is matched
    against is the list of its code units, each a number below 65536. *)

Module Regex16.

Inductive re :=
| Void
| Eps
| Class (p : N → bool)
| Cat (r1 r2 : re)
| Alt (r1 r2 : re)
| Star (r : re).

Fixpoint nullable (r : re) : bool :=
  match r with
  | Void => false
  | Eps => true
  | Class _ => false
  | Cat r1 r2 => nullable r1 && nullable r2
  | Alt r1 r2 => nullable r1 || nullable r2
  | Star _ => true
  end.

Fixpoint deriv (a : N) (r : re) : re :=
  match r with
  | Void => Void
  | Eps => Void
  | Class p => if p a then Eps else Void
  | Cat r1 r2 =>
      if nullable r1 then Alt (Cat (deriv a r1) r2) (deriv a r2)
      else Cat (deriv a r1) r2
  | Alt r1 r2 => Alt (deriv a r1) (deriv a r2)
  | Star r1 => Cat (deriv a r1) (Star r1)
  end.

(** Some prefix of [s] matches [r]: [/^r/.test(s)]. *)
Fixpoint matches_prefix (r : re) (s : list N) : bool :=
  nullable r ||
  match s with
  | [] => false
  | a :: s' => matches_prefix (deriv a r) s'
  end.

(** The code units of a string of ASCII characters. *)
Definition units (s : string) : list N := N_of_ascii <$> list_ascii_of_string s.

Definition Chr (c : ascii) : re := Class (N.eqb (N_of_ascii c)).

Fixpoint Lit (s : string) : re :=
  match s with
  | EmptyString => Eps
  | String c s' => Cat (Chr c) (Lit s')
  end.

(** [r+] and [r?] *)
Definition Plus (r : re) : re := Cat r (Star r).
Definition Opt (r : re) : re := Alt r Eps.

(** The line terminators: LF, CR, U+2028 and U+2029. *)
Definition line_terminator (u : N) : bool :=
  (u =? 10)%N || (u =? 13)%N || (u =? 8232)%N || (u =? 8233)%N.

(** [.] of a pattern without the [s] flag *)
Definition Dot : re := Class (λ u, negb (line_terminator u)).

End Regex16.

Module Guards.

Definition is_undefined (v : JsValue) : bool :=
  match v with VUndefined => true | _ => false end.

(** [isHistoryEntry], on an object. *)
Definition isHistoryEntry (h : HistoryEntry) : bool :=
  if negb (String.eqb (typeof (he_url h)) "string") then false
  else if negb (String.eqb (typeof (he_title h)) "string") then false
  else if negb (String.eqb (typeof (he_timestamp h)) "number") then false
  else if negb (is_undefined (he_id h))
          && negb (String.eqb (typeof (he_id h)) "number") then false
  else if negb (is_undefined (he_visit_count h))
          && negb (String.eqb (typeof (he_visit_count h)) "number") then false
  else true.

(** [validateHistoryEntries]: keeps the valid entries, in order. *)
Definition validateHistoryEntries (data : list HistoryEntry) : list HistoryEntry :=
  List.filter isHistoryEntry data.

(** [String.prototype.trim] on code units below 256: the white space is
    TAB, LF, VT, FF, CR, SPACE and NBSP. *)
Definition is_space (a : ascii) : bool :=
  let n := nat_of_ascii a in
  ((9 <=? n)%nat && (n <=? 13)%nat) || (n =? 32)%nat || (n =? 160)%nat.

Fixpoint trim_start (s : string) : string :=
  match s with
  | EmptyString => EmptyString
  | String a s' => if is_space a then trim_start s' else s
  end.

Definition trim (s : string) : string :=
  String.rev (trim_start (String.rev (trim_start s))).

(** [isValidSettingKey]; its argument is a string already. *)
Definition isValidSettingKey (key : string) : bool :=
  let trimmed := trim key in
  if ((String.length trimmed =? 0)%nat || (100 <? String.length trimmed)%nat)%bool
  then false
  else (* KEY_PATTERN = /^[a-zA-Z0-9_-]+$/ *)
    Regex.test_whole (Regex.Plus (Regex.Class Regex.key_char)) trimmed.

(** [isValidTabId]; its argument is a string already. *)
Definition isValidTabId (id : string) : bool :=
  if ((String.length id =? 0)%nat || (100 <? String.length id)%nat)%bool
  then false
  else (* TAB_ID_PATTERN = /^[a-zA-Z0-9-]+$/ *)
    Regex.test_whole (Regex.Plus (Regex.Class Regex.label_char)) id.

(** [isBookmark], on an object. *)
Definition isBookmark (b : BookmarkObject) : bool :=
  if negb (String.eqb (typeof (bo_id b)) "string") then false
  else if negb (String.eqb (typeof (bo_title b)) "string") then false
  else if negb (String.eqb (typeof (bo_position b)) "number") then false
  else if negb (String.eqb (typeof (bo_created_at b)) "number") then false
  else if negb (String.eqb (typeof (bo_updated_at b)) "number") then false
  else if negb (is_undefined (bo_url b))
          && negb (String.eqb (typeof (bo_url b)) "string") then false
  else if negb (is_undefined (bo_favicon b))
          && negb (String.eqb (typeof (bo_favicon b)) "string") then false
  else if negb (is_undefined (bo_folder_id b))
          && negb (String.eqb (typeof (bo_folder_id b)) "string") then false
  else true.

(** [validateBookmarks]: keeps the valid bookmarks, in order. *)
Definition validateBookmarks (data : list BookmarkObject) : list BookmarkObject :=
  List.filter isBookmark data.

(** [URL_PATTERN = /^https?:\/\/.+/] without its anchor *)
Definition URL_PATTERN : Regex16.re :=
  Regex16.Cat (Regex16.Lit "http")
    (Regex16.Cat (Regex16.Opt (Regex16.Chr "s"))
       (Regex16.Cat (Regex16.Lit "://") (Regex16.Plus Regex16.Dot))).

(** [isValidUrl]; its argument is a string already, given by its code
    units, and [url.length] is their number. *)
Definition isValidUrl (url : list N) : bool :=
  if ((length url <? 10)%nat || (2048 <? length url)%nat)%bool
  then false
  else Regex16.matches_prefix URL_PATTERN url.

(** [isValidBookmarkId]; its argument is a string already. *)
Definition isValidBookmarkId (id : string) : bool :=
  if ((String.length id =? 0)%nat || (100 <? String.length id)%nat)%bool
  then false
  else (* ID_PATTERN = /^[a-zA-Z0-9-]+$/ *)
    Regex.test_whole (Regex.Plus (Regex.Class Regex.label_char)) id.

End Guards.

(** ** The persistence gateway ([database.ts]) *)

Record Bookmark := {
  bm_id : string;
  bm_url : string;
  bm_title : string;
  bm_favicon : option string;
  bm_folder_id : option string;
  bm_position : Z;
  bm_created_at : Z;
  bm_updated_at : Z
}.

Record TabState := {
  ts_id : string;
  ts_url : string;
  ts_title : string;
  ts_favicon : option string;
  ts_position : Z;
  ts_active : bool
}.

(** The module variable [db]: [None] until [initDatabase] has run and after
    [closeDatabase]. An exported function of the module is a [Call]. *)
Definition Call (A : Type) : Type := option Conn → Outcome A * option Conn.

(** [ORDER BY timestamp DESC] *)
Definition newer_first (a b : HistoryRow) : Prop := h_timestamp b ≤ h_timestamp a.

(** [ORDER BY position ASC] *)
Definition position_asc (a b : TabStateRow) : Prop := t_position a ≤ t_position b.

#[global] Instance newer_first_dec a b : Decision (newer_first a b).
Proof. unfold newer_first. apply _. Defined.

#[global] Instance position_asc_dec a b : Decision (position_asc a b).
Proof. unfold position_asc. apply _. Defined.

(** [ORDER BY position ASC] on bookmarks *)
Definition bookmark_position_asc (a b : BookmarkRow) : Prop :=
  b_position a ≤ b_position b.

#[global] Instance bookmark_position_asc_dec a b : Decision (bookmark_position_asc a b).
Proof. unfold bookmark_position_asc. apply _. Defined.

(** [ORDER BY timestamp DESC] on downloads *)
Definition download_newer_first (a b : DownloadRow) : Prop :=
  d_timestamp b ≤ d_timestamp a.

#[global] Instance download_newer_first_dec a b : Decision (download_newer_first a b).
Proof. unfold download_newer_first. apply _. Defined.

(** The [LIKE] operator of SQLite: [%] stands for any run of characters, [_]
    for any one character, and ASCII letters match without regard to case. *)
Module Like.

Definition lower (a : ascii) : ascii :=
  if Regex.in_range "A" "Z" a then ascii_of_nat (nat_of_ascii a + 32) else a.

Definition same_char (a b : ascii) : bool := Ascii.eqb (lower a) (lower b).

Fixpoint matches (pattern s : list ascii) : bool :=
  match pattern with
  | [] => match s with [] => true | _ => false end
  | p :: pattern' =>
      if Ascii.eqb p "%" then
        (fix skip (t : list ascii) : bool :=
           matches pattern' t ||
           match t with
           | [] => false
           | _ :: t' => skip t'
           end) s
      else
        match s with
        | [] => false
        | c :: s' =>
            (Ascii.eqb p "_" || same_char p c) && matches pattern' s'
        end
  end.

(** The length of a string in the bytes of its UTF-8 form. *)
Definition utf8_length (s : string) : Z :=
  Z.of_nat (length (list_ascii_of_string s))
  + Z.of_nat (length (List.filter (λ a, (128 <=? nat_of_ascii a)%nat)
                        (list_ascii_of_string s))).

(** [SQLITE_MAX_LIKE_PATTERN_LENGTH] *)
Definition max_pattern_length : Z := 50000.

(** The operator compares C strings: both operands end at their first NUL. *)
Fixpoint c_string (s : list ascii) : list ascii :=
  match s with
  | [] => []
  | a :: s' => if Ascii.eqb a "000" then [] else a :: c_string s'
  end.

(** [value LIKE pattern]; a [NULL] value gives [NULL], which selects nothing. *)
Definition like (value : option string) (pattern : string) : bool :=
  match value with
  | Some v => matches (c_string (list_ascii_of_string pattern))
                (c_string (list_ascii_of_string v))
  | None => false
  end.

End Like.

Module Database.

(** [if (!db) throw new Error('Database not initialized');] followed by the
    body of the function. *)
Definition opened {A} (body : Stmt A) : Call A :=
  λ db, match db with
        | None => (Thrown (Error "Database not initialized"), None)
        | Some c => let '(o, c') := body c in (o, Some c')
        end.

(** *** history *)

(** [SELECT id, visit_count FROM history WHERE url = ?], first row *)
Definition select_history_by_url (url : string) (c : Conn) : option HistoryRow :=
  List.find (λ r, String.eqb (h_url r) url) (history c).

(** [UPDATE history SET visit_count = visit_count + 1, timestamp = ?,
    title = ?, favicon = COALESCE(?, favicon) WHERE id = ?] *)
Definition visit_again (now : Z) (title : string) (favicon : option string)
    (r : HistoryRow) : HistoryRow :=
  {| h_id := h_id r; h_url := h_url r; h_title := title;
     h_timestamp := now; h_visit_count := h_visit_count r + 1;
     h_favicon := match favicon with Some f => Some f | None => h_favicon r end |}.

Definition update_history (now : Z) (title : string) (favicon : option string)
    (id : Z) (c : Conn) : Exn + (nat * Conn) :=
  let hit r := Z.eqb (h_id r) id in
  inr (length (List.filter hit (history c)),
       with_history
         (map (λ r, if hit r then visit_again now title favicon r else r) (history c))
         (history_seq c) c).

(** The next [AUTOINCREMENT] id: one more than the largest id ever used. *)
Definition next_history_id (c : Conn) : Z :=
  foldr (λ r m, Z.max (h_id r) m) (history_seq c) (history c) + 1.

(** [INSERT INTO history (url, title, timestamp, favicon) VALUES (?, ?, ?, ?)];
    [visit_count] takes its default, 1. *)
Definition insert_history (url title : string) (now : Z) (favicon : option string)
    (c : Conn) : Exn + (nat * Conn) :=
  let id := next_history_id c in
  inr (1%nat,
       with_history
         (history c ++ [{| h_id := id; h_url := url; h_title := title;
                           h_timestamp := now; h_visit_count := 1;
                           h_favicon := favicon |}])
         id c).

Definition addHistoryEntry (url title : string) (favicon : option string)
    (now : Z) : Call unit :=
  opened
    (if Js.startsWith url "hera://" then Sqlite.ret tt
     else
       Sqlite.try_catch
         (let* existing := Sqlite.query (select_history_by_url url) in
          match existing with
          | Some row =>
              Sqlite.run (update_history now title favicon (h_id row)) >>> Sqlite.ret tt
          | None =>
              Sqlite.run (insert_history url title now favicon) >>> Sqlite.ret tt
          end)
         (λ _, Sqlite.ret tt)).

Definition history_entry_of_row (row : HistoryRow) : HistoryEntry :=
  {| he_id := VNumber (h_id row); he_url := VString (h_url row);
     he_title := VString (h_title row);
     he_timestamp := VNumber (h_timestamp row);
     he_visit_count := VNumber (h_visit_count row);
     he_favicon := match Js.or_undefined (h_favicon row) with
                   | Some f => VString f
                   | None => VUndefined
                   end |}.

(** [SELECT ... FROM history ORDER BY timestamp DESC LIMIT 1000] *)
Definition select_recent_history (c : Conn) : list HistoryRow :=
  take 1000 (merge_sort newer_first (history c)).

Definition getHistory : Call (list HistoryEntry) :=
  opened
    (Sqlite.try_catch
       (let* rows := Sqlite.query select_recent_history in
        Sqlite.ret (Guards.validateHistoryEntries (map history_entry_of_row rows)))
       (λ _, Sqlite.ret [])).

Definition clearHistory : Call unit :=
  opened
    (Sqlite.try_catch
       (Sqlite.run (λ c, inr (length (history c), with_history [] (history_seq c) c))
        >>> Sqlite.ret tt)
       (λ error, Sqlite.throw error)).

(** *** bookmarks *)

(** [folder_id IS ?] *)
Definition folder_is (a b : option string) : bool :=
  match a, b with
  | None, None => true
  | Some x, Some y => String.eqb x y
  | _, _ => false
  end.

(** [SELECT COUNT( * ) as count FROM bookmarks WHERE folder_id IS ?] *)
Definition count_bookmarks (folder : option string) (c : Conn) : Z :=
  Z.of_nat (length (List.filter (λ r, folder_is (b_folder_id r) folder) (bookmarks c))).

(** [INSERT INTO bookmarks (id, url, title, favicon, folder_id, position)
    VALUES (?, ?, ?, ?, ?, ?)]; [id] is the primary key, and the two
    timestamps default to the clock of the database, in seconds. *)
Definition insert_bookmark (id url title : string) (favicon folderId : option string)
    (position now : Z) (c : Conn) : Exn + (nat * Conn) :=
  if existsb (λ r, String.eqb (b_id r) id) (bookmarks c)
  then inl (SqliteError "SQLITE_CONSTRAINT_PRIMARYKEY")
  else inr (1%nat,
            with_bookmarks
              (bookmarks c ++ [{| b_id := id; b_url := Some url; b_title := title;
                                  b_favicon := favicon; b_folder_id := folderId;
                                  b_position := position;
                                  b_created_at := now / 1000;
                                  b_updated_at := now / 1000 |}])
              c).

Definition addBookmark (id url title : string) (favicon folderId : option string)
    (now : Z) : Call Bookmark :=
  opened
    (Sqlite.try_catch
       (let* position := Sqlite.query (count_bookmarks (Js.or_undefined folderId)) in
        Sqlite.run (insert_bookmark id url title favicon folderId position now) >>>
        Sqlite.ret {| bm_id := id; bm_url := url; bm_title := title;
                      bm_favicon := favicon; bm_folder_id := folderId;
                      bm_position := position;
                      bm_created_at := now; bm_updated_at := now |})
       (λ error, Sqlite.throw error)).

(** [DELETE FROM bookmarks WHERE id = ?] *)
Definition delete_bookmark (id : string) (c : Conn) : Exn + (nat * Conn) :=
  inr (length (List.filter (λ r, String.eqb (b_id r) id) (bookmarks c)),
       with_bookmarks (List.filter (λ r, negb (String.eqb (b_id r) id)) (bookmarks c)) c).

Definition removeBookmark (id : string) : Call bool :=
  opened
    (Sqlite.try_catch
       (let* changes := Sqlite.run (delete_bookmark id) in
        Sqlite.ret (0 <? changes)%nat)
       (λ _, Sqlite.ret false)).

(** *** saved tabs *)

(** [INSERT INTO open_tabs (id, url, title, favicon, position, active)
    VALUES (?, ?, ?, ?, ?, ?)]; [id] is the primary key. *)
Definition open_tab_row (tab : TabState) : TabStateRow :=
  {| t_id := ts_id tab; t_url := ts_url tab; t_title := ts_title tab;
     t_favicon := ts_favicon tab; t_position := ts_position tab;
     t_active := if ts_active tab then 1 else 0 |}.

Definition insert_open_tab (tab : TabState) (c : Conn) : Exn + (nat * Conn) :=
  if existsb (λ r, String.eqb (t_id r) (ts_id tab)) (open_tabs c)
  then inl (SqliteError "SQLITE_CONSTRAINT_PRIMARYKEY")
  else inr (1%nat, with_open_tabs (open_tabs c ++ [open_tab_row tab]) c).

Definition saveTabsState (tabs : list TabState) : Call unit :=
  opened
    (Sqlite.try_catch
       ((* db.prepare('DELETE FROM open_tabs').run() *)
        Sqlite.run (λ c, inr (length (open_tabs c), with_open_tabs [] c)) >>>
        (* insertMany(tabs) *)
        Sqlite.transaction
          (Sqlite.for_each tabs
             (λ tab, Sqlite.run (insert_open_tab tab) >>> Sqlite.ret tt)) >>>
        Sqlite.ret tt)
       (λ error, Sqlite.throw error)).

Definition tab_state_of_row (row : TabStateRow) : TabState :=
  {| ts_id := t_id row; ts_url := t_url row; ts_title := t_title row;
     ts_favicon := Js.or_undefined (t_favicon row);
     ts_position := t_position row;
     ts_active := Z.eqb (t_active row) 1 |}.

Definition getTabsState : Call (list TabState) :=
  opened
    (Sqlite.try_catch
       (let* rows := Sqlite.query (λ c, merge_sort position_asc (open_tabs c)) in
        Sqlite.ret (map tab_state_of_row rows))
       (λ _, Sqlite.ret [])).

(** *** settings *)

Definition getSetting (key : string) : Call (option string) :=
  opened
    (Sqlite.try_catch
       (Sqlite.query (λ c, settings c !! key))
       (λ _, Sqlite.ret None)).

(** [INSERT INTO settings (key, value) VALUES (?, ?)
    ON CONFLICT(key) DO UPDATE SET value = excluded.value] *)
Definition upsert_setting (key value : string) (c : Conn) : Exn + (nat * Conn) :=
  inr (1%nat, with_settings (<[key := value]> (settings c)) c).

Definition setSetting (key value : string) : Call bool :=
  opened
    (Sqlite.try_catch
       (Sqlite.run (upsert_setting key value) >>> Sqlite.ret true)
       (λ _, Sqlite.ret false)).

(** *** downloads *)

(** [INSERT INTO downloads (...) VALUES (?, ?, ?, ?, 0, 'downloading', ?)] *)
Definition insert_download (id filename savePath : string) (totalBytes now : Z)
    (c : Conn) : Exn + (nat * Conn) :=
  if existsb (λ r, String.eqb (d_id r) id) (downloads c)
  then inl (SqliteError "SQLITE_CONSTRAINT_PRIMARYKEY")
  else inr (1%nat,
            with_downloads
              (downloads c ++ [{| d_id := id; d_filename := filename;
                                  d_savePath := savePath;
                                  d_totalBytes := totalBytes;
                                  d_receivedBytes := 0;
                                  d_state := "downloading";
                                  d_timestamp := now |}])
              c).

Definition addDownload (id filename savePath : string) (totalBytes now : Z) : Call unit :=
  opened
    (Sqlite.try_catch
       (Sqlite.run (insert_download id filename savePath totalBytes now) >>> Sqlite.ret tt)
       (λ error, Sqlite.throw error)).

Definition update_download (f : DownloadRow → DownloadRow) (id : string)
    (c : Conn) : Exn + (nat * Conn) :=
  let hit r := String.eqb (d_id r) id in
  inr (length (List.filter hit (downloads c)),
       with_downloads (map (λ r, if hit r then f r else r) (downloads c)) c).

(** [UPDATE downloads SET receivedBytes = ? WHERE id = ?] *)
Definition set_received (receivedBytes : Z) (r : DownloadRow) : DownloadRow :=
  {| d_id := d_id r; d_filename := d_filename r; d_savePath := d_savePath r;
     d_totalBytes := d_totalBytes r; d_receivedBytes := receivedBytes;
     d_state := d_state r; d_timestamp := d_timestamp r |}.

Definition updateDownloadProgress (id : string) (receivedBytes : Z) : Call unit :=
  opened
    (Sqlite.try_catch
       (Sqlite.run (update_download (set_received receivedBytes) id) >>> Sqlite.ret tt)
       (λ _, Sqlite.ret tt)).

(** [UPDATE downloads SET state = ?, savePath = ? WHERE id = ?] *)
Definition set_state (state savePath : string) (r : DownloadRow) : DownloadRow :=
  {| d_id := d_id r; d_filename := d_filename r; d_savePath := savePath;
     d_totalBytes := d_totalBytes r; d_receivedBytes := d_receivedBytes r;
     d_state := state; d_timestamp := d_timestamp r |}.

Definition updateDownloadState (id state savePath : string) : Call unit :=
  opened
    (Sqlite.try_catch
       (Sqlite.run (update_download (set_state state savePath) id) >>> Sqlite.ret tt)
       (λ error, Sqlite.throw error)).

(** *** bookmarks, read *)

Definition bookmark_of_row (row : BookmarkRow) : BookmarkObject :=
  {| bo_id := VString (b_id row);
     bo_url := match b_url row with Some u => VString u | None => VNull end;
     bo_title := VString (b_title row);
     bo_favicon := match Js.or_undefined (b_favicon row) with
                   | Some f => VString f
                   | None => VUndefined
                   end;
     bo_folder_id := match Js.or_undefined (b_folder_id row) with
                     | Some f => VString f
                     | None => VUndefined
                     end;
     bo_position := VNumber (b_position row);
     bo_created_at := VNumber (b_created_at row);
     bo_updated_at := VNumber (b_updated_at row) |}.

(** [SELECT ... FROM bookmarks WHERE folder_id IS ? ORDER BY position ASC] *)
Definition select_bookmarks_in (folder : option string) (c : Conn) : list BookmarkRow :=
  merge_sort bookmark_position_asc
    (List.filter (λ r, folder_is (b_folder_id r) folder) (bookmarks c)).

Definition getBookmarks (folderId : option string) : Call (list BookmarkObject) :=
  opened
    (Sqlite.try_catch
       (let* rows := Sqlite.query (select_bookmarks_in (Js.or_undefined folderId)) in
        Sqlite.ret (Guards.validateBookmarks (map bookmark_of_row rows)))
       (λ _, Sqlite.ret [])).

(** [SELECT ... FROM bookmarks WHERE title LIKE ? OR url LIKE ?
    ORDER BY position ASC].  The statement fails on the first row it tests
    when the pattern is longer than SQLite allows. *)
Definition select_bookmarks_like (pattern : string) : Stmt (list BookmarkRow) :=
  λ c, if negb (match bookmarks c with [] => true | _ => false end)
          && (Like.max_pattern_length <? Like.utf8_length pattern)
       then (Thrown (SqliteError "SQLITE_ERROR"), c)
       else (Returned
               (merge_sort bookmark_position_asc
                  (List.filter
                     (λ r, Like.like (Some (b_title r)) pattern
                           || Like.like (b_url r) pattern)
                     (bookmarks c))),
             c).

Definition searchBookmarks (query : string) : Call (list BookmarkObject) :=
  opened
    (Sqlite.try_catch
       (let* rows := select_bookmarks_like ("%" +:+ query +:+ "%") in
        Sqlite.ret (Guards.validateBookmarks (map bookmark_of_row rows)))
       (λ _, Sqlite.ret [])).

(** *** settings, read all *)

(** [for (const row of rows) settings[row.key] = row.value], on an object
    literal: the assignment to [__proto__] creates no property. *)
Definition getAllSettings : Call (gmap string string) :=
  opened
    (Sqlite.try_catch
       (let* rows := Sqlite.query (λ c, map_to_list (settings c)) in
        Sqlite.ret
          (foldl (λ (obj : gmap string string) row,
                    if String.eqb row.1 "__proto__" then obj
                    else <[row.1 := row.2]> obj)
             ∅ rows))
       (λ _, Sqlite.ret ∅)).

(** *** downloads, read and delete *)

Section Downloads.

(** The numbers of JavaScript that are not integers: [F] is their type,
    [zero] is [0] and [percent r t] is [(r / t) * 100]. *)
Variables (F : Type) (zero : F) (percent : Z → Z → F).

Record DownloadWithProgress := {
  dp_id : string;
  dp_filename : string;
  dp_savePath : string;
  dp_totalBytes : Z;
  dp_receivedBytes : Z;
  dp_state : string;
  dp_progress : F;
  dp_timestamp : Z
}.

Definition download_with_progress (row : DownloadRow) : DownloadWithProgress :=
  {| dp_id := d_id row; dp_filename := d_filename row;
     dp_savePath := d_savePath row; dp_totalBytes := d_totalBytes row;
     dp_receivedBytes := d_receivedBytes row; dp_state := d_state row;
     dp_progress := if 0 <? d_totalBytes row
                    then percent (d_receivedBytes row) (d_totalBytes row)
                    else zero;
     dp_timestamp := d_timestamp row |}.

Definition getDownloads : Call (list DownloadWithProgress) :=
  opened
    (Sqlite.try_catch
       (let* rows := Sqlite.query
                       (λ c, merge_sort download_newer_first (downloads c)) in
        Sqlite.ret (map download_with_progress rows))
       (λ _, Sqlite.ret [])).

End Downloads.

Arguments dp_id {F} _.
Arguments dp_filename {F} _.
Arguments dp_savePath {F} _.
Arguments dp_totalBytes {F} _.
Arguments dp_receivedBytes {F} _.
Arguments dp_state {F} _.
Arguments dp_progress {F} _.
Arguments dp_timestamp {F} _.

(** [DELETE FROM downloads WHERE state = 'completed'] *)
Definition delete_completed (c : Conn) : Exn + (nat * Conn) :=
  inr (length (List.filter (λ r, String.eqb (d_state r) "completed") (downloads c)),
       with_downloads
         (List.filter (λ r, negb (String.eqb (d_state r) "completed")) (downloads c)) c).

Definition clearCompletedDownloads : Call unit :=
  opened
    (Sqlite.try_catch
       (Sqlite.run delete_completed >>> Sqlite.ret tt)
       (λ error, Sqlite.throw error)).

(** [DELETE FROM downloads WHERE id = ?] *)
Definition delete_download (id : string) (c : Conn) : Exn + (nat * Conn) :=
  inr (length (List.filter (λ r, String.eqb (d_id r) id) (downloads c)),
       with_downloads (List.filter (λ r, negb (String.eqb (d_id r) id)) (downloads c)) c).

Definition removeDownload (id : string) : Call bool :=
  opened
    (Sqlite.try_catch
       (let* changes := Sqlite.run (delete_download id) in
        Sqlite.ret (0 <? changes)%nat)
       (λ _, Sqlite.ret false)).


(** *** [addBookmark] on arguments of any type

    The command surface hands [addBookmark] a [title] that may be
    [undefined]; the statement binds it as [NULL], which the [NOT NULL]
    constraint of the column refuses before the primary key is looked at.
    The object returned holds the arguments as they were given. *)

Definition js_of_option (o : option string) : JsValue :=
  match o with Some s => VString s | None => VUndefined end.

Definition insert_bookmark_untyped (id url : string) (title favicon folderId : option string)
    (position now : Z) (c : Conn) : Exn + (nat * Conn) :=
  match title with
  | Some title => insert_bookmark id url title favicon folderId position now c
  | None => inl (SqliteError "SQLITE_CONSTRAINT_NOTNULL")
  end.

Definition addBookmark_untyped (id url : string) (title favicon folderId : option string)
    (now : Z) : Call BookmarkObject :=
  opened
    (Sqlite.try_catch
       (let* position := Sqlite.query (count_bookmarks (Js.or_undefined folderId)) in
        Sqlite.run (insert_bookmark_untyped id url title favicon folderId position now) >>>
        Sqlite.ret {| bo_id := VString id; bo_url := VString url;
                      bo_title := js_of_option title;
                      bo_favicon := js_of_option favicon;
                      bo_folder_id := js_of_option folderId;
                      bo_position := VNumber position;
                      bo_created_at := VNumber now;
                      bo_updated_at := VNumber now |})
       (λ error, Sqlite.throw error)).

End Database.

(** ** The main process ([index.ts])

    The state of the main process: the module variables of [index.ts], the
    messages it has sent to the renderer of the main window, the callbacks it
    has handed to [setImmediate], and the module variable [db] of
    [database.ts]. *)

(** The argument of [webContents.loadURL]: an address, or, when the program
    reads a property that an object literal only inherits, that member of
    [Object.prototype]. *)
Inductive LoadArg :=
| Address (url : string)
| InheritedMember (name : string).

(** What the program observes of a [BrowserView]. *)
Record View := {
  wc_url : string;               (* webContents.getURL() *)
  wc_loading : option LoadArg;   (* the last argument given to loadURL *)
  wc_finding : bool              (* a find-in-page request is active *)
}.

Record TabInfo := {
  ti_url : string;
  ti_title : string;
  ti_favicon : option string
}.

(** [mainWindow.webContents.send(channel, ...args)] *)
Inductive IpcMessage :=
| TabSwitched (id url : string)
| FindRestoreState
| TabCreated (id title url : string) (favicon : option string)
| TabClosed (id : string)
| DownloadStarted (id filename savePath : string) (totalBytes : Z)
| DownloadProgress (id savePath : string) (receivedBytes totalBytes : Z)
| DownloadComplete (id savePath state : string).

(** The callbacks given to [setImmediate]. *)
Inductive Task :=
| SendFindRestoreState.

Record App := {
  tabs : list (string * View);          (* a Map, in insertion order *)
  tabInfo : gmap string TabInfo;
  tabFindBarStates : gmap string bool;
  activeTabId : option string;
  browserView : option string;          (* the view shown by mainWindow, by tab id *)
  sent : list IpcMessage;               (* oldest first *)
  immediates : list Task;               (* oldest first *)
  db : option Conn
}.

(** [Map] operations on an insertion-ordered list of entries. *)
Module JsMap.

Definition has {V} (m : list (string * V)) (k : string) : bool :=
  existsb (λ e, String.eqb (fst e) k) m.

Fixpoint get {V} (m : list (string * V)) (k : string) : option V :=
  match m with
  | [] => None
  | (k', v) :: m' => if String.eqb k' k then Some v else get m' k
  end.

(** [m.set(k, v)]: a present key keeps its place, a new one goes last. *)
Fixpoint set {V} (m : list (string * V)) (k : string) (v : V) : list (string * V) :=
  match m with
  | [] => [(k, v)]
  | (k', v') :: m' =>
      if String.eqb k' k then (k', v) :: m' else (k', v') :: set m' k v
  end.

Definition delete {V} (m : list (string * V)) (k : string) : list (string * V) :=
  List.filter (λ e, negb (String.eqb (fst e) k)) m.

Definition keys {V} (m : list (string * V)) : list string := map fst m.

End JsMap.

Module Main.

Definition set_tabs (t : list (string * View)) (s : App) : App :=
  {| tabs := t; tabInfo := tabInfo s; tabFindBarStates := tabFindBarStates s;
     activeTabId := activeTabId s; browserView := browserView s;
     sent := sent s; immediates := immediates s; db := db s |}.

Definition set_tabInfo (i : gmap string TabInfo) (s : App) : App :=
  {| tabs := tabs s; tabInfo := i; tabFindBarStates := tabFindBarStates s;
     activeTabId := activeTabId s; browserView := browserView s;
     sent := sent s; immediates := immediates s; db := db s |}.

Definition set_tabFindBarStates (f : gmap string bool) (s : App) : App :=
  {| tabs := tabs s; tabInfo := tabInfo s; tabFindBarStates := f;
     activeTabId := activeTabId s; browserView := browserView s;
     sent := sent s; immediates := immediates s; db := db s |}.

Definition set_activeTabId (a : option string) (s : App) : App :=
  {| tabs := tabs s; tabInfo := tabInfo s; tabFindBarStates := tabFindBarStates s;
     activeTabId := a; browserView := browserView s;
     sent := sent s; immediates := immediates s; db := db s |}.

Definition set_browserView (v : option string) (s : App) : App :=
  {| tabs := tabs s; tabInfo := tabInfo s; tabFindBarStates := tabFindBarStates s;
     activeTabId := activeTabId s; browserView := v;
     sent := sent s; immediates := immediates s; db := db s |}.

Definition set_db (d : option Conn) (s : App) : App :=
  {| tabs := tabs s; tabInfo := tabInfo s; tabFindBarStates := tabFindBarStates s;
     activeTabId := activeTabId s; browserView := browserView s;
     sent := sent s; immediates := immediates s; db := d |}.

(** [mainWindow.webContents.send(...)] *)
Definition send (m : IpcMessage) (s : App) : App :=
  {| tabs := tabs s; tabInfo := tabInfo s; tabFindBarStates := tabFindBarStates s;
     activeTabId := activeTabId s; browserView := browserView s;
     sent := sent s ++ [m]; immediates := immediates s; db := db s |}.

(** [setImmediate(task)] *)
Definition setImmediate (t : Task) (s : App) : App :=
  {| tabs := tabs s; tabInfo := tabInfo s; tabFindBarStates := tabFindBarStates s;
     activeTabId := activeTabId s; browserView := browserView s;
     sent := sent s; immediates := immediates s ++ [t]; db := db s |}.

(** [view.webContents.stopFindInPage('clearSelection')] on the view of tab [id] *)
Definition stopFindInPage (id : string) (s : App) : App :=
  match JsMap.get (tabs s) id with
  | Some v =>
      set_tabs (JsMap.set (tabs s) id
                  {| wc_url := wc_url v; wc_loading := wc_loading v;
                     wc_finding := false |}) s
  | None => s
  end.

(** [view.webContents.loadURL(url)] on the view of tab [id] *)
Definition loadURL (id : string) (url : LoadArg) (s : App) : App :=
  match JsMap.get (tabs s) id with
  | Some v =>
      set_tabs (JsMap.set (tabs s) id
                  {| wc_url := wc_url v; wc_loading := Some url;
                     wc_finding := wc_finding v |}) s
  | None => s
  end.

(** [mainWindow.removeBrowserView(view)] for the view of tab [id] *)
Definition removeBrowserView (id : string) (s : App) : App :=
  match browserView s with
  | Some shown => if String.eqb shown id then set_browserView None s else s
  | None => s
  end.

(** The first block of [switchToTab]:
    [if (activeTabId && tabs.has(activeTabId)) { ... }] *)
Definition leave_active_tab (s : App) : App :=
  match activeTabId s with
  | Some old =>
      if negb (String.eqb old EmptyString) && JsMap.has (tabs s) old
      then removeBrowserView old (stopFindInPage old s)
      else s
  | None => s
  end.

(** [switchToTab].  [resizeActiveTab()] only sets the bounds of the view,
    which the state does not record. *)
Definition switchToTab (id : string) (s : App) : App :=
  if negb (JsMap.has (tabs s) id) then s
  else
    let s1 := leave_active_tab s in
    match JsMap.get (tabs s1) id with
    | None => s1
    | Some view =>
        let s2 := set_browserView (Some id) s1 in
        let s3 := set_activeTabId (Some id) s2 in
        let s4 := send (TabSwitched id (wc_url view)) s3 in
        setImmediate SendFindRestoreState s4
    end.

(** The initial title of a tab, from its address. *)
Definition initial_title (finalUrl : string) : string :=
  if Js.startsWith finalUrl "hera://" then
    if Js.includes finalUrl "settings" then "Configurações"
    else if Js.includes finalUrl "new-tab" then "Nova Aba"
    else if Js.includes finalUrl "history" then "Histórico"
    else if Js.includes finalUrl "downloads" then "Downloads"
    else "Hera Browser"
  else "Nova Aba".

Definition initial_favicon (finalUrl : string) : option string :=
  if Js.startsWith finalUrl "hera://" then Some "hera://HeraBrowser256x256.png"
  else None.

(** [createNewTab]; [uuid] is the value [uuidv4()] returns.  The listeners
    it registers on the new view are run by the host later. *)
Definition createNewTab (uuid : string) (url : option string) (s : App) : App :=
  let finalUrl := Js.or_str url "hera://new-tab" in
  let id := uuid in
  let view := {| wc_url := EmptyString; wc_loading := None; wc_finding := false |} in
  let s1 := set_tabs (JsMap.set (tabs s) id view) s in
  let initialTitle := initial_title finalUrl in
  let initialFavicon := initial_favicon finalUrl in
  let s2 := set_tabInfo
              (<[id := {| ti_url := finalUrl; ti_title := initialTitle;
                          ti_favicon := initialFavicon |}]> (tabInfo s1)) s1 in
  let s3 := switchToTab id s2 in
  let s4 := loadURL id (Address finalUrl) s3 in
  send (TabCreated id initialTitle finalUrl initialFavicon) s4.

(** [Array.from(tabs.keys()).map((id, index) => ({ ... }))] *)
Definition tabs_array (s : App) : list TabState :=
  imap (λ index id,
          let info := tabInfo s !! id in
          {| ts_id := id;
             ts_url := Js.or_str (ti_url <$> info) EmptyString;
             ts_title := Js.or_str (ti_title <$> info) EmptyString;
             ts_favicon := info ≫= ti_favicon;
             ts_position := Z.of_nat index;
             ts_active := bool_decide (Some id = activeTabId s) |})
       (JsMap.keys (tabs s)).

(** [try { saveTabsToDatabase(tabsArray) } catch (err) { console.error(...) }] *)
Definition save_tabs (s : App) : App :=
  let '(_, db') := Database.saveTabsState (tabs_array s) (db s) in
  set_db db' s.

(** The first block of [closeTab]: the view is stopped, detached and
    forgotten, and ['tab-closed'] is sent. *)
Definition discard_tab (id : string) (s : App) : App :=
  let s1 := stopFindInPage id s in
  let s2 := removeBrowserView id s1 in
  let s3 := set_tabs (JsMap.delete (tabs s2) id) s2 in
  let s4 := set_tabInfo (delete id (tabInfo s3)) s3 in
  let s5 := set_tabFindBarStates (delete id (tabFindBarStates s4)) s4 in
  send (TabClosed id) s5.

(** The second block of [closeTab]: [if (activeTabId === id) { ... }];
    [uuid] is what [uuidv4()] returns if a replacement tab is opened. *)
Definition show_another_tab (id uuid : string) (s : App) : App :=
  if bool_decide (activeTabId s = Some id) then
    match JsMap.keys (tabs s) with
    | lastTabId :: _ => switchToTab lastTabId s
    | [] => createNewTab uuid None s
    end
  else s.

Definition closeTab (id uuid : string) (s : App) : App :=
  if negb (JsMap.has (tabs s) id) then s
  else save_tabs (show_another_tab id uuid (discard_tab id s)).

(** The event loop runs the oldest callback given to [setImmediate]. *)
Definition run_immediate (s : App) : App :=
  match immediates s with
  | [] => s
  | SendFindRestoreState :: rest =>
      send FindRestoreState
        {| tabs := tabs s; tabInfo := tabInfo s;
           tabFindBarStates := tabFindBarStates s;
           activeTabId := activeTabId s; browserView := browserView s;
           sent := sent s; immediates := rest; db := db s |}
  end.

(** *** Download tracking: the [will-download] listener of the web session

    [id] is the value of [uuidv4()] at the start of the download; the other
    arguments are what the download item reports. *)

Definition on_will_download (id filename savePath : string) (totalBytes now : Z)
    (s : App) : App :=
  let '(_, db') := Database.addDownload id filename savePath totalBytes now (db s) in
  send (DownloadStarted id filename savePath totalBytes) (set_db db' s).

(** [item.on('updated', (_event, state) => ...)] *)
Definition on_download_updated (id state savePath : string)
    (receivedBytes totalBytes : Z) (s : App) : App :=
  if String.eqb state "progressing" then
    let '(_, db') := Database.updateDownloadProgress id receivedBytes (db s) in
    send (DownloadProgress id savePath receivedBytes totalBytes) (set_db db' s)
  else s.

(** [item.once('done', (_event, state) => ...)] *)
Definition on_download_done (id state finalPath : string) (s : App) : App :=
  let finalState := if String.eqb state "completed" then "completed" else "failed" in
  let '(_, db') := Database.updateDownloadState id finalState finalPath (db s) in
  send (DownloadComplete id finalPath finalState) (set_db db' s).

(** *** The [hera://navigate-from-newtab] route of the protocol handler *)

(** [^(https?:\/\/)] *)
Definition scheme_re : Regex.re :=
  Regex.Cat (Regex.Lit "http")
    (Regex.Cat (Regex.Opt (Regex.Chr "s")) (Regex.Lit "://")).

(** [(localhost)] *)
Definition localhost_re : Regex.re := Regex.Lit "localhost".

(** [([a-zA-Z0-9-]+\.)+[a-zA-Z]{2,}] *)
Definition domain_re : Regex.re :=
  Regex.Cat
    (Regex.Plus (Regex.Cat (Regex.Plus (Regex.Class Regex.label_char)) (Regex.Chr ".")))
    (Regex.Cat (Regex.Class Regex.letter)
       (Regex.Cat (Regex.Class Regex.letter) (Regex.Star (Regex.Class Regex.letter)))).

(** [/^(https?:\/\/)|(localhost)|([a-zA-Z0-9-]+\.)+[a-zA-Z]{2,}/.test(targetUrl)]:
    an alternation of three branches, of which only the first starts with
    the anchor. *)
Definition isUrl (targetUrl : string) : bool :=
  Regex.test_start scheme_re targetUrl
  || Regex.test localhost_re targetUrl
  || Regex.test domain_re targetUrl.

(** The names every object literal inherits from [Object.prototype]. *)
Definition object_prototype_members : list string :=
  ["constructor"; "__proto__"; "hasOwnProperty"; "isPrototypeOf";
   "propertyIsEnumerable"; "toLocaleString"; "toString"; "valueOf";
   "__defineGetter__"; "__defineSetter__"; "__lookupGetter__";
   "__lookupSetter__"].

Section Protocol.

(** The standard function [encodeURIComponent]. *)
Variable encodeURIComponent : string → string.

Definition searchEngines (targetUrl : string) : list (string * string) :=
  [("google", "https://www.google.com/search?q=" +:+ encodeURIComponent targetUrl);
   ("brave", "https://search.brave.com/search?q=" +:+ encodeURIComponent targetUrl);
   ("duckduckgo", "https://duckduckgo.com/?q=" +:+ encodeURIComponent targetUrl)].

(** [searchEngines[searchEngine] || searchEngines.google] *)
Definition search_target (searchEngine targetUrl : string) : LoadArg :=
  match JsMap.get (searchEngines targetUrl) searchEngine with
  | Some url => Address url
  | None =>
      if existsb (String.eqb searchEngine) object_prototype_members
      then InheritedMember searchEngine
      else Address ("https://www.google.com/search?q=" +:+ encodeURIComponent targetUrl)
  end.

(** The address loaded for input that passes [isUrl]. *)
Definition direct_target (targetUrl : string) : LoadArg :=
  if negb (Js.startsWith targetUrl "http://") && negb (Js.startsWith targetUrl "https://")
  then Address ("https://" +:+ targetUrl)
  else Address targetUrl.

(** [targetUrl] is [url.searchParams.get('url')]. *)
Definition navigate_from_newtab (targetUrl : option string) (s : App) : App :=
  match activeTabId s, targetUrl with
  | Some active, Some target =>
      if negb (String.eqb active EmptyString) && negb (String.eqb target EmptyString) then
        if JsMap.has (tabs s) active then
          if isUrl target then loadURL active (direct_target target) s
          else
            match Database.getSetting "searchEngine" (db s) with
            | (Returned searchEngine, db') =>
                loadURL active
                  (search_target (Js.or_str searchEngine "google") target)
                  (set_db db' s)
            | (Thrown _, db') => set_db db' s
            end
        else s
      else s
  | _, _ => s
  end.

End Protocol.

(** *** The command surface ([ipcMain.handle]) *)

(** What the renderer gets back from [ipcRenderer.invoke]. *)
Inductive Reply (A : Type) :=
| Resolved (a : A)
| Rejected (e : Exn).
Arguments Resolved {A} a.
Arguments Rejected {A} e.

(** ['history:clear']: [try { clearHistory() } catch (error) { throw error }] *)
Definition history_clear (s : App) : Reply unit * App :=
  match Database.clearHistory (db s) with
  | (Returned _, db') => (Resolved tt, set_db db' s)
  | (Thrown error, db') => (Rejected error, set_db db' s)
  end.

(** ['settings:set']: the value returned by [setSetting] is dropped. *)
Definition settings_set (key value : string) (s : App) : Reply bool * App :=
  if negb (Guards.isValidSettingKey key)
  then (Rejected (Error "Chave de configuração inválida"), s)
  else
    match Database.setSetting key value (db s) with
    | (Returned _, db') => (Resolved true, set_db db' s)
    | (Thrown error, db') => (Rejected error, set_db db' s)
    end.

(** *** Runs of the main process *)

Inductive Command :=
| NewTab (uuid : string) (url : option string)
| SwitchTab (id : string)
| CloseTab (id uuid : string)
| Immediate.

Definition step (s : App) (cmd : Command) : App :=
  match cmd with
  | NewTab uuid url => createNewTab uuid url s
  | SwitchTab id => switchToTab id s
  | CloseTab id uuid => closeTab id uuid s
  | Immediate => run_immediate s
  end.

Definition run (cmds : list Command) (s : App) : App := foldl step s cmds.

(** *** More of the command surface *)

(** ['tab:switch'] *)
Definition tab_switch (id : string) (s : App) : App :=
  if negb (Guards.isValidTabId id) then s else switchToTab id s.

(** ['tab:close']; [uuid] as in [closeTab]. *)
Definition tab_close (id uuid : string) (s : App) : App :=
  if negb (Guards.isValidTabId id) then s else closeTab id uuid s.

(** ['history:get']: the entries are validated once more, and a failure
    is answered with the empty list. *)
Definition history_get (s : App) : Reply (list HistoryEntry) * App :=
  match Database.getHistory (db s) with
  | (Returned history, db') =>
      (Resolved (Guards.validateHistoryEntries history), set_db db' s)
  | (Thrown _, db') => (Resolved [], set_db db' s)
  end.

(** ['downloads:remove']: [if (typeof id !== 'string' || !id) throw ...]
    inside a [try] whose [catch] returns [false]. *)
Definition downloads_remove (id : JsValue) (s : App) : Reply bool * App :=
  match id with
  | VString id =>
      if String.eqb id EmptyString then (Resolved false, s)
      else
        match Database.removeDownload id (db s) with
        | (Returned removed, db') => (Resolved removed, set_db db' s)
        | (Thrown _, db') => (Resolved false, set_db db' s)
        end
  | _ => (Resolved false, s)
  end.

(** ['settings:get'] for a key that is a string: an invalid key makes the
    handler throw inside its [try], whose [catch] returns [null]. *)
Definition settings_get (key : string) (s : App) : Reply (option string) * App :=
  if negb (Guards.isValidSettingKey key) then (Resolved None, s)
  else
    match Database.getSetting key (db s) with
    | (Returned value, db') => (Resolved value, set_db db' s)
    | (Thrown _, db') => (Resolved None, set_db db' s)
    end.

(** ['settings:get'] for an argument of any type: [isValidSettingKey]
    begins with [if (typeof key !== 'string') return false], so that what
    is not a string is an invalid key. *)
Definition settings_get_any (key : JsValue) (s : App) : Reply (option string) * App :=
  if negb (String.eqb (typeof key) "string") then (Resolved None, s)
  else
    match key with
    | VString key => settings_get key s
    | _ => (Resolved None, s)
    end.

(** ['settings:getAll'] *)
Definition settings_getAll (s : App) : Reply (gmap string string) * App :=
  match Database.getAllSettings (db s) with
  | (Returned all, db') => (Resolved all, set_db db' s)
  | (Thrown _, db') => (Resolved ∅, set_db db' s)
  end.

(** [!s.trim()] *)
Definition blank (s : string) : bool := String.eqb (Guards.trim s) EmptyString.

(** An argument that must be [undefined] or a string. *)
Definition optional_string (v : JsValue) : option (option string) :=
  match v with
  | VUndefined => Some None
  | VString s => Some (Some s)
  | _ => None
  end.

(** ['bookmark:add'].  The handler calls
    [addBookmark(url, title, favicon, folderId)], and the parameters of
    [addBookmark] are [(id, url, title, favicon, folderId)]: the address
    becomes the id, the title the address, the favicon the title and the
    folder the favicon, and no folder is given.  [now] is [Date.now()]. *)
Definition bookmark_add (url title favicon folderId : JsValue) (now : Z) (s : App)
    : Reply BookmarkObject * App :=
  match url with
  | VString url =>
      if blank url then (Rejected (Error "URL inválida"), s)
      else
        match title with
        | VString title =>
            if blank title then (Rejected (Error "Título inválido"), s)
            else
              match optional_string favicon with
              | None => (Rejected (Error "Favicon inválido"), s)
              | Some favicon =>
                  match optional_string folderId with
                  | None => (Rejected (Error "ID da pasta inválido"), s)
                  | Some folderId =>
                      match Database.addBookmark_untyped url title favicon folderId
                              None now (db s) with
                      | (Returned bookmark, db') => (Resolved bookmark, set_db db' s)
                      | (Thrown error, db') => (Rejected error, set_db db' s)
                      end
                  end
              end
        | _ => (Rejected (Error "Título inválido"), s)
        end
  | _ => (Rejected (Error "URL inválida"), s)
  end.

(** ['bookmark:remove']: the value returned by [removeBookmark] is dropped. *)
Definition bookmark_remove (id : string) (s : App) : Reply bool * App :=
  if negb (Guards.isValidBookmarkId id)
  then (Rejected (Error "ID de bookmark inválido"), s)
  else
    match Database.removeBookmark id (db s) with
    | (Returned _, db') => (Resolved true, set_db db' s)
    | (Thrown error, db') => (Rejected error, set_db db' s)
    end.

(** ['bookmark:get'] *)
Definition bookmark_get (folderId : JsValue) (s : App) : Reply (list BookmarkObject) * App :=
  match optional_string folderId with
  | None => (Resolved [], s)
  | Some folderId =>
      match Database.getBookmarks folderId (db s) with
      | (Returned bookmarks, db') =>
          (Resolved (Guards.validateBookmarks bookmarks), set_db db' s)
      | (Thrown _, db') => (Resolved [], set_db db' s)
      end
  end.

(** ['bookmark:search'] *)
Definition bookmark_search (query : JsValue) (s : App) : Reply (list BookmarkObject) * App :=
  match query with
  | VString query =>
      match Database.searchBookmarks query (db s) with
      | (Returned bookmarks, db') =>
          (Resolved (Guards.validateBookmarks bookmarks), set_db db' s)
      | (Thrown _, db') => (Resolved [], set_db db' s)
      end
  | _ => (Resolved [], s)
  end.

(** *** The find bar of each tab *)

(** ['find-bar-visibility'].  [resizeActiveTab()] only sets the bounds of
    the view. *)
Definition find_bar_visibility (visible : bool) (s : App) : App :=
  match activeTabId s with
  | Some active =>
      if negb (String.eqb active EmptyString)
      then set_tabFindBarStates (<[active := visible]> (tabFindBarStates s)) s
      else s
  | None => s
  end.

Definition TAB_BAR_HEIGHT : Z := 40.
Definition NAV_BAR_HEIGHT : Z := 50.
Definition FAVORITES_BAR_HEIGHT : Z := 40.
Definition FIND_BAR_HEIGHT : Z := 50.

(** [getUIHeight]; [isFavoritesBarHidden] is the module variable of that
    name. *)
Definition getUIHeight (isFavoritesBarHidden : bool) (s : App) : Z :=
  let isFindBarVisible :=
    match activeTabId s with
    | Some active =>
        if negb (String.eqb active EmptyString)
        then default false (tabFindBarStates s !! active)
        else false
    | None => false
    end in
  TAB_BAR_HEIGHT + NAV_BAR_HEIGHT
  + (if isFavoritesBarHidden then 0 else FAVORITES_BAR_HEIGHT)
  + (if isFindBarVisible then FIND_BAR_HEIGHT else 0).

(** *** The listeners of a tab

    [createNewTab] registers them on the view of the tab [id]; the host
    runs them with what the view reports.  A listener returns the
    ['tab-updated'] messages it sends to the renderer, oldest first. *)

Record TabUpdated := {
  tu_id : string;
  tu_url : option string;
  tu_title : option string;
  tu_favicon : option string
}.

(** [if (tabInfo.has(id)) { const info = tabInfo.get(id); if (info) { ... } }] *)
Definition update_tabInfo (id : string) (f : TabInfo → TabInfo) (s : App) : App :=
  match tabInfo s !! id with
  | Some info => set_tabInfo (<[id := f info]> (tabInfo s)) s
  | None => s
  end.

(** ['did-finish-load']; [title] and [url] are what the view reports and
    [now] is the clock [addHistoryEntry] reads.  The probe for the favicon
    that the listener schedules runs later. *)
Definition on_did_finish_load (id title url : string) (now : Z) (s : App)
    : list TabUpdated * App :=
  let url_message :=
    {| tu_id := id; tu_url := Some url; tu_title := None; tu_favicon := None |} in
  if Js.startsWith url "hera://" then
    let heraIconUrl := "hera://HeraBrowser256x256.png" in
    ([url_message;
      {| tu_id := id; tu_url := None; tu_title := Some title;
         tu_favicon := Some heraIconUrl |}],
     update_tabInfo id
       (λ info, {| ti_url := url; ti_title := Js.or_str (Some title) (ti_title info);
                   ti_favicon := Some heraIconUrl |}) s)
  else
    let messages :=
      if negb (String.eqb title EmptyString)
      then [url_message;
            {| tu_id := id; tu_url := None; tu_title := Some title; tu_favicon := None |}]
      else [url_message] in
    let s1 :=
      if negb (String.eqb title EmptyString)
      then update_tabInfo id
             (λ info, {| ti_url := url; ti_title := title;
                         ti_favicon := ti_favicon info |}) s
      else update_tabInfo id
             (λ info, {| ti_url := url; ti_title := ti_title info;
                         ti_favicon := ti_favicon info |}) s in
    let s2 :=
      if negb (String.eqb url EmptyString) && negb (Js.startsWith url "hera://")
      then
        let finalTitle := Js.or_str (Some title) url in
        let '(_, db') := Database.addHistoryEntry url finalTitle None now (db s1) in
        set_db db' s1
      else s1 in
    (messages, s2).

(** ['did-navigate'], without the probe for the favicon it schedules, and
    ['did-navigate-in-page'] *)
Definition on_did_navigate (id navigateUrl : string) (s : App) : list TabUpdated * App :=
  ([{| tu_id := id; tu_url := Some navigateUrl; tu_title := None; tu_favicon := None |}],
   update_tabInfo id
     (λ info, {| ti_url := navigateUrl; ti_title := ti_title info;
                 ti_favicon := ti_favicon info |}) s).

(** ['page-title-updated'] *)
Definition on_page_title_updated (id title : string) (s : App) : list TabUpdated * App :=
  ([{| tu_id := id; tu_url := None; tu_title := Some title; tu_favicon := None |}],
   update_tabInfo id
     (λ info, {| ti_url := ti_url info; ti_title := title;
                 ti_favicon := ti_favicon info |}) s).

(** [s.split(sep)] for a separator of one character *)
Fixpoint split (sep : ascii) (s : string) : list string :=
  match s with
  | EmptyString => [EmptyString]
  | String a s' =>
      if Ascii.eqb a sep then EmptyString :: split sep s'
      else
        match split sep s' with
        | [] => [String a EmptyString]
        | part :: parts => String a part :: parts
        end
  end.

(** [parts.join(sep)] *)
Fixpoint join (sep : string) (parts : list string) : string :=
  match parts with
  | [] => EmptyString
  | [part] => part
  | part :: parts' => part +:+ sep +:+ join sep parts'
  end.

(** What the program reads of a [URL] object. *)
Record Url := {
  protocol : string;
  host : string;
  pathname : string
}.

Section Favicons.

(** [new URL(s)]: the parts of the address, or [None] when the
    constructor throws. *)
Variable new_URL : string → option Url.

Definition resolveFaviconUrl (faviconUrl baseUrl : string) : string :=
  if Js.startsWith faviconUrl "http://" || Js.startsWith faviconUrl "https://"
     || Js.startsWith faviconUrl "data:"
  then faviconUrl
  else if Js.startsWith faviconUrl "//" then
    match new_URL baseUrl with
    | Some baseUrlObj => protocol baseUrlObj +:+ faviconUrl
    | None => "https:" +:+ faviconUrl
    end
  else if Js.startsWith faviconUrl "/" then
    match new_URL baseUrl with
    | Some baseUrlObj =>
        protocol baseUrlObj +:+ "//" +:+ host baseUrlObj +:+ faviconUrl
    | None => faviconUrl
    end
  else
    match new_URL baseUrl with
    | Some baseUrlObj =>
        let pathParts := split "/" (pathname baseUrlObj) in
        let pathParts := removelast pathParts in
        let basePath := Js.or_str (Some (join "/" pathParts)) "/" in
        protocol baseUrlObj +:+ "//" +:+ host baseUrlObj +:+ basePath
          +:+ "/" +:+ faviconUrl
    | None => faviconUrl
    end.

(** ['page-favicon-updated']; [currentUrl] is what the view reports. *)
Definition on_page_favicon_updated (id currentUrl : string) (favicons : list string)
    (s : App) : list TabUpdated * App :=
  if Js.startsWith currentUrl "hera://" then ([], s)
  else
    match favicons with
    | first :: _ =>
        let resolvedUrl := resolveFaviconUrl first currentUrl in
        ([{| tu_id := id; tu_url := None; tu_title := None;
             tu_favicon := Some resolvedUrl |}],
         update_tabInfo id
           (λ info, {| ti_url := ti_url info; ti_title := ti_title info;
                       ti_favicon := Some resolvedUrl |}) s)
    | [] =>
        match new_URL currentUrl with
        | Some urlObj =>
            ([{| tu_id := id; tu_url := None; tu_title := None;
                 tu_favicon := Some (protocol urlObj +:+ "//" +:+ host urlObj
                                       +:+ "/favicon.ico") |}], s)
        | None => ([], s)
        end
    end.

End Favicons.

(** *** Saving the tabs at exit and restoring them at start *)





End Main.


(** ** Vocabulary of the properties *)

(** *** Browsing history *)

(** One call of [addHistoryEntry], with the clock it read. *)
Record Visit := {
  v_url : string;
  v_title : string;
  v_favicon : option string;
  v_now : Z
}.

Definition record_visit (db : option Conn) (v : Visit) : option Conn :=
  (Database.addHistoryEntry (v_url v) (v_title v) (v_favicon v) (v_now v) db).2.

Definition record_visits (vs : list Visit) (db : option Conn) : option Conn :=
  foldl record_visit db vs.

Definition visits_to (A : string) (vs : list Visit) : list Visit :=
  List.filter (λ v, String.eqb (v_url v) A) vs.

Definition rows_for (A : string) (c : Conn) : list HistoryRow :=
  List.filter (λ r, String.eqb (h_url r) A) (history c).

Definition history_keys_unique (c : Conn) : Prop := NoDup (h_id <$> history c).

(** What the table holds about [A] after the visits [seen]. *)
Definition tracks (A : string) (seen : list Visit) (c : Conn) : Prop :=
  match last (visits_to A seen) with
  | None => rows_for A c = []
  | Some v =>
      ∃ r, rows_for A c = [r] ∧
           h_visit_count r = Z.of_nat (length (visits_to A seen)) ∧
           h_timestamp r = v_now v ∧ h_title r = v_title v
  end.


(** An entry returned by [getHistory] shows a row of the table: its fields
    hold the columns of the row, an absent or empty favicon reading as
    [undefined]. *)
Definition entry_shows_row (e : HistoryEntry) (r : HistoryRow) : Prop :=
  he_id e = VNumber (h_id r) ∧
  he_url e = VString (h_url r) ∧
  he_title e = VString (h_title r) ∧
  he_timestamp e = VNumber (h_timestamp r) ∧
  he_visit_count e = VNumber (h_visit_count r) ∧
  he_favicon e = match h_favicon r with
                 | Some f => if String.eqb f EmptyString then VUndefined else VString f
                 | None => VUndefined
                 end.

(** Most recent first, on the timestamps the entries themselves carry. *)
Definition entry_newer_first (a b : HistoryEntry) : Prop :=
  ∃ ta tb, he_timestamp a = VNumber ta ∧ he_timestamp b = VNumber tb ∧ tb ≤ ta.

Definition example_address : string := "https://example.org/".

Definition example_visits : list Visit :=
  [ {| v_url := example_address; v_title := "Example"; v_favicon := None; v_now := 100 |};
    {| v_url := "https://other.net/"; v_title := "Other"; v_favicon := None; v_now := 150 |};
    {| v_url := example_address; v_title := "Example"; v_favicon := None; v_now := 200 |};
    {| v_url := example_address; v_title := "Example Domain"; v_favicon := None; v_now := 300 |} ].

(** *** Bookmarks *)

Inductive BookmarkOp :=
| AddBookmark (id url title : string) (favicon folderId : option string) (now : Z)
| RemoveBookmark (id : string).

Definition apply_bookmark_op (db : option Conn) (op : BookmarkOp) : option Conn :=
  match op with
  | AddBookmark id url title favicon folderId now =>
      (Database.addBookmark id url title favicon folderId now db).2
  | RemoveBookmark id => (Database.removeBookmark id db).2
  end.

Definition run_bookmark_ops (ops : list BookmarkOp) (db : option Conn) : option Conn :=
  foldl apply_bookmark_op db ops.

(** The positions of the bookmarks whose folder is [g] ([None] is the root),
    in the order of the table. *)
Definition sibling_positions (g : option string) (c : Conn) : list Z :=
  b_position <$> List.filter (λ r, Database.folder_is (b_folder_id r) g) (bookmarks c).

Definition positions_unique (c : Conn) : Prop :=
  ∀ g, NoDup (sibling_positions g c).

(** The positions of every sibling group are 0, 1, ..., k-1 in some order. *)
Definition positions_contiguous (c : Conn) : Prop :=
  ∀ g, sibling_positions g c ≡ₚ Z.of_nat <$> seq 0 (length (sibling_positions g c)).

(** An [addBookmark] whose folder is absent or has a non-empty id. *)
Definition plain_add (op : BookmarkOp) : Prop :=
  match op with
  | AddBookmark _ _ _ _ folderId _ => folderId ≠ Some EmptyString
  | RemoveBookmark _ => False
  end.

Definition example_bookmark_ops : list BookmarkOp :=
  [ AddBookmark "a" "https://a.example/" "A" None None 1000;
    AddBookmark "b" "https://b.example/" "B" None None 2000;
    RemoveBookmark "a";
    AddBookmark "c" "https://c.example/" "C" None None 3000 ].

Definition example_bookmark_adds : list BookmarkOp :=
  [ AddBookmark "a" "https://a.example/" "A" None None 1000;
    AddBookmark "b" "https://b.example/" "B" None (Some "work") 2000;
    AddBookmark "c" "https://c.example/" "C" None None 3000 ].

(** *** Saved tabs *)

(** A snapshot as [getTabsState] gives it back: an empty favicon reads as
    absent. *)
Definition as_restored (tab : TabState) : TabState :=
  {| ts_id := ts_id tab; ts_url := ts_url tab; ts_title := ts_title tab;
     ts_favicon := Js.or_undefined (ts_favicon tab);
     ts_position := ts_position tab; ts_active := ts_active tab |}.

Definition example_tabs : list TabState :=
  [ {| ts_id := "t2"; ts_url := "https://example.org/"; ts_title := "Example";
       ts_favicon := None; ts_position := 1; ts_active := true |};
    {| ts_id := "t1"; ts_url := "hera://new-tab"; ts_title := "Nova Aba";
       ts_favicon := Some "hera://HeraBrowser256x256.png";
       ts_position := 0; ts_active := false |} ].

(** A store that holds the snapshot of an earlier session. *)
Definition earlier_session : Conn :=
  with_open_tabs
    [ {| t_id := "old"; t_url := "https://example.org/"; t_title := "Example";
         t_favicon := None; t_position := 0; t_active := 1 |} ]
    empty_conn.

Definition example_tab (id : string) (position : Z) (active : bool) : TabState :=
  {| ts_id := id; ts_url := "hera://new-tab"; ts_title := "Nova Aba";
     ts_favicon := None; ts_position := position; ts_active := active |}.

(** *** The tab coordinator *)

(** The ids of the open tabs, in the order of the tab map. *)
Definition open_tab_ids (s : App) : list string := JsMap.keys (tabs s).

(** The active id names an open tab. *)
Definition active_tab_open (s : App) : Prop :=
  ∃ id, activeTabId s = Some id ∧ id ∈ open_tab_ids s.

(** What holds of every state the main process reaches: while a tab is open,
    the active id names an open tab. *)
Definition coordinator_invariant (s : App) : Prop :=
  tabs s ≠ [] → active_tab_open s.

(** The main process before it has opened a tab. *)
Definition boot (d : option Conn) : App :=
  {| tabs := []; tabInfo := ∅; tabFindBarStates := ∅; activeTabId := None;
     browserView := None; sent := []; immediates := []; db := d |}.

Definition new_tab_view : View :=
  {| wc_url := EmptyString; wc_loading := Some (Address "hera://new-tab"); wc_finding := false |}.

Definition new_tab_info : TabInfo :=
  {| ti_url := "hera://new-tab"; ti_title := "Nova Aba";
     ti_favicon := Some "hera://HeraBrowser256x256.png" |}.

Definition new_tab_row (id : string) : TabStateRow :=
  {| t_id := id; t_url := "hera://new-tab"; t_title := "Nova Aba";
     t_favicon := Some "hera://HeraBrowser256x256.png";
     t_position := 0; t_active := 1 |}.

(** The find-restore and the tab-switched messages of a log. *)
Definition is_restore (m : IpcMessage) : bool :=
  match m with FindRestoreState => true | _ => false end.

Definition is_switch (m : IpcMessage) : bool :=
  match m with TabSwitched _ _ => true | _ => false end.

Definition restores (l : list IpcMessage) : nat := length (List.filter is_restore l).
Definition switches (l : list IpcMessage) : nat := length (List.filter is_switch l).

(** A log [l] with [pending] callbacks still queued is in order when every
    tab-switched message is matched by a later find-restore message or by a
    queued callback, and no prefix of the log holds more find-restore than
    tab-switched messages. *)
Definition in_order (l : list IpcMessage) (pending : nat) : Prop :=
  (restores l + pending = switches l)%nat ∧
  ∀ n, (restores (take n l) ≤ switches (take n l))%nat.

Definition notifications_in_order (s : App) : Prop :=
  in_order (sent s) (length (immediates s)).

(** *** The command surface and the download tracker *)

(** A store whose disk is full: it accepts no write. *)
Definition full_disk : Conn := with_writes_left (Some 0%nat) empty_conn.

(** The state a download is saved with once the item is done. *)
Definition persisted_state (state : string) : string :=
  if String.eqb state "completed" then "completed" else "failed".

(** A download of 100 bytes whose bytes have all arrived. *)
Definition received_in_full : App :=
  Main.on_download_updated "d1" "progressing" "/tmp/file.bin" 100 100
    (Main.on_will_download "d1" "file.bin" "/tmp/file.bin" 100 1700000000000
       (boot (Some empty_conn))).

(** *** Regular expressions and the new-tab route *)

(** The strings a pattern denotes. *)
Inductive lang : Regex.re → list ascii → Prop :=
| lang_eps : lang Regex.Eps []
| lang_class p a : p a = true → lang (Regex.Class p) [a]
| lang_cat r1 r2 s1 s2 :
    lang r1 s1 → lang r2 s2 → lang (Regex.Cat r1 r2) (s1 ++ s2)
| lang_alt_l r1 r2 s : lang r1 s → lang (Regex.Alt r1 r2) s
| lang_alt_r r1 r2 s : lang r2 s → lang (Regex.Alt r1 r2) s
| lang_star_nil r : lang (Regex.Star r) []
| lang_star_cons r s1 s2 :
    lang r s1 → lang (Regex.Star r) s2 → lang (Regex.Star r) (s1 ++ s2).


(** A main process showing one tab, with the given store. *)
Definition one_tab (d : option Conn) : App :=
  Main.createNewTab "t1" None (boot d).

(** [encodeURIComponent] on strings of unreserved characters, which it leaves
    as they are. *)
Definition encode_unreserved (q : string) : string := q.

(** *** More of the persistence gateway *)

(** The [AUTOINCREMENT] counter of the history table is no smaller than any
    id in the table. *)
Definition history_seq_bounds (c : Conn) : Prop :=
  Forall (λ r, h_id r ≤ history_seq c) (history c).

(** A store that holds the history of [example_visits]. *)
Definition visited_store : Conn :=
  with_history
    [ {| h_id := 1; h_url := example_address; h_title := "Example Domain";
         h_timestamp := 300; h_visit_count := 3; h_favicon := None |};
      {| h_id := 2; h_url := "https://other.net/"; h_title := "Other";
         h_timestamp := 150; h_visit_count := 1; h_favicon := None |} ]
    2 empty_conn.

(** [ORDER BY timestamp DESC] on what [getDownloads] returns *)
Definition listed_newer_first {F} (a b : Database.DownloadWithProgress F) : Prop :=
  Database.dp_timestamp b ≤ Database.dp_timestamp a.

(** A store that holds three downloads. *)
Definition three_downloads : Conn :=
  with_downloads
    [ {| d_id := "d1"; d_filename := "a.zip"; d_savePath := "/tmp/a.zip";
         d_totalBytes := 100; d_receivedBytes := 100; d_state := "completed";
         d_timestamp := 10 |};
      {| d_id := "d2"; d_filename := "b.zip"; d_savePath := "/tmp/b.zip";
         d_totalBytes := 0; d_receivedBytes := 40; d_state := "downloading";
         d_timestamp := 30 |};
      {| d_id := "d3"; d_filename := "c.zip"; d_savePath := "/tmp/c.zip";
         d_totalBytes := 100; d_receivedBytes := 10; d_state := "failed";
         d_timestamp := 20 |} ]
    empty_conn.

(** [(r / t) * 100] on integers, rounded down, for the examples. *)
Definition whole_percent (r t : Z) : Z := r * 100 / t.




(** A store whose bookmarks table holds two bookmarks and a separator row
    without address. *)
Definition three_bookmarks : Conn :=
  with_bookmarks
    [ {| b_id := "b1"; b_url := Some "https://example.org/"; b_title := "Example Domain";
         b_favicon := None; b_folder_id := None; b_position := 1;
         b_created_at := 5; b_updated_at := 5 |};
      {| b_id := "b2"; b_url := None; b_title := "separator";
         b_favicon := None; b_folder_id := None; b_position := 2;
         b_created_at := 6; b_updated_at := 6 |};
      {| b_id := "b3"; b_url := Some "https://rocq-prover.org/"; b_title := "Rocq";
         b_favicon := None; b_folder_id := Some "work"; b_position := 0;
         b_created_at := 7; b_updated_at := 7 |} ]
    empty_conn.




(** The bookmark [addBookmark] returns, and the store it leaves, when the
    folder id is the empty string. *)
Definition hidden_bookmark : Bookmark :=
  {| bm_id := "b9"; bm_url := "https://example.org/"; bm_title := "Example";
     bm_favicon := None; bm_folder_id := Some EmptyString; bm_position := 0;
     bm_created_at := 1700000000000; bm_updated_at := 1700000000000 |}.

Definition hidden_bookmark_store : Conn :=
  with_bookmarks
    [ {| b_id := "b9"; b_url := Some "https://example.org/"; b_title := "Example";
         b_favicon := None; b_folder_id := Some EmptyString; b_position := 0;
         b_created_at := 1700000000; b_updated_at := 1700000000 |} ]
    empty_conn.

(** *** More of the command surface *)

(** The reply of a command, without the state. *)
Definition reply_of {A} (r : Main.Reply A * App) : Main.Reply A := r.1.

(** A main process whose store holds [three_bookmarks]. *)
Definition with_three_bookmarks : App := boot (Some three_bookmarks).

(** The row ['bookmark:add'] inserts for its arguments. *)
Definition row_of_bookmark_add (url title favicon : string) (folderId : option string)
    (position now : Z) : BookmarkRow :=
  {| b_id := url; b_url := Some title; b_title := favicon; b_favicon := folderId;
     b_folder_id := None; b_position := position;
     b_created_at := now / 1000; b_updated_at := now / 1000 |}.

(** *** The books of the tab coordinator *)

(** What the main process reacts to: the commands of the renderer and the
    events of the views of its tabs. *)
Inductive Event :=
| Invoke (cmd : Main.Command)
| TabSwitch (id : string)
| TabClose (id uuid : string)
| FindBarVisibility (visible : bool)
| DidFinishLoad (id title url : string) (now : Z)
| DidNavigate (id url : string)
| PageTitleUpdated (id title : string)
| PageFaviconUpdated (id currentUrl : string) (favicons : list string).

Definition handle (new_URL : string → option Main.Url) (s : App) (e : Event) : App :=
  match e with
  | Invoke cmd => Main.step s cmd
  | TabSwitch id => Main.tab_switch id s
  | TabClose id uuid => Main.tab_close id uuid s
  | FindBarVisibility visible => Main.find_bar_visibility visible s
  | DidFinishLoad id title url now => (Main.on_did_finish_load id title url now s).2
  | DidNavigate id url => (Main.on_did_navigate id url s).2
  | PageTitleUpdated id title => (Main.on_page_title_updated id title s).2
  | PageFaviconUpdated id currentUrl favicons =>
      (Main.on_page_favicon_updated new_URL id currentUrl favicons s).2
  end.

Definition handle_all (new_URL : string → option Main.Url) (events : list Event)
    (s : App) : App :=
  foldl (handle new_URL) s events.

(** The three maps of the coordinator agree: no id is open twice, a tab has
    an entry in [tabInfo] exactly when it is open, and only open tabs have a
    find bar state. *)
Definition books_agree (s : App) : Prop :=
  NoDup (open_tab_ids s) ∧
  (∀ id, is_Some (tabInfo s !! id) ↔ id ∈ open_tab_ids s) ∧
  (∀ id, is_Some (tabFindBarStates s !! id) → id ∈ open_tab_ids s).

(** No tab has been opened yet, or the active id names an open tab. *)
Definition settled (s : App) : Prop :=
  (tabs s = [] ∧ activeTabId s = None) ∨ active_tab_open s.

(** *** Sessions *)

(** A main process with two tabs, the second one active, and an empty
    store. *)
Definition two_tabs : App :=
  Main.run [Main.NewTab "t1" None; Main.NewTab "t2" (Some "https://example.org/")]
    (boot (Some empty_conn)).




(** *** The listeners of a tab and the favicon *)

(** An address of a favicon that [resolveFaviconUrl] resolves against the
    path of the page. *)
Definition relative_favicon (faviconUrl : string) : Prop :=
  Js.startsWith faviconUrl "http://" = false ∧
  Js.startsWith faviconUrl "https://" = false ∧
  Js.startsWith faviconUrl "data:" = false ∧
  Js.startsWith faviconUrl "/" = false.

(** A parser for the examples: every address is a page of [example.org]
    directly under the root. *)
Definition example_URL (s : string) : option Main.Url :=
  Some {| Main.protocol := "https:"; Main.host := "example.org";
          Main.pathname := "/index.html" |}.

(** *** Patterns on code units *)

(** The lists of code units a pattern denotes. *)
Inductive lang16 : Regex16.re → list N → Prop :=
| lang16_eps : lang16 Regex16.Eps []
| lang16_class p a : p a = true → lang16 (Regex16.Class p) [a]
| lang16_cat r1 r2 s1 s2 :
    lang16 r1 s1 → lang16 r2 s2 → lang16 (Regex16.Cat r1 r2) (s1 ++ s2)
| lang16_alt_l r1 r2 s : lang16 r1 s → lang16 (Regex16.Alt r1 r2) s
| lang16_alt_r r1 r2 s : lang16 r2 s → lang16 (Regex16.Alt r1 r2) s
| lang16_star_nil r : lang16 (Regex16.Star r) []
| lang16_star_cons r s1 s2 :
    lang16 r s1 → lang16 (Regex16.Star r) s2 → lang16 (Regex16.Star r) (s1 ++ s2).


(** * Properties *)

(** ** Browsing history *)

Section HistoryFacts.

Lemma find_head_filter {A} (p : A → bool) (l : list A) :
  List.find p l = head (List.filter p l).
Proof. induction l as [|x l IH]; simpl; [done|]. by destruct (p x). Qed.

Lemma filter_map_commute {A} (p : A → bool) (g : A → A) (l : list A) :
  (∀ x, p (g x) = p x) →
  List.filter p (map g l) = map g (List.filter p l).
Proof.
  intros Hg. induction l as [|x l IH]; simpl; [done|].
  rewrite Hg. destruct (p x); simpl; by rewrite IH.
Qed.

Lemma next_history_id_fresh c r :
  r ∈ history c → h_id r < Database.next_history_id c.
Proof.
  unfold Database.next_history_id. generalize (history_seq c).
  induction (history c) as [|x l IH]; intros z Hin; simpl.
  - by apply elem_of_nil in Hin.
  - apply elem_of_cons in Hin as [->|Hin]; [lia|].
    specialize (IH z Hin). lia.
Qed.

Lemma unique_key_row l (r1 r2 : HistoryRow) :
  NoDup (h_id <$> l) → r1 ∈ l → r2 ∈ l → h_id r1 = h_id r2 → r1 = r2.
Proof.
  induction l as [|x l IH]; simpl; intros Hnd H1 H2 Heq.
  - by apply elem_of_nil in H1.
  - apply NoDup_cons in Hnd as [Hx Hnd].
    apply elem_of_cons in H1 as [->|H1]; apply elem_of_cons in H2 as [->|H2]; auto.
    + exfalso. apply Hx. rewrite Heq. by apply list_elem_of_fmap_2.
    + exfalso. apply Hx. rewrite <- Heq. by apply list_elem_of_fmap_2.
Qed.

Lemma record_visit_internal db v :
  Js.startsWith (v_url v) "hera://" = true → record_visit db v = db.
Proof.
  intros H. unfold record_visit, Database.addHistoryEntry, Database.opened.
  destruct db as [c|]; [|done]. by rewrite H.
Qed.

Lemma record_visit_external c v :
  writes_left c = None →
  Js.startsWith (v_url v) "hera://" = false →
  ∃ c', record_visit (Some c) v = Some c' ∧ writes_left c' = None ∧
        history c' =
          match Database.select_history_by_url (v_url v) c with
          | Some row =>
              map (λ r, if Z.eqb (h_id r) (h_id row)
                        then Database.visit_again (v_now v) (v_title v) (v_favicon v) r
                        else r) (history c)
          | None =>
              (history c ++
                [{| h_id := Database.next_history_id c; h_url := v_url v;
                    h_title := v_title v; h_timestamp := v_now v;
                    h_visit_count := 1; h_favicon := v_favicon v |}])%list
          end.
Proof.
  intros Hw Hext.
  unfold record_visit, Database.addHistoryEntry, Database.opened.
  rewrite Hext.
  unfold Sqlite.try_catch, Sqlite.bind, Sqlite.query, Sqlite.run, Sqlite.ret.
  destruct (Database.select_history_by_url (v_url v) c) as [row|];
    rewrite Hw; simpl; eexists; (split; [reflexivity|]); simpl; done.
Qed.

Lemma visits_to_snoc A seen v :
  visits_to A (seen ++ [v]) =
    (visits_to A seen ++ (if String.eqb (v_url v) A then [v] else []))%list.
Proof. unfold visits_to. rewrite List.filter_app. simpl. by destruct (String.eqb _ _). Qed.

Lemma record_visit_tracks A seen c v :
  writes_left c = None → history_keys_unique c →
  Js.startsWith A "hera://" = false →
  tracks A seen c →
  ∃ c', record_visit (Some c) v = Some c' ∧ writes_left c' = None ∧
        history_keys_unique c' ∧ tracks A (seen ++ [v]) c'.
Proof.
  intros Hw Hnd HA Htr.
  destruct (Js.startsWith (v_url v) "hera://") eqn:Hint.
  { exists c. rewrite record_visit_internal by done.
    repeat split; try done. unfold tracks in *. rewrite visits_to_snoc.
    destruct (String.eqb_spec (v_url v) A) as [HvA|_]; [congruence|].
    by rewrite app_nil_r. }
  destruct (record_visit_external c v Hw Hint) as (c' & Hc' & Hw' & Hh).
  exists c'. split; [done|]. split; [done|].
  assert (Hfind : Database.select_history_by_url (v_url v) c
                  = head (rows_for (v_url v) c)) by apply find_head_filter.
  assert (Hurl : ∀ row x,
             String.eqb (h_url (if Z.eqb (h_id x) (h_id row)
                 then Database.visit_again (v_now v) (v_title v) (v_favicon v) x
                 else x)) A = String.eqb (h_url x) A).
  { intros row x. by destruct (Z.eqb _ _). }
  split.
  - (* primary key *)
    unfold history_keys_unique in *. rewrite Hh.
    destruct (Database.select_history_by_url (v_url v) c) as [row|] eqn:Hsel.
    + rewrite <- list_fmap_compose.
      erewrite list_fmap_ext; [exact Hnd|].
      intros i x _. simpl. by destruct (Z.eqb _ _).
    + rewrite fmap_app. simpl. apply NoDup_app. split; [done|]. split.
      * intros i Hi Hi'. apply list_elem_of_singleton in Hi'. subst i.
        apply list_elem_of_fmap in Hi as (r & Hr & Hin).
        apply next_history_id_fresh in Hin. lia.
      * apply NoDup_singleton.
  - (* the row of A *)
    unfold tracks in *. rewrite visits_to_snoc.
    destruct (String.eqb_spec (v_url v) A) as [HvA|HvA].
    + (* a visit to A *)
      rewrite last_snoc, length_app. simpl.
      unfold rows_for in *. rewrite Hh, Hfind. rewrite HvA in *. clear Hfind.
      destruct (last (visits_to A seen)) as [w|] eqn:Hlast.
      * destruct Htr as (r & Hr & Hcnt & _ & _). unfold rows_for in Hr. rewrite Hr. simpl.
        rewrite filter_map_commute by apply Hurl. rewrite Hr. simpl.
        rewrite Z.eqb_refl. eexists. split; [reflexivity|]. simpl.
        split; [lia|done].
      * apply last_None in Hlast. rewrite Hlast.
        unfold rows_for in Htr. rewrite Htr. simpl.
        rewrite List.filter_app, Htr. simpl. rewrite String.eqb_refl.
        eexists. split; [reflexivity|]. simpl. done.
    + (* a visit to another address *)
      rewrite app_nil_r. unfold rows_for in *. rewrite Hh.
      destruct (Database.select_history_by_url (v_url v) c) as [row|] eqn:Hsel.
      * rewrite filter_map_commute by apply Hurl.
        assert (Hrow : row ∈ history c ∧ h_url row = v_url v).
        { unfold Database.select_history_by_url in Hsel.
          apply List.find_some in Hsel as [Hin Hu].
          apply String.eqb_eq in Hu. split; [by apply list_elem_of_In|done]. }
        destruct Hrow as [Hrin Hru].
        assert (Hsame : map (λ r, if Z.eqb (h_id r) (h_id row)
                   then Database.visit_again (v_now v) (v_title v) (v_favicon v) r
                   else r) (List.filter (λ r, String.eqb (h_url r) A) (history c))
                 = List.filter (λ r, String.eqb (h_url r) A) (history c)).
        { rewrite <- (map_id (List.filter _ (history c))) at 2.
          apply map_ext_in. intros x Hx. apply List.filter_In in Hx as [Hx HxA].
          destruct (Z.eqb_spec (h_id x) (h_id row)) as [Hid|]; [|done].
          exfalso. apply String.eqb_eq in HxA.
          assert (x = row) by (eapply unique_key_row; eauto; by apply list_elem_of_In).
          subst x. congruence. }
        rewrite Hsame. done.
      * rewrite List.filter_app. simpl.
        destruct (String.eqb_spec (v_url v) A); [done|]. by rewrite app_nil_r.
Qed.

Lemma record_visits_tracks A vs : ∀ c,
  writes_left c = None → history_keys_unique c →
  Js.startsWith A "hera://" = false →
  rows_for A c = [] →
  ∃ c', record_visits vs (Some c) = Some c' ∧ writes_left c' = None ∧
        history_keys_unique c' ∧ tracks A vs c'.
Proof.
  induction vs as [|v vs IH] using rev_ind; intros c Hw Hnd HA H0.
  - exists c. by repeat split.
  - destruct (IH c Hw Hnd HA H0) as (c1 & Hrun & Hw1 & Hnd1 & Htr1).
    destruct (record_visit_tracks A vs c1 v Hw1 Hnd1 HA Htr1) as (c2 & Hstep & ? & ? & ?).
    exists c2. split; [|done].
    unfold record_visits in *. by rewrite foldl_app, Hrun.
Qed.

End HistoryFacts.

(** C4. On a store that accepts its writes and holds no row for an address
    [A] outside the [hera://] scheme, any sequence of [addHistoryEntry] calls
    that visits [A] at least once leaves exactly one row whose url is [A]; its
    [visit_count] is the number of visits to [A], and its [timestamp] and
    [title] are those of the last visit to [A].  A call for an address under
    [hera://] leaves the store as it was. *)
Theorem addHistoryEntry_one_row_per_address
    (c : Conn) (A : string) (vs : list Visit) (v : Visit) :
  writes_left c = None →
  history_keys_unique c →
  Js.startsWith A "hera://" = false →
  rows_for A c = [] →
  last (visits_to A vs) = Some v →
  (∃ c' r, record_visits vs (Some c) = Some c' ∧
           rows_for A c' = [r] ∧
           h_visit_count r = Z.of_nat (length (visits_to A vs)) ∧
           h_timestamp r = v_now v ∧ h_title r = v_title v)
  ∧ (∀ db rest title favicon now,
       (Database.addHistoryEntry ("hera://" +:+ rest) title favicon now db).2 = db).
Proof.
  intros Hw Hnd HA H0 Hlast. split.
  - destruct (record_visits_tracks A vs c Hw Hnd HA H0) as (c' & Hrun & _ & _ & Htr).
    unfold tracks in Htr. rewrite Hlast in Htr. destruct Htr as (r & ?).
    exists c', r. by split.
  - intros db rest title favicon now.
    unfold Database.addHistoryEntry, Database.opened.
    destruct db as [c0|]; [|done].
    assert (Js.startsWith ("hera://" +:+ rest) "hera://" = true) as ->; [|done].
    unfold Js.startsWith. simpl. by destruct rest.
Qed.

Lemma addHistoryEntry_one_row_per_address_witness :
  (writes_left empty_conn = None ∧
   history_keys_unique empty_conn ∧
   Js.startsWith example_address "hera://" = false ∧
   rows_for example_address empty_conn = [] ∧
   last (visits_to example_address example_visits)
     = Some {| v_url := example_address; v_title := "Example Domain";
               v_favicon := None; v_now := 300 |})
  ∧ ∃ c' r, record_visits example_visits (Some empty_conn) = Some c' ∧
            rows_for example_address c' = [r] ∧ h_visit_count r = 3 ∧
            h_timestamp r = 300 ∧ h_title r = "Example Domain".
Proof.
  assert (H1 : writes_left empty_conn = None) by reflexivity.
  assert (H2 : history_keys_unique empty_conn) by apply NoDup_nil_2.
  assert (H3 : Js.startsWith example_address "hera://" = false) by reflexivity.
  assert (H4 : rows_for example_address empty_conn = []) by reflexivity.
  assert (H5 : last (visits_to example_address example_visits)
               = Some {| v_url := example_address; v_title := "Example Domain";
                         v_favicon := None; v_now := 300 |}) by reflexivity.
  split; [by repeat split|].
  exact (proj1 (addHistoryEntry_one_row_per_address _ _ _ _ H1 H2 H3 H4 H5)).
Defined.

#[global] Instance newer_first_transitive : Transitive newer_first.
Proof. unfold newer_first. intros a b c ??. lia. Qed.

#[global] Instance newer_first_total : Total newer_first.
Proof. unfold newer_first. intros a b. lia. Qed.

(** Every row of the table gives an entry that passes the guard. *)
Lemma validateHistoryEntries_rows (rows : list HistoryRow) :
  Guards.validateHistoryEntries (Database.history_entry_of_row <$> rows)
  = Database.history_entry_of_row <$> rows.
Proof.
  unfold Guards.validateHistoryEntries.
  induction rows as [|r rows IH]; [done|].
  rewrite fmap_cons. cbn [List.filter].
  assert (Guards.isHistoryEntry (Database.history_entry_of_row r) = true) as -> by done.
  by rewrite IH.
Qed.

Lemma StronglySorted_fmap_2 {A B} (R : relation A) (S : relation B) (f : A → B)
    (l : list A) :
  (∀ a b, R a b → S (f a) (f b)) →
  StronglySorted R l → StronglySorted S (f <$> l).
Proof.
  intros Hf. induction 1 as [|x l Hs IH Hall]; [constructor|].
  rewrite fmap_cons. constructor; [done|].
  rewrite Forall_fmap. eapply Forall_impl; [exact Hall|]. intros y Hy. by apply Hf.
Qed.

(** The entry [getHistory] makes of a row shows that row. *)
Lemma history_entry_shows_row (rows : list HistoryRow) :
  Forall2 entry_shows_row (Database.history_entry_of_row <$> rows) rows.
Proof.
  induction rows as [|r rows IH]; [constructor|].
  rewrite fmap_cons. constructor; [|exact IH].
  unfold entry_shows_row, Database.history_entry_of_row, Js.or_undefined. cbn.
  repeat split. destruct (h_favicon r) as [f|]; [|done]. by destruct (String.eqb f EmptyString).
Qed.

(** C10. Whatever the history table of an open database holds, [getHistory]
    returns normally, and the list it returns has at most 1000 entries
    (exactly 1000 when the table holds more).  The entries returned are
    ordered by their own timestamps, most recent first; each shows the id,
    address, title, timestamp, visit count and favicon of one row of the
    table, each row being shown at most once; and every row that is shown by
    no entry has a timestamp no later than the timestamp of any entry
    returned. *)
Theorem getHistory_thousand_most_recent (c : Conn) :
  ∃ (result : list HistoryEntry) (kept omitted : list HistoryRow),
    Database.getHistory (Some c) = (Returned result, Some c) ∧
    (length result ≤ 1000)%nat ∧
    length result = (1000 `min` length (history c))%nat ∧
    StronglySorted entry_newer_first result ∧
    Forall2 entry_shows_row result kept ∧
    (kept ++ omitted)%list ≡ₚ history c ∧
    (∀ e o, e ∈ result → o ∈ omitted →
            ∃ t, he_timestamp e = VNumber t ∧ h_timestamp o ≤ t).
Proof.
  set (sorted := merge_sort newer_first (history c)).
  assert (Hperm : sorted ≡ₚ history c) by apply merge_sort_Permutation.
  assert (Hsorted : StronglySorted newer_first sorted)
    by (apply StronglySorted_merge_sort; apply _).
  exists (Database.history_entry_of_row <$> take 1000 sorted),
         (take 1000 sorted), (drop 1000 sorted).
  rewrite <- (take_drop 1000 sorted) in Hsorted.
  assert (Hlen : length (Database.history_entry_of_row <$> take 1000 sorted)
                 = (1000 `min` length (history c))%nat).
  { rewrite length_fmap, length_take. by rewrite (Permutation_length Hperm). }
  split; [|split; [|split; [|split; [|split; [|split]]]]].
  - unfold Database.getHistory, Database.opened, Sqlite.try_catch, Sqlite.bind,
      Sqlite.query, Sqlite.ret, Database.select_recent_history. simpl.
    by rewrite validateHistoryEntries_rows.
  - rewrite Hlen. lia.
  - exact Hlen.
  - apply (StronglySorted_fmap_2 newer_first).
    + intros a b Hab. exists (h_timestamp a), (h_timestamp b). by repeat split.
    + by apply StronglySorted_app_1_l in Hsorted.
  - apply history_entry_shows_row.
  - by rewrite take_drop.
  - intros e o He Ho. apply list_elem_of_fmap in He as (k & -> & Hk).
    exists (h_timestamp k). split; [done|].
    exact (StronglySorted_app_1_elem_of _ _ _ _ _ Hsorted Hk Ho).
Qed.


(** ** Bookmarks *)

Section BookmarkFacts.

Lemma folder_is_eq a b : Database.folder_is a b = true ↔ a = b.
Proof.
  destruct a as [x|], b as [y|]; simpl; split; try done.
  - intros H. apply String.eqb_eq in H. by subst.
  - intros [= ->]. apply String.eqb_refl.
Qed.

Lemma contiguous_unique c : positions_contiguous c → positions_unique c.
Proof.
  intros H g. rewrite (H g).
  apply NoDup_fmap_2; [apply Nat2Z.inj'|apply NoDup_seq].
Qed.

(** A successful [addBookmark] appends one row; a failed one changes
    nothing. *)
Lemma addBookmark_store c id url title favicon folderId now :
  ∃ c', (Database.addBookmark id url title favicon folderId now (Some c)).2 = Some c' ∧
        (bookmarks c' = bookmarks c ∨
         ∃ created updated,
           bookmarks c' =
             (bookmarks c ++
                [{| b_id := id; b_url := Some url; b_title := title;
                    b_favicon := favicon; b_folder_id := folderId;
                    b_position := Database.count_bookmarks (Js.or_undefined folderId) c;
                    b_created_at := created; b_updated_at := updated |}])%list).
Proof.
  unfold Database.addBookmark, Database.opened, Sqlite.try_catch, Sqlite.bind,
    Sqlite.query, Sqlite.run, Sqlite.ret, Sqlite.throw, Database.insert_bookmark.
  destruct (writes_left c) as [[|n]|]; simpl;
    try match goal with
        | |- context [existsb ?p ?l] => destruct (existsb p l)
        end;
    simpl; eexists; (split; [reflexivity|]); simpl; eauto.
Qed.

Lemma addBookmark_contiguous c id url title favicon folderId now :
  folderId ≠ Some EmptyString → positions_contiguous c →
  ∃ c', (Database.addBookmark id url title favicon folderId now (Some c)).2 = Some c' ∧
        positions_contiguous c'.
Proof.
  intros Hf Hc.
  destruct (addBookmark_store c id url title favicon folderId now)
    as (c' & Hrun & [Hsame | (cr & up & Hnew)]); exists c'; (split; [done|]).
  - intros g. unfold sibling_positions in *. rewrite Hsame. apply Hc.
  - intros g. specialize (Hc g). unfold sibling_positions in *. rewrite Hnew.
    rewrite List.filter_app. simpl.
    destruct (Database.folder_is folderId g) eqn:Hg; [|by rewrite app_nil_r].
    apply folder_is_eq in Hg. subst g.
    rewrite fmap_app, length_app. simpl.
    rewrite Nat.add_1_r, seq_S, fmap_app. simpl.
    apply Permutation_app; [done|].
    assert (Js.or_undefined folderId = folderId) as ->.
    { destruct folderId as [f|]; [|done]. simpl.
      destruct (String.eqb_spec f EmptyString); [congruence|done]. }
    unfold Database.count_bookmarks. by rewrite length_fmap.
Qed.

Lemma removeBookmark_unique c id :
  positions_unique c →
  ∃ c', (Database.removeBookmark id (Some c)).2 = Some c' ∧ positions_unique c'.
Proof.
  intros Hu.
  assert (Hkeep : ∀ g,
    NoDup (b_position <$>
             List.filter (λ r, Database.folder_is (b_folder_id r) g)
               (List.filter (λ r, negb (String.eqb (b_id r) id)) (bookmarks c)))).
  { intros g. specialize (Hu g). unfold sibling_positions in Hu.
    induction (bookmarks c) as [|r l IH]; simpl in *; [constructor|].
    destruct (Database.folder_is (b_folder_id r) g) eqn:Hg; simpl in Hu.
    - apply NoDup_cons in Hu as [Hr Hl].
      destruct (String.eqb (b_id r) id); simpl; [by apply IH|].
      rewrite Hg. simpl. apply NoDup_cons. split; [|by apply IH].
      intros Hin. apply Hr.
      apply list_elem_of_fmap in Hin as (x & Hx & Hin).
      apply list_elem_of_fmap. exists x. split; [done|].
      apply list_elem_of_In, List.filter_In in Hin as [Hin Hxg].
      apply List.filter_In in Hin as [Hin _].
      apply list_elem_of_In, List.filter_In. done.
    - destruct (String.eqb (b_id r) id); simpl; [by apply IH|].
      rewrite Hg. by apply IH. }
  unfold Database.removeBookmark, Database.opened, Sqlite.try_catch, Sqlite.bind,
    Sqlite.run, Sqlite.ret, Database.delete_bookmark.
  destruct (writes_left c) as [[|n]|]; simpl; eexists; (split; [reflexivity|]);
    intros g; unfold sibling_positions; simpl; auto; apply Hu.
Qed.

End BookmarkFacts.

(** C5, as the code has it.  Starting from a store whose sibling groups are
    numbered 0, 1, ..., k-1 (the empty store is one), after any sequence of
    [addBookmark] calls whose folder is absent or has a non-empty id, the
    positions within every sibling group are again 0, 1, ..., k-1, hence
    pairwise different.  A [removeBookmark] keeps the positions of a sibling
    group pairwise different; it does not renumber them. *)
Theorem addBookmark_positions_contiguous (c : Conn) (ops : list BookmarkOp) :
  positions_contiguous c →
  Forall plain_add ops →
  (∃ c', run_bookmark_ops ops (Some c) = Some c' ∧
         positions_contiguous c' ∧ positions_unique c')
  ∧ (∀ d id, positions_unique d →
       ∃ d', (Database.removeBookmark id (Some d)).2 = Some d' ∧ positions_unique d').
Proof.
  intros Hc Hops. split; [|intros d id; apply removeBookmark_unique].
  revert c Hc. induction Hops as [|op ops Hop _ IH]; intros c Hc.
  - exists c. split; [done|]. split; [done|]. by apply contiguous_unique.
  - destruct op as [id url title favicon folderId now|id]; [|done].
    destruct (addBookmark_contiguous c id url title favicon folderId now Hop Hc)
      as (c1 & Hstep & Hc1).
    destruct (IH c1 Hc1) as (c' & Hrun & ?).
    exists c'. split; [|done].
    change (run_bookmark_ops ops
              (Database.addBookmark id url title favicon folderId now (Some c)).2
            = Some c').
    by rewrite Hstep.
Qed.

Lemma addBookmark_positions_contiguous_witness :
  (positions_contiguous empty_conn ∧ Forall plain_add example_bookmark_adds)
  ∧ ∃ c', run_bookmark_ops example_bookmark_adds (Some empty_conn) = Some c' ∧
          positions_contiguous c' ∧ positions_unique c'.
Proof.
  assert (H1 : positions_contiguous empty_conn) by (intros g; reflexivity).
  assert (H2 : Forall plain_add example_bookmark_adds)
    by (repeat constructor; simpl; congruence).
  split; [by split|].
  exact (proj1 (addBookmark_positions_contiguous _ _ H1 H2)).
Defined.

(** C5, as stated, fails: after adding [a] and [b], removing [a] and adding
    [c], the root group holds [b] and [c] at the same position 1. *)
Lemma bookmark_positions_collide_after_removal :
  ∃ c', run_bookmark_ops example_bookmark_ops (Some empty_conn) = Some c' ∧
        sibling_positions None c' = [1; 1] ∧
        ¬ positions_unique c'.
Proof.
  eexists. split; [reflexivity|]. split; [reflexivity|].
  intros H. specialize (H None). apply NoDup_cons in H as [H _].
  apply H. by left.
Qed.


(** ** Saved tabs *)

#[global] Instance position_asc_transitive : Transitive position_asc.
Proof. unfold position_asc. intros a b c ??. lia. Qed.

#[global] Instance position_asc_total : Total position_asc.
Proof. unfold position_asc. intros a b. lia. Qed.

Section SavedTabsFacts.

Lemma restored_of_row tab :
  Database.tab_state_of_row (Database.open_tab_row tab) = as_restored tab.
Proof. unfold Database.tab_state_of_row, as_restored. simpl. by destruct (ts_active tab). Qed.

(** Inserting snapshots with fresh, distinct ids appends their rows. *)
Lemma insert_many_rows tabs : ∀ c,
  writes_left c = None →
  NoDup (ts_id <$> tabs) →
  (∀ r t, r ∈ open_tabs c → t ∈ tabs → t_id r ≠ ts_id t) →
  Sqlite.for_each tabs
    (λ tab, Sqlite.run (Database.insert_open_tab tab) >>> Sqlite.ret tt) c
  = (Returned tt,
     with_writes_left None
       (with_open_tabs (open_tabs c ++ (Database.open_tab_row <$> tabs)) c)).
Proof.
  induction tabs as [|tab tabs IH]; intros c Hw Hnd Hfresh.
  - simpl. unfold Sqlite.ret. rewrite app_nil_r. destruct c; simpl in *. by subst.
  - apply NoDup_cons in Hnd as [Hhd Hnd]. simpl.
    unfold Sqlite.bind at 1. unfold Sqlite.bind at 1.
    unfold Sqlite.run, Database.insert_open_tab. rewrite Hw.
    assert (existsb (λ r, String.eqb (t_id r) (ts_id tab)) (open_tabs c) = false) as ->.
    { apply not_true_is_false. intros H. apply existsb_exists in H as (r & Hin & Heq).
      apply String.eqb_eq in Heq. eapply Hfresh; [by apply list_elem_of_In| |done]. by left. }
    simpl. unfold Sqlite.ret at 1. rewrite IH; simpl; [|done|done|].
    + by rewrite <- app_assoc.
    + intros r t Hr Ht. apply elem_of_app in Hr as [Hr|Hr].
      * apply Hfresh; [done|by right].
      * apply list_elem_of_singleton in Hr. subst r. simpl. intros Heq.
        apply Hhd. rewrite Heq. by apply list_elem_of_fmap_2.
Qed.

Lemma saveTabsState_rows c tabs :
  writes_left c = None →
  NoDup (ts_id <$> tabs) →
  Database.saveTabsState tabs (Some c)
  = (Returned tt,
     Some (with_writes_left None (with_open_tabs (Database.open_tab_row <$> tabs) c))).
Proof.
  intros Hw Hnd.
  unfold Database.saveTabsState, Database.opened, Sqlite.try_catch.
  unfold Sqlite.bind at 1. unfold Sqlite.run at 1. rewrite Hw. simpl.
  unfold Sqlite.bind at 1. unfold Sqlite.transaction.
  rewrite insert_many_rows; simpl; [done|done|done|].
  intros r t Hr. by apply elem_of_nil in Hr.
Qed.

Lemma filter_length_Permutation {A} (p : A → bool) (l1 l2 : list A) :
  l1 ≡ₚ l2 → length (List.filter p l1) = length (List.filter p l2).
Proof.
  induction 1 as [|x l1 l2 _ IH|x y l|l1 l2 l3 _ IH1 _ IH2]; simpl.
  - done.
  - destruct (p x); simpl; by rewrite IH.
  - by destruct (p x), (p y).
  - by rewrite IH1.
Qed.

Lemma active_count_restored tabs :
  length (List.filter ts_active (as_restored <$> tabs))
  = length (List.filter ts_active tabs).
Proof.
  induction tabs as [|t tabs IH]; [done|].
  rewrite fmap_cons. cbn [List.filter].
  change (ts_active (as_restored t)) with (ts_active t).
  destruct (ts_active t); cbn [length]; by rewrite IH.
Qed.

Lemma sorted_positions rows :
  StronglySorted position_asc rows → StronglySorted Z.le (t_position <$> rows).
Proof.
  induction 1 as [|r rows _ IH Hall]; simpl; constructor; [done|].
  apply Forall_fmap. eapply Forall_impl; [exact Hall|]. done.
Qed.

Lemma sorted_upto n : StronglySorted Z.le (Z.of_nat <$> seq 0 n).
Proof.
  generalize 0%nat. induction n as [|n IH]; intros start; simpl; constructor; [apply IH|].
  apply Forall_fmap, Forall_forall. intros k Hk. apply elem_of_seq in Hk. simpl. lia.
Qed.

End SavedTabsFacts.

(** C7. On a store that accepts its writes, saving a list of snapshots with
    distinct ids, positions 0..n-1 in any order and one active snapshot, then
    reading the saved tabs, gives back the same snapshots (an empty favicon
    reading as absent), hence the same ids, addresses, titles and active
    flags, ordered by position 0, 1, ..., n-1, with one active snapshot. *)
Theorem saveTabsState_getTabsState_roundtrip (c : Conn) (tabs : list TabState) :
  writes_left c = None →
  NoDup (ts_id <$> tabs) →
  ts_position <$> tabs ≡ₚ Z.of_nat <$> seq 0 (length tabs) →
  length (List.filter ts_active tabs) = 1%nat →
  ∃ c' restored,
    Database.saveTabsState tabs (Some c) = (Returned tt, Some c') ∧
    Database.getTabsState (Some c') = (Returned restored, Some c') ∧
    restored ≡ₚ as_restored <$> tabs ∧
    ts_position <$> restored = Z.of_nat <$> seq 0 (length tabs) ∧
    length (List.filter ts_active restored) = 1%nat.
Proof.
  intros Hw Hnd Hpos Hact.
  set (rows := Database.open_tab_row <$> tabs).
  exists (with_writes_left None (with_open_tabs rows c)),
         (Database.tab_state_of_row <$> merge_sort position_asc rows).
  assert (Hperm : Database.tab_state_of_row <$> merge_sort position_asc rows
                  ≡ₚ as_restored <$> tabs).
  { rewrite merge_sort_Permutation. unfold rows. rewrite <- list_fmap_compose.
    erewrite list_fmap_ext; [reflexivity|]. intros i t _. apply restored_of_row. }
  split; [by apply saveTabsState_rows|].
  split; [reflexivity|]. split; [exact Hperm|]. split.
  - rewrite <- list_fmap_compose.
    assert (Heq : (ts_position ∘ Database.tab_state_of_row <$> merge_sort position_asc rows)
                  = t_position <$> merge_sort position_asc rows)
      by (by apply list_fmap_ext).
    rewrite Heq.
    apply (StronglySorted_unique Z.le).
    + apply sorted_positions, StronglySorted_merge_sort; apply _.
    + apply sorted_upto.
    + rewrite merge_sort_Permutation. unfold rows. rewrite <- list_fmap_compose.
      rewrite <- Hpos.
      assert (Hcomp : (t_position ∘ Database.open_tab_row <$> tabs) = ts_position <$> tabs)
        by (by apply list_fmap_ext).
      by rewrite Hcomp.
  - rewrite (filter_length_Permutation ts_active _ _ Hperm).
    by rewrite active_count_restored.
Qed.

Lemma saveTabsState_getTabsState_roundtrip_witness :
  (writes_left earlier_session = None ∧
   NoDup (ts_id <$> example_tabs) ∧
   ts_position <$> example_tabs ≡ₚ Z.of_nat <$> seq 0 (length example_tabs) ∧
   length (List.filter ts_active example_tabs) = 1%nat)
  ∧ ∃ c' restored,
      Database.saveTabsState example_tabs (Some earlier_session) = (Returned tt, Some c') ∧
      Database.getTabsState (Some c') = (Returned restored, Some c') ∧
      restored ≡ₚ as_restored <$> example_tabs ∧
      ts_position <$> restored = Z.of_nat <$> seq 0 (length example_tabs) ∧
      length (List.filter ts_active restored) = 1%nat.
Proof.
  assert (H1 : writes_left earlier_session = None) by reflexivity.
  assert (H2 : NoDup (ts_id <$> example_tabs)).
  { apply NoDup_cons. split; [|apply NoDup_singleton].
    rewrite list_elem_of_singleton. discriminate. }
  assert (H3 : ts_position <$> example_tabs ≡ₚ Z.of_nat <$> seq 0 (length example_tabs))
    by apply perm_swap.
  assert (H4 : length (List.filter ts_active example_tabs) = 1%nat) by reflexivity.
  split; [by repeat split|].
  exact (saveTabsState_getTabsState_roundtrip _ _ H1 H2 H3 H4).
Defined.

(** C3. [saveTabsState] is not atomic: the [DELETE] runs before, and outside
    of, the transaction that inserts the new rows.  When an insert fails, the
    transaction undoes the inserts only, and the store is left with neither
    the earlier snapshot nor the new one.  Two failures show it: a snapshot
    list that repeats an id, and a disk that fills up after the [DELETE]. *)
Theorem saveTabsState_loses_prior_snapshot :
  Database.saveTabsState
    [example_tab "a" 0 true; example_tab "a" 1 false] (Some earlier_session)
  = (Thrown (SqliteError "SQLITE_CONSTRAINT_PRIMARYKEY"),
     Some (with_open_tabs [] earlier_session))
  ∧
  Database.saveTabsState
    [example_tab "a" 0 true; example_tab "b" 1 false]
    (Some (with_writes_left (Some 2%nat) earlier_session))
  = (Thrown (SqliteError "SQLITE_FULL"),
     Some (with_writes_left (Some 0%nat) (with_open_tabs [] earlier_session))).
Proof. split; reflexivity. Qed.


(** ** The command surface *)

Lemma set_db_same s : Main.set_db (db s) s = s.
Proof. by destruct s. Qed.

(** C8. ['settings:set'] reports success although the write failed: on a
    store that accepts no write, [setSetting] catches the failure and returns
    [false], the handler drops that value and resolves to [true], and the
    setting is unchanged.  ['history:clear'] on the same store rejects, and
    [addBookmark] throws. *)
Theorem settings_set_hides_write_failure
    (s : App) (c : Conn) (key value : string) :
  db s = Some c →
  writes_left c = Some 0%nat →
  Guards.isValidSettingKey key = true →
  Database.setSetting key value (Some c) = (Returned false, Some c)
  ∧ Main.settings_set key value s = (Main.Resolved true, s)
  ∧ Main.history_clear s = (Main.Rejected (SqliteError "SQLITE_FULL"), s)
  ∧ (∀ id url title favicon folderId now,
       Database.addBookmark id url title favicon folderId now (Some c)
       = (Thrown (SqliteError "SQLITE_FULL"), Some c)).
Proof.
  intros Hdb Hw Hkey.
  assert (Hset : Database.setSetting key value (Some c) = (Returned false, Some c)).
  { unfold Database.setSetting, Database.opened, Sqlite.try_catch, Sqlite.bind, Sqlite.run.
    by rewrite Hw. }
  split; [done|]. split; [|split].
  - unfold Main.settings_set. rewrite Hkey, Hdb, Hset. simpl.
    by rewrite <- Hdb, set_db_same.
  - unfold Main.history_clear, Database.clearHistory, Database.opened, Sqlite.try_catch,
      Sqlite.bind, Sqlite.run, Sqlite.throw.
    rewrite Hdb, Hw. simpl. by rewrite <- Hdb, set_db_same.
  - intros. unfold Database.addBookmark, Database.opened, Sqlite.try_catch, Sqlite.bind,
      Sqlite.run, Sqlite.query, Sqlite.throw.
    by rewrite Hw.
Qed.

Lemma settings_set_hides_write_failure_witness :
  (db (boot (Some full_disk)) = Some full_disk ∧
   writes_left full_disk = Some 0%nat ∧
   Guards.isValidSettingKey "searchEngine" = true)
  ∧ Main.settings_set "searchEngine" "brave" (boot (Some full_disk))
    = (Main.Resolved true, boot (Some full_disk)).
Proof.
  assert (H1 : db (boot (Some full_disk)) = Some full_disk) by reflexivity.
  assert (H2 : writes_left full_disk = Some 0%nat) by reflexivity.
  assert (H3 : Guards.isValidSettingKey "searchEngine" = true) by reflexivity.
  split; [by repeat split|].
  exact (proj1 (proj2 (settings_set_hides_write_failure _ _ _ "brave" H1 H2 H3))).
Defined.


(** ** The tab coordinator *)

Section JsMapFacts.

Context {V : Type}.
Implicit Types (m : list (string * V)) (k : string) (v : V).

Lemma has_keys m k : JsMap.has m k = true ↔ k ∈ JsMap.keys m.
Proof.
  unfold JsMap.has, JsMap.keys. rewrite existsb_exists, list_elem_of_fmap. split.
  - intros ([k' v] & Hin & Heq). apply String.eqb_eq in Heq. simpl in Heq. subst.
    exists (k, v). split; [done|]. by apply list_elem_of_In.
  - intros ([k' v] & -> & Hin). exists (k', v). split; [by apply list_elem_of_In|].
    apply String.eqb_refl.
Qed.

Lemma get_set m k v k' :
  JsMap.get (JsMap.set m k v) k' = if String.eqb k k' then Some v else JsMap.get m k'.
Proof.
  induction m as [|[k0 v0] m IH]; simpl.
  - by destruct (String.eqb k k').
  - destruct (String.eqb_spec k0 k) as [->|Hne]; simpl.
    + by destruct (String.eqb k k').
    + rewrite IH. destruct (String.eqb_spec k k') as [->|]; [|done].
      destruct (String.eqb_spec k0 k'); [congruence|done].
Qed.

Lemma has_get m k : JsMap.has m k = true ↔ is_Some (JsMap.get m k).
Proof.
  unfold JsMap.has. induction m as [|[k0 v0] m IH]; simpl.
  - split; [done|]. by intros [? ?].
  - destruct (String.eqb k0 k); simpl; [|done]. split; [by eexists|done].
Qed.

Lemma keys_set m k v :
  JsMap.keys (JsMap.set m k v)
  = if JsMap.has m k then JsMap.keys m else (JsMap.keys m ++ [k])%list.
Proof.
  unfold JsMap.has, JsMap.keys. induction m as [|[k0 v0] m IH]; simpl; [done|].
  destruct (String.eqb k0 k); simpl; [done|]. rewrite IH.
  by destruct (existsb _ m).
Qed.

Lemma keys_delete m k :
  JsMap.keys (JsMap.delete m k)
  = List.filter (λ k', negb (String.eqb k' k)) (JsMap.keys m).
Proof.
  unfold JsMap.delete, JsMap.keys. induction m as [|[k0 v0] m IH]; simpl; [done|].
  destruct (String.eqb k0 k); simpl; by rewrite IH.
Qed.

End JsMapFacts.
Section CoordinatorFacts.

Lemma stopFindInPage_frame id s :
  open_tab_ids (Main.stopFindInPage id s) = open_tab_ids s ∧
  (∀ k, wc_url <$> JsMap.get (tabs (Main.stopFindInPage id s)) k
        = wc_url <$> JsMap.get (tabs s) k).
Proof.
  unfold Main.stopFindInPage, open_tab_ids.
  destruct (JsMap.get (tabs s) id) as [v|] eqn:Hget; [|done]. simpl.
  split.
  - rewrite keys_set.
    assert (JsMap.has (tabs s) id = true) as -> by (apply has_get; by eexists). done.
  - intros k. rewrite get_set. destruct (String.eqb_spec id k) as [<-|]; [|done].
    by rewrite Hget.
Qed.

(** Detaching a view changes nothing but the view shown by the window. *)
Lemma removeBrowserView_frame id s :
  tabs (Main.removeBrowserView id s) = tabs s ∧
  activeTabId (Main.removeBrowserView id s) = activeTabId s ∧
  sent (Main.removeBrowserView id s) = sent s ∧
  immediates (Main.removeBrowserView id s) = immediates s ∧
  db (Main.removeBrowserView id s) = db s ∧
  tabInfo (Main.removeBrowserView id s) = tabInfo s.
Proof. unfold Main.removeBrowserView. by repeat case_match. Qed.

Lemma leave_active_tab_frame s :
  open_tab_ids (Main.leave_active_tab s) = open_tab_ids s ∧
  activeTabId (Main.leave_active_tab s) = activeTabId s ∧
  sent (Main.leave_active_tab s) = sent s ∧
  immediates (Main.leave_active_tab s) = immediates s ∧
  db (Main.leave_active_tab s) = db s ∧
  tabInfo (Main.leave_active_tab s) = tabInfo s ∧
  (∀ k, wc_url <$> JsMap.get (tabs (Main.leave_active_tab s)) k
        = wc_url <$> JsMap.get (tabs s) k).
Proof.
  unfold Main.leave_active_tab.
  destruct (activeTabId s) as [old|] eqn:Hact; [|by rewrite Hact].
  destruct (negb (String.eqb old EmptyString) && JsMap.has (tabs s) old); [|by rewrite Hact].
  destruct (stopFindInPage_frame old s) as [Hk Hu].
  destruct (removeBrowserView_frame old (Main.stopFindInPage old s))
    as (Ht & Ha & Hs & Hi & Hd & Hti).
  unfold open_tab_ids in *. rewrite Ht, Ha, Hs, Hi, Hd, Hti, Hk.
  repeat split; try exact Hu; unfold Main.stopFindInPage;
    by destruct (JsMap.get (tabs s) old).
Qed.

Lemma switchToTab_unknown id s :
  id ∉ open_tab_ids s → Main.switchToTab id s = s.
Proof.
  intros Hid. unfold Main.switchToTab.
  destruct (JsMap.has (tabs s) id) eqn:Hhas; [|done].
  apply has_keys in Hhas. done.
Qed.

Lemma switchToTab_known id s :
  id ∈ open_tab_ids s →
  ∃ view, JsMap.get (tabs s) id = Some view ∧
    open_tab_ids (Main.switchToTab id s) = open_tab_ids s ∧
    activeTabId (Main.switchToTab id s) = Some id ∧
    sent (Main.switchToTab id s) = (sent s ++ [TabSwitched id (wc_url view)])%list ∧
    immediates (Main.switchToTab id s) = (immediates s ++ [SendFindRestoreState])%list ∧
    db (Main.switchToTab id s) = db s ∧
    tabInfo (Main.switchToTab id s) = tabInfo s.
Proof.
  intros Hid. apply has_keys in Hid.
  destruct (proj1 (has_get _ _) Hid) as [view Hget]. exists view. split; [done|].
  unfold Main.switchToTab. rewrite Hid. simpl.
  destruct (leave_active_tab_frame s) as (Hk & Ha & Hs & Hi & Hd & Hti & Hu).
  specialize (Hu id). rewrite Hget in Hu.
  destruct (JsMap.get (tabs (Main.leave_active_tab s)) id) as [view'|]; [|done].
  injection Hu as Hu. simpl. unfold open_tab_ids in *. simpl.
  by rewrite Hk, Hs, Hi, Hd, Hti, Hu.
Qed.

Lemma loadURL_frame id url s :
  open_tab_ids (Main.loadURL id url s) = open_tab_ids s ∧
  activeTabId (Main.loadURL id url s) = activeTabId s ∧
  sent (Main.loadURL id url s) = sent s ∧
  immediates (Main.loadURL id url s) = immediates s ∧
  db (Main.loadURL id url s) = db s ∧
  tabInfo (Main.loadURL id url s) = tabInfo s.
Proof.
  unfold Main.loadURL, open_tab_ids.
  destruct (JsMap.get (tabs s) id) as [v|] eqn:Hget; [|done]. simpl.
  rewrite keys_set.
  assert (JsMap.has (tabs s) id = true) as -> by (apply has_get; by eexists). done.
Qed.

Lemma createNewTab_spec uuid url s :
  let s' := Main.createNewTab uuid url s in
  activeTabId s' = Some uuid ∧
  open_tab_ids s' = (if JsMap.has (tabs s) uuid then open_tab_ids s
                     else open_tab_ids s ++ [uuid])%list ∧
  (∃ u title finalUrl favicon,
     sent s' = (sent s ++ [TabSwitched uuid u;
                           TabCreated uuid title finalUrl favicon])%list) ∧
  immediates s' = (immediates s ++ [SendFindRestoreState])%list ∧
  db s' = db s.
Proof.
  unfold Main.createNewTab.
  set (finalUrl := Js.or_str url "hera://new-tab").
  set (view := {| wc_url := EmptyString; wc_loading := None; wc_finding := false |}).
  set (s2 := Main.set_tabInfo _ (Main.set_tabs _ s)).
  assert (Hk2 : open_tab_ids s2 = (if JsMap.has (tabs s) uuid then open_tab_ids s
                                   else open_tab_ids s ++ [uuid])%list)
    by apply keys_set.
  assert (Hin : uuid ∈ open_tab_ids s2).
  { rewrite Hk2. destruct (JsMap.has (tabs s) uuid) eqn:Hhas.
    - by apply has_keys.
    - apply elem_of_app. right. by left. }
  destruct (switchToTab_known uuid s2 Hin) as (v & Hget & Hk & Ha & Hs & Hi & Hd & _).
  destruct (loadURL_frame uuid (Address finalUrl) (Main.switchToTab uuid s2))
    as (Hk' & Ha' & Hs' & Hi' & Hd' & _).
  simpl. unfold open_tab_ids in *. simpl.
  rewrite Ha', Ha, Hk', Hk, Hk2, Hs', Hs, Hi', Hi, Hd', Hd. simpl.
  repeat split; try done.
  eexists _, _, _, _. by rewrite <- app_assoc.
Qed.

Lemma save_tabs_frame s :
  tabs (Main.save_tabs s) = tabs s ∧
  activeTabId (Main.save_tabs s) = activeTabId s ∧
  sent (Main.save_tabs s) = sent s ∧
  immediates (Main.save_tabs s) = immediates s ∧
  tabInfo (Main.save_tabs s) = tabInfo s.
Proof.
  unfold Main.save_tabs.
  by destruct (Database.saveTabsState (Main.tabs_array s) (db s)).
Qed.

Lemma run_immediate_frame s :
  tabs (Main.run_immediate s) = tabs s ∧
  activeTabId (Main.run_immediate s) = activeTabId s ∧
  db (Main.run_immediate s) = db s ∧
  ∃ more, sent (Main.run_immediate s) = (sent s ++ more)%list.
Proof.
  unfold Main.run_immediate.
  destruct (immediates s) as [|[] rest]; simpl; repeat split; try done.
  - exists []. by rewrite app_nil_r.
  - by eexists.
Qed.

Lemma discard_tab_frame id s :
  open_tab_ids (Main.discard_tab id s)
    = List.filter (λ k, negb (String.eqb k id)) (open_tab_ids s) ∧
  activeTabId (Main.discard_tab id s) = activeTabId s ∧
  sent (Main.discard_tab id s) = (sent s ++ [TabClosed id])%list ∧
  immediates (Main.discard_tab id s) = immediates s ∧
  db (Main.discard_tab id s) = db s.
Proof.
  unfold Main.discard_tab, open_tab_ids. simpl. rewrite keys_delete.
  destruct (removeBrowserView_frame id (Main.stopFindInPage id s))
    as (Ht & Ha & Hs & Hi & Hd & _).
  rewrite Ht, Ha, Hs, Hi, Hd.
  destruct (stopFindInPage_frame id s) as [Hk _]. unfold open_tab_ids in Hk. rewrite Hk.
  unfold Main.stopFindInPage. by destruct (JsMap.get (tabs s) id).
Qed.

Lemma active_tab_open_nonempty s : active_tab_open s → tabs s ≠ [].
Proof.
  intros (id & _ & Hin) Hnil. unfold open_tab_ids in Hin. rewrite Hnil in Hin.
  by apply elem_of_nil in Hin.
Qed.

Lemma createNewTab_active_open uuid url s :
  active_tab_open (Main.createNewTab uuid url s).
Proof.
  destruct (createNewTab_spec uuid url s) as (Ha & Hk & _).
  exists uuid. split; [done|]. rewrite Hk.
  destruct (JsMap.has (tabs s) uuid) eqn:Hhas.
  - by apply has_keys.
  - apply elem_of_app. right. by left.
Qed.

Lemma switchToTab_active_open id s :
  active_tab_open s → active_tab_open (Main.switchToTab id s).
Proof.
  intros Hs. destruct (decide (id ∈ open_tab_ids s)) as [Hin|Hout].
  - destruct (switchToTab_known id s Hin) as (_ & _ & Hk & Ha & _).
    exists id. by rewrite Hk.
  - by rewrite switchToTab_unknown.
Qed.

Lemma closeTab_active_open id uuid s :
  active_tab_open s → active_tab_open (Main.closeTab id uuid s).
Proof.
  intros (a & Ha & Hain). unfold Main.closeTab.
  destruct (JsMap.has (tabs s) id) eqn:Hhas; simpl; [|by exists a].
  destruct (discard_tab_frame id s) as (Hk6 & Ha6 & _).
  set (s6 := Main.discard_tab id s) in *.
  assert (Hshown : active_tab_open (Main.show_another_tab id uuid s6)).
  { unfold Main.show_another_tab. rewrite Ha6, Ha.
    destruct (decide (a = id)) as [->|Hne].
    - rewrite bool_decide_eq_true_2 by done.
      destruct (JsMap.keys (tabs s6)) as [|k ks] eqn:Hkeys.
      + apply createNewTab_active_open.
      + assert (Hkin : k ∈ open_tab_ids s6)
          by (unfold open_tab_ids; rewrite Hkeys; by left).
        destruct (switchToTab_known k s6 Hkin) as (_ & _ & Hk & Hact & _).
        exists k. by rewrite Hk.
    - rewrite bool_decide_eq_false_2 by congruence.
      exists a. split; [by rewrite Ha6|]. rewrite Hk6.
      apply list_elem_of_In, List.filter_In. split; [by apply list_elem_of_In|].
      by destruct (String.eqb_spec a id). }
  destruct Hshown as (b & Hb & Hbin).
  destruct (save_tabs_frame (Main.show_another_tab id uuid s6)) as (Ht & Hact & _).
  exists b. unfold open_tab_ids in *. by rewrite Ht, Hact.
Qed.

Lemma step_active_open s cmd :
  active_tab_open s → active_tab_open (Main.step s cmd).
Proof.
  intros Hs. destruct cmd as [uuid url|id|id uuid|]; simpl.
  - apply createNewTab_active_open.
  - by apply switchToTab_active_open.
  - by apply closeTab_active_open.
  - destruct Hs as (a & Ha & Hin).
    destruct (run_immediate_frame s) as (Ht & Hact & _).
    exists a. unfold open_tab_ids. by rewrite Ht, Hact.
Qed.

Lemma run_active_open cmds : ∀ s,
  active_tab_open s → active_tab_open (Main.run cmds s).
Proof.
  induction cmds as [|cmd cmds IH]; intros s Hs; [done|].
  apply IH. by apply step_active_open.
Qed.

Lemma step_invariant s cmd :
  coordinator_invariant s → coordinator_invariant (Main.step s cmd).
Proof.
  intros Hinv. destruct (decide (tabs s = [])) as [Hnil|Hne].
  - destruct cmd as [uuid url|id|id uuid|]; simpl; intros Hne.
    + apply createNewTab_active_open.
    + exfalso. apply Hne. rewrite switchToTab_unknown; [done|].
      unfold open_tab_ids. rewrite Hnil. apply not_elem_of_nil.
    + exfalso. apply Hne. unfold Main.closeTab. by rewrite Hnil.
    + exfalso. apply Hne. by destruct (run_immediate_frame s) as (-> & _).
  - intros _. by apply step_active_open, Hinv.
Qed.

(** Every state reached from the start of the process satisfies the
    invariant. *)
Lemma reachable_invariant d cmds : coordinator_invariant (Main.run cmds (boot d)).
Proof.
  assert (H : ∀ s, coordinator_invariant s → coordinator_invariant (Main.run cmds s)).
  { induction cmds as [|cmd cmds IH]; intros s Hs; [done|].
    apply IH. by apply step_invariant. }
  apply H. by intros Hne.
Qed.

Lemma createNewTab_first uuid s :
  tabs s = [] →
  tabs (Main.createNewTab uuid None s) = [(uuid, new_tab_view)] ∧
  activeTabId (Main.createNewTab uuid None s) = Some uuid ∧
  tabInfo (Main.createNewTab uuid None s) !! uuid = Some new_tab_info.
Proof.
  intros Hnil.
  unfold Main.createNewTab, Main.switchToTab, Main.leave_active_tab,
    Main.stopFindInPage, Main.removeBrowserView, Main.loadURL.
  simpl. rewrite Hnil. simpl. rewrite String.eqb_refl. simpl.
  repeat (case_match; simpl in *; simplify_eq; rewrite ?String.eqb_refl in *; simpl in * );
    try done.
  all: simplify_eq; simpl; split; [done|]; split; [done|].
  all: by rewrite lookup_insert_eq.
Qed.

Lemma replacement_for_only_tab id view uuid s :
  tabs s = [(id, view)] → activeTabId s = Some id →
  let s7 := Main.show_another_tab id uuid (Main.discard_tab id s) in
  Main.closeTab id uuid s = Main.save_tabs s7 ∧
  tabs s7 = [(uuid, new_tab_view)] ∧
  activeTabId s7 = Some uuid ∧
  tabInfo s7 !! uuid = Some new_tab_info ∧
  db s7 = db s.
Proof.
  intros Htabs Hact s7. subst s7. split.
  { unfold Main.closeTab. rewrite Htabs. simpl. by rewrite String.eqb_refl. }
  destruct (discard_tab_frame id s) as (Hk6 & Ha6 & _ & _ & Hd6).
  assert (Hk : JsMap.keys (tabs (Main.discard_tab id s)) = []).
  { fold (open_tab_ids (Main.discard_tab id s)). rewrite Hk6.
    unfold open_tab_ids. rewrite Htabs. simpl. by rewrite String.eqb_refl. }
  unfold Main.show_another_tab. rewrite Ha6, Hact, Hk.
  rewrite bool_decide_eq_true_2 by done.
  destruct (createNewTab_spec uuid None (Main.discard_tab id s)) as (_ & _ & _ & _ & Hd).
  rewrite Hd, Hd6.
  destruct (createNewTab_first uuid (Main.discard_tab id s)) as (? & ? & ?); [|done].
  unfold JsMap.keys in Hk. by apply fmap_nil_inv in Hk.
Qed.

Lemma close_only_tab id view uuid s :
  tabs s = [(id, view)] → activeTabId s = Some id →
  tabs (Main.closeTab id uuid s) = [(uuid, new_tab_view)] ∧
  activeTabId (Main.closeTab id uuid s) = Some uuid ∧
  tabInfo (Main.closeTab id uuid s) !! uuid = Some new_tab_info ∧
  (∀ c, db s = Some c → writes_left c = None →
        db (Main.closeTab id uuid s)
        = Some (with_writes_left None (with_open_tabs [new_tab_row uuid] c))).
Proof.
  intros Htabs Hact.
  destruct (replacement_for_only_tab id view uuid s Htabs Hact)
    as (-> & Ht7 & Ha7 & Hi7 & Hd7).
  set (s7 := Main.show_another_tab id uuid (Main.discard_tab id s)) in *.
  destruct (save_tabs_frame s7) as (-> & -> & _ & _ & ->).
  split; [done|]. split; [done|]. split; [done|].
  intros c Hdb Hw.
  assert (Harr : Main.tabs_array s7
                 = [{| ts_id := uuid; ts_url := "hera://new-tab"; ts_title := "Nova Aba";
                       ts_favicon := Some "hera://HeraBrowser256x256.png";
                       ts_position := 0; ts_active := true |}]).
  { unfold Main.tabs_array. rewrite Ht7, Ha7. simpl. rewrite Hi7. simpl.
    by rewrite bool_decide_eq_true_2. }
  unfold Main.save_tabs. rewrite Harr, Hd7, Hdb.
  rewrite saveTabsState_rows; [done|done|].
  apply NoDup_singleton.
Qed.

End CoordinatorFacts.

(** C1. From a state with an open tab in which the active id names an open
    tab (every state the process reaches is such a state, see
    [reachable_invariant]), no sequence of tab commands empties the tab set.
    Closing the only open tab leaves exactly one tab, a new one on the
    new-tab page, which is the active tab and is what gets saved. *)
Theorem tab_set_never_empty (s : App) (cmds : list Main.Command) :
  tabs s ≠ [] →
  coordinator_invariant s →
  tabs (Main.run cmds s) ≠ []
  ∧ (∀ id view uuid,
       tabs s = [(id, view)] →
       tabs (Main.closeTab id uuid s) = [(uuid, new_tab_view)] ∧
       activeTabId (Main.closeTab id uuid s) = Some uuid ∧
       tabInfo (Main.closeTab id uuid s) !! uuid = Some new_tab_info ∧
       (∀ c, db s = Some c → writes_left c = None →
             db (Main.closeTab id uuid s)
             = Some (with_writes_left None (with_open_tabs [new_tab_row uuid] c)))).
Proof.
  intros Hne Hinv. split.
  - by apply active_tab_open_nonempty, run_active_open, Hinv.
  - intros id view uuid Htabs. apply (close_only_tab id view); [done|].
    destruct (Hinv Hne) as (a & Ha & Hin).
    unfold open_tab_ids in Hin. rewrite Htabs in Hin. simpl in Hin.
    apply list_elem_of_singleton in Hin. by subst a.
Qed.

Lemma tab_set_never_empty_witness :
  (tabs (Main.createNewTab "t1" None (boot (Some empty_conn))) ≠ [] ∧
   coordinator_invariant (Main.createNewTab "t1" None (boot (Some empty_conn))))
  ∧ tabs (Main.run [Main.CloseTab "t1" "t2"; Main.NewTab "t3" (Some "https://example.org/");
                    Main.CloseTab "t3" "t4"; Main.CloseTab "t2" "t5"]
            (Main.createNewTab "t1" None (boot (Some empty_conn)))) ≠ [].
Proof.
  assert (H1 : tabs (Main.createNewTab "t1" None (boot (Some empty_conn))) ≠ [])
    by (vm_compute; discriminate).
  assert (H2 : coordinator_invariant (Main.createNewTab "t1" None (boot (Some empty_conn)))).
  { intros _. exists "t1". split; [reflexivity|]. vm_compute. by left. }
  split; [by split|].
  exact (proj1 (tab_set_never_empty _ _ H1 H2)).
Defined.

Section NotificationFacts.

Lemma step_sent_grows s cmd : ∃ more, sent (Main.step s cmd) = (sent s ++ more)%list.
Proof.
  destruct cmd as [uuid url|id|id uuid|]; cbn [Main.step].
  - destruct (createNewTab_spec uuid url s) as (_ & _ & (u & t & f & fv & ->) & _).
    by eexists.
  - destruct (decide (id ∈ open_tab_ids s)) as [Hin|Hout].
    + destruct (switchToTab_known id s Hin) as (v & _ & _ & _ & -> & _). by eexists.
    + rewrite switchToTab_unknown by done. exists []. by rewrite app_nil_r.
  - unfold Main.closeTab. destruct (JsMap.has (tabs s) id); cbn [negb];
      [|exists []; by rewrite app_nil_r].
    destruct (save_tabs_frame (Main.show_another_tab id uuid (Main.discard_tab id s)))
      as (_ & _ & -> & _).
    destruct (discard_tab_frame id s) as (_ & _ & Hs6 & _).
    set (s6 := Main.discard_tab id s) in *.
    unfold Main.show_another_tab. case_bool_decide.
    + destruct (JsMap.keys (tabs s6)) as [|k ks] eqn:Hkeys.
      * destruct (createNewTab_spec uuid None s6) as (_ & _ & (u & t & f & fv & ->) & _).
        rewrite Hs6, <- app_assoc. by eexists.
      * assert (Hkin : k ∈ open_tab_ids s6)
          by (unfold open_tab_ids; rewrite Hkeys; by left).
        destruct (switchToTab_known k s6 Hkin) as (v & _ & _ & _ & -> & _).
        rewrite Hs6, <- app_assoc. by eexists.
    + rewrite Hs6. by eexists.
  - by destruct (run_immediate_frame s) as (_ & _ & _ & ?).
Qed.

Lemma run_sent_grows cmds : ∀ s, ∃ more, sent (Main.run cmds s) = (sent s ++ more)%list.
Proof.
  induction cmds as [|cmd cmds IH]; intros s; simpl.
  - exists []. by rewrite app_nil_r.
  - destruct (step_sent_grows s cmd) as (m1 & H1).
    destruct (IH (Main.step s cmd)) as (m2 & H2).
    exists (m1 ++ m2)%list. unfold Main.run in *. by rewrite H2, H1, app_assoc.
Qed.

(** Running the [n] oldest callbacks sends [n] find-restore messages. *)
Lemma run_immediates n : ∀ s,
  (n ≤ length (immediates s))%nat →
  sent (Main.run (replicate n Main.Immediate) s)
  = (sent s ++ replicate n FindRestoreState)%list.
Proof.
  induction n as [|n IH]; intros s Hlen.
  - simpl. by rewrite app_nil_r.
  - destruct (immediates s) as [|[] rest] eqn:Him; simpl in Hlen; [lia|].
    assert (Hstep : sent (Main.run_immediate s) = (sent s ++ [FindRestoreState])%list ∧
                    immediates (Main.run_immediate s) = rest)
      by (unfold Main.run_immediate; by rewrite Him).
    destruct Hstep as [Hs Hi].
    change (sent (Main.run (replicate n Main.Immediate) (Main.run_immediate s))
            = (sent s ++ FindRestoreState :: replicate n FindRestoreState)%list).
    rewrite IH; [|rewrite Hi; lia]. by rewrite Hs, <- app_assoc.
Qed.

(** Moves of the message log and of the number of queued callbacks. *)
Lemma take_snoc_cases {A} (l : list A) (m : A) n :
  take n (l ++ [m]) = take n l ∨ take n (l ++ [m]) = (l ++ [m])%list.
Proof.
  destruct (decide (n ≤ length l)%nat) as [Hle|Hgt].
  - left. by rewrite take_app_le.
  - right. apply take_ge. rewrite length_app. simpl. lia.
Qed.

Lemma restores_snoc l m :
  restores (l ++ [m]) = (restores l + if is_restore m then 1 else 0)%nat.
Proof.
  unfold restores. rewrite List.filter_app, length_app. simpl.
  by destruct (is_restore m).
Qed.

Lemma switches_snoc l m :
  switches (l ++ [m]) = (switches l + if is_switch m then 1 else 0)%nat.
Proof.
  unfold switches. rewrite List.filter_app, length_app. simpl.
  by destruct (is_switch m).
Qed.

Lemma in_order_other l pending m :
  is_restore m = false → is_switch m = false →
  in_order l pending → in_order (l ++ [m]) pending.
Proof.
  intros Hr Hs [Heq Hpre]. split.
  - rewrite restores_snoc, switches_snoc, Hr, Hs. lia.
  - intros n. destruct (take_snoc_cases l m n) as [-> | ->]; [apply Hpre|].
    rewrite restores_snoc, switches_snoc, Hr, Hs. lia.
Qed.

Lemma in_order_switch l pending id u :
  in_order l pending → in_order (l ++ [TabSwitched id u]) (S pending).
Proof.
  intros [Heq Hpre]. split.
  - rewrite restores_snoc, switches_snoc. simpl. lia.
  - intros n. destruct (take_snoc_cases l (TabSwitched id u) n) as [-> | ->];
      [apply Hpre|].
    rewrite restores_snoc, switches_snoc. simpl. lia.
Qed.

Lemma in_order_restore l pending :
  in_order l (S pending) → in_order (l ++ [FindRestoreState]) pending.
Proof.
  intros [Heq Hpre]. split.
  - rewrite restores_snoc, switches_snoc. simpl. lia.
  - intros n. destruct (take_snoc_cases l FindRestoreState n) as [-> | ->];
      [apply Hpre|].
    rewrite restores_snoc, switches_snoc. simpl. lia.
Qed.

Lemma createNewTab_in_order uuid url s :
  notifications_in_order s → notifications_in_order (Main.createNewTab uuid url s).
Proof.
  unfold notifications_in_order. intros H.
  destruct (createNewTab_spec uuid url s) as (_ & _ & (u & t & f & fv & ->) & -> & _).
  rewrite length_app. simpl. rewrite Nat.add_1_r.
  change (sent s ++ [TabSwitched uuid u; TabCreated uuid t f fv])%list
    with (sent s ++ [TabSwitched uuid u] ++ [TabCreated uuid t f fv])%list.
  rewrite app_assoc. apply in_order_other; [done|done|].
  by apply in_order_switch.
Qed.

Lemma switchToTab_in_order id s :
  notifications_in_order s → notifications_in_order (Main.switchToTab id s).
Proof.
  unfold notifications_in_order. intros H.
  destruct (decide (id ∈ open_tab_ids s)) as [Hin|Hout].
  - destruct (switchToTab_known id s Hin) as (v & _ & _ & _ & -> & -> & _).
    rewrite length_app. simpl. rewrite Nat.add_1_r. by apply in_order_switch.
  - by rewrite switchToTab_unknown.
Qed.

Lemma step_in_order s cmd :
  notifications_in_order s → notifications_in_order (Main.step s cmd).
Proof.
  intros H. destruct cmd as [uuid url|id|id uuid|]; cbn [Main.step].
  - by apply createNewTab_in_order.
  - by apply switchToTab_in_order.
  - unfold Main.closeTab. destruct (JsMap.has (tabs s) id); cbn [negb]; [|done].
    assert (H6 : notifications_in_order (Main.discard_tab id s)).
    { unfold notifications_in_order.
      destruct (discard_tab_frame id s) as (_ & _ & -> & -> & _).
      by apply in_order_other. }
    assert (H7 : notifications_in_order
                   (Main.show_another_tab id uuid (Main.discard_tab id s))).
    { unfold Main.show_another_tab. case_bool_decide; [|done].
      destruct (JsMap.keys (tabs (Main.discard_tab id s))).
      - by apply createNewTab_in_order.
      - by apply switchToTab_in_order. }
    unfold notifications_in_order.
    by destruct (save_tabs_frame (Main.show_another_tab id uuid (Main.discard_tab id s)))
      as (_ & _ & -> & -> & _).
  - unfold notifications_in_order in *. unfold Main.run_immediate.
    destruct (immediates s) as [|[] rest] eqn:Him.
    + by rewrite Him.
    + simpl in *. by apply in_order_restore.
Qed.

(** In every state the process reaches, each find-restore message sent so
    far has its own earlier tab-switched message: no prefix of the log holds
    more of the former than of the latter, and the callbacks still queued
    account for the difference. *)
Lemma reachable_in_order d cmds : notifications_in_order (Main.run cmds (boot d)).
Proof.
  assert (H : ∀ s, notifications_in_order s → notifications_in_order (Main.run cmds s)).
  { induction cmds as [|cmd cmds IH]; intros s Hs; [done|].
    apply IH. by apply step_in_order. }
  apply H. split; [done|]. intros n. by destruct n.
Qed.

End NotificationFacts.

(** C6. [switchToTab] on an open tab sends ['tab-switched'] at once and only
    queues the callback that will send ['find:restore-state'].  Whatever the
    process does next, ['tab-switched'] stays ahead of everything sent later;
    and when the event loop has run the callbacks queued so far, the
    find-restore message of this switch is the last one sent, after
    ['tab-switched'].  (For every state the process reaches,
    [reachable_in_order] matches each find-restore message with an earlier
    tab-switched message.) *)
Theorem tab_switched_before_find_restore
    (s : App) (id : string) (cmds : list Main.Command) :
  id ∈ open_tab_ids s →
  ∃ view,
    JsMap.get (tabs s) id = Some view ∧
    sent (Main.switchToTab id s) = (sent s ++ [TabSwitched id (wc_url view)])%list ∧
    immediates (Main.switchToTab id s) = (immediates s ++ [SendFindRestoreState])%list ∧
    (∃ later, sent (Main.run cmds (Main.switchToTab id s))
              = (sent s ++ TabSwitched id (wc_url view) :: later)%list) ∧
    sent (Main.run (replicate (S (length (immediates s))) Main.Immediate)
            (Main.switchToTab id s))
    = (sent s ++ TabSwitched id (wc_url view)
         :: replicate (S (length (immediates s))) FindRestoreState)%list.
Proof.
  intros Hin.
  destruct (switchToTab_known id s Hin) as (view & Hget & _ & _ & Hsent & Himm & _).
  exists view. split; [done|]. split; [done|]. split; [done|]. split.
  - destruct (run_sent_grows cmds (Main.switchToTab id s)) as (later & ->).
    exists later. by rewrite Hsent, <- app_assoc.
  - rewrite run_immediates.
    + by rewrite Hsent, <- app_assoc.
    + rewrite Himm, length_app. simpl. lia.
Qed.

Lemma tab_switched_before_find_restore_witness :
  "t1" ∈ open_tab_ids
           (Main.run [Main.NewTab "t1" None; Main.NewTab "t2" None] (boot None))
  ∧ sent (Main.run [Main.Immediate; Main.Immediate; Main.Immediate]
            (Main.switchToTab "t1"
               (Main.run [Main.NewTab "t1" None; Main.NewTab "t2" None] (boot None))))
    = [ TabSwitched "t1" EmptyString;
        TabCreated "t1" "Nova Aba" "hera://new-tab" (Some "hera://HeraBrowser256x256.png");
        TabSwitched "t2" EmptyString;
        TabCreated "t2" "Nova Aba" "hera://new-tab" (Some "hera://HeraBrowser256x256.png");
        TabSwitched "t1" EmptyString;
        FindRestoreState; FindRestoreState; FindRestoreState ].
Proof.
  assert (H1 : "t1" ∈ open_tab_ids
                 (Main.run [Main.NewTab "t1" None; Main.NewTab "t2" None] (boot None)))
    by (vm_compute; by left).
  split; [done|].
  destruct (tab_switched_before_find_restore _ _ [] H1) as (view & Hget & _ & _ & _ & Hall).
  vm_compute in Hget. injection Hget as <-. exact Hall.
Defined.


(** ** The download tracker *)

(** C2, as the code has it.  On a store that accepts its writes, the
    completion handler saves a download as ["completed"] when the item
    reports ["completed"] and as ["failed"] for every other report; a report
    of ["cancelled"] is saved as ["failed"]. The other rows are untouched. *)
Theorem download_done_saves_completed_or_failed
    (s : App) (c : Conn) (id state finalPath : string) :
  db s = Some c →
  writes_left c = None →
  ∃ c', db (Main.on_download_done id state finalPath s) = Some c' ∧
        downloads c'
        = (λ r, if String.eqb (d_id r) id
                then Database.set_state (persisted_state state) finalPath r
                else r) <$> downloads c ∧
        (∀ r, r ∈ downloads c' → d_id r = id →
              d_state r = persisted_state state ∧ d_state r ≠ "cancelled") ∧
        (state = "cancelled" →
         ∀ r, r ∈ downloads c' → d_id r = id → d_state r = "failed").
Proof.
  intros Hdb Hw.
  assert (Hrun : db (Main.on_download_done id state finalPath s)
                 = Some (with_writes_left None
                           (with_downloads
                              ((λ r, if String.eqb (d_id r) id
                                     then Database.set_state (persisted_state state) finalPath r
                                     else r) <$> downloads c) c))).
  { unfold Main.on_download_done, Database.updateDownloadState, Database.opened,
      Sqlite.try_catch, Sqlite.bind, Sqlite.run, Database.update_download.
    rewrite Hdb, Hw. reflexivity. }
  eexists. split; [exact Hrun|]. simpl. split; [done|].
  assert (Hrows : ∀ r,
            r ∈ (λ r, if String.eqb (d_id r) id
                      then Database.set_state (persisted_state state) finalPath r
                      else r) <$> downloads c →
            d_id r = id → d_state r = persisted_state state).
  { intros r Hin Hid. apply list_elem_of_fmap in Hin as (r0 & -> & _).
    destruct (String.eqb_spec (d_id r0) id) as [_|Hne]; [done|]. by destruct Hne. }
  split.
  - intros r Hin Hid. rewrite (Hrows r Hin Hid). split; [done|].
    unfold persisted_state. by destruct (String.eqb state "completed").
  - intros -> r Hin Hid. by rewrite (Hrows r Hin Hid).
Qed.

Lemma download_done_saves_completed_or_failed_witness :
  (db received_in_full
   = Some (with_downloads
             [{| d_id := "d1"; d_filename := "file.bin"; d_savePath := "/tmp/file.bin";
                 d_totalBytes := 100; d_receivedBytes := 100;
                 d_state := "downloading"; d_timestamp := 1700000000000 |}]
             empty_conn) ∧
   writes_left
     (with_downloads
        [{| d_id := "d1"; d_filename := "file.bin"; d_savePath := "/tmp/file.bin";
            d_totalBytes := 100; d_receivedBytes := 100;
            d_state := "downloading"; d_timestamp := 1700000000000 |}]
        empty_conn) = None)
  ∧ ∃ c', db (Main.on_download_done "d1" "cancelled" "/tmp/file.bin" received_in_full)
          = Some c' ∧
          ∀ r, r ∈ downloads c' → d_id r = "d1" → d_state r = "failed".
Proof.
  assert (H1 : db received_in_full
               = Some (with_downloads
                         [{| d_id := "d1"; d_filename := "file.bin";
                             d_savePath := "/tmp/file.bin";
                             d_totalBytes := 100; d_receivedBytes := 100;
                             d_state := "downloading"; d_timestamp := 1700000000000 |}]
                         empty_conn)) by reflexivity.
  split; [by split|].
  destruct (download_done_saves_completed_or_failed
              received_in_full _ "d1" "cancelled" "/tmp/file.bin" H1 eq_refl)
    as (c' & Hrun & _ & _ & Hcancelled).
  exists c'. split; [exact Hrun|]. by apply Hcancelled.
Defined.

(** C2, as stated, fails: a download that has received all of its 100 bytes
    and is then reported as ["cancelled"] is saved with the state ["failed"],
    not with the state the item reported. *)
Lemma cancelled_download_saved_as_failed :
  downloads <$> db (Main.on_download_done "d1" "cancelled" "/tmp/file.bin" received_in_full)
  = Some [{| d_id := "d1"; d_filename := "file.bin"; d_savePath := "/tmp/file.bin";
             d_totalBytes := 100; d_receivedBytes := 100;
             d_state := "failed"; d_timestamp := 1700000000000 |}]
  ∧ "failed" ≠ "cancelled".
Proof. split; [reflexivity|discriminate]. Qed.


(** ** Regular expressions *)

Section RegexFacts.

Import Regex.

Lemma nullable_lang r : nullable r = true ↔ lang r [].
Proof.
  induction r as [| |p|r1 IH1 r2 IH2|r1 IH1 r2 IH2|r IH]; simpl.
  - split; [done|]. inversion 1.
  - split; [constructor|done].
  - split; [done|]. inversion 1.
  - rewrite andb_true_iff, IH1, IH2. split.
    + intros [H1 H2]. exact (lang_cat _ _ [] [] H1 H2).
    + inversion 1 as [| |? ? s1 s2 H1 H2| | | |]; subst.
      match goal with
      | H : (_ ++ _)%list = [] |- _ => apply app_eq_nil in H as [-> ->]
      end. done.
  - rewrite orb_true_iff, IH1, IH2. split.
    + intros [H|H]; [by apply lang_alt_l|by apply lang_alt_r].
    + inversion 1; subst; auto.
  - split; [constructor|done].
Qed.

Lemma lang_star_head r a s :
  lang (Star r) (a :: s) →
  ∃ s1 s2, s = (s1 ++ s2)%list ∧ lang r (a :: s1) ∧ lang (Star r) s2.
Proof.
  intros H. remember (Star r) as r' eqn:Hr. remember (a :: s) as w eqn:Hw.
  revert a s Hw. induction H as [| | | | | |r0 s1 s2 H1 _ H2 IH2]; try done.
  intros a s Hw. injection Hr as ->.
  destruct s1 as [|b s1]; simpl in Hw.
  - by apply IH2.
  - injection Hw as -> <-. by exists s1, s2.
Qed.

Lemma deriv_lang r : ∀ a s, lang (deriv a r) s ↔ lang r (a :: s).
Proof.
  induction r as [| |p|r1 IH1 r2 IH2|r1 IH1 r2 IH2|r IH]; intros a s; simpl.
  - split; inversion 1.
  - split; inversion 1.
  - destruct (p a) eqn:Hp; split.
    + inversion 1; subst. by constructor.
    + inversion 1; subst. constructor.
    + inversion 1.
    + inversion 1; subst. congruence.
  - assert (Hcat : lang (Cat (deriv a r1) r2) s →  lang (Cat r1 r2) (a :: s)).
    { inversion 1 as [| |? ? s1 s2 H1 H2| | | |]; subst.
      apply IH1 in H1. exact (lang_cat _ _ (a :: s1) s2 H1 H2). }
    assert (Hinv : lang (Cat r1 r2) (a :: s) →
                   lang (Cat (deriv a r1) r2) s ∨ (lang r1 [] ∧ lang r2 (a :: s))).
    { inversion 1 as [| |? ? s1 s2 H1 H2| | | |]; subst.
      match goal with
      | H : (_ ++ _)%list = _ :: _ |- _ => rename H into Heq
      end.
      destruct s1 as [|b s1]; simpl in *.
      - right. by subst.
      - injection Heq as -> <-. left. apply lang_cat; [by apply IH1|done]. }
    destruct (nullable r1) eqn:Hn; split.
    + inversion 1 as [| | |? ? ? Hl|? ? ? Hr| |]; subst; [by apply Hcat|].
      apply nullable_lang in Hn. apply IH2 in Hr.
      exact (lang_cat _ _ [] (a :: s) Hn Hr).
    + intros H. destruct (Hinv H) as [?|[_ H2]]; [by apply lang_alt_l|].
      apply lang_alt_r. by apply IH2.
    + apply Hcat.
    + intros H. destruct (Hinv H) as [?|[H1 _]]; [done|].
      apply nullable_lang in H1. congruence.
  - split.
    + inversion 1; subst; [apply lang_alt_l|apply lang_alt_r]; by apply IH1 || apply IH2.
    + inversion 1; subst; [apply lang_alt_l|apply lang_alt_r]; by apply IH1 || apply IH2.
  - split.
    + inversion 1 as [| |? ? s1 s2 H1 H2| | | |]; subst.
      apply IH in H1. exact (lang_star_cons _ (a :: s1) s2 H1 H2).
    + intros H. apply lang_star_head in H as (s1 & s2 & -> & H1 & H2).
      apply lang_cat; [by apply IH|done].
Qed.

Lemma matches_lang s : ∀ r, matches r s = true ↔ lang r s.
Proof.
  induction s as [|a s IH]; intros r; simpl.
  - apply nullable_lang.
  - rewrite IH. apply deriv_lang.
Qed.




Lemma lang_class_inv p s : lang (Class p) s → ∃ a, s = [a] ∧ p a = true.
Proof. inversion 1; subst. by eexists. Qed.



End RegexFacts.

(** ** The new-tab route *)

Section ProtocolFacts.

Lemma prefix_list p : ∀ s,
  String.prefix p s = true ↔
  ∃ q, list_ascii_of_string s = (list_ascii_of_string p ++ q)%list.
Proof.
  induction p as [|a p IH]; intros s; simpl.
  - split; [|by destruct s]. intros _. exists (list_ascii_of_string s). by destruct s.
  - destruct s as [|b s]; simpl.
    + split; [done|]. by intros (q & ?).
    + destruct (ascii_dec a b) as [->|Hne].
      * rewrite IH. split; intros (q & Hq); exists q; [by rewrite Hq|by injection Hq].
      * split; [done|]. intros (q & Hq). injection Hq as ??. congruence.
Qed.










End ProtocolFacts.




(** The second and third branches of the pattern are not anchored: a query
    that holds [localhost] anywhere is loaded as an address. *)
Lemma localhost_inside_query_is_loaded :
  Js.startsWith "what is localhost" "localhost" = false
  ∧ Main.isUrl "what is localhost" = true
  ∧ Main.navigate_from_newtab encode_unreserved (Some "what is localhost")
      (one_tab (Some empty_conn))
    = Main.loadURL "t1" (Address "https://what is localhost") (one_tab (Some empty_conn)).
Proof. repeat split. Qed.


(** ** More of the persistence gateway *)

(** *** Settings *)

Lemma foldl_settings_object (rows : list (string * string)) :
  ∀ (acc : gmap string string) (key : string),
    NoDup rows.*1 →
    foldl (λ (obj : gmap string string) (row : string * string),
             if String.eqb row.1 "__proto__" then obj
             else <[row.1 := row.2]> obj) acc rows !! key
    = match (if String.eqb key "__proto__" then None
             else (list_to_map rows : gmap string string) !! key) with
      | Some v => Some v
      | None => acc !! key
      end.
Proof.
  induction rows as [|[k v] rows IH]; intros acc key Hnd.
  - simpl. rewrite lookup_empty. by destruct (String.eqb key "__proto__").
  - rewrite fmap_cons in Hnd. apply NoDup_cons in Hnd as [Hk Hnd].
    cbn [foldl]. rewrite IH by done. cbn [fst snd list_to_map foldr].
    destruct (String.eqb_spec key "__proto__") as [->|Hkey].
    + destruct (String.eqb_spec k "__proto__") as [->|Hk']; [done|].
      by rewrite lookup_insert_ne.
    + destruct (String.eqb_spec k "__proto__") as [->|Hk'].
      * rewrite lookup_insert_ne by done. done.
      * destruct (decide (k = key)) as [->|Hne].
        -- rewrite lookup_insert_eq.
           assert ((list_to_map rows : gmap string string) !! key = None) as ->.
           { by apply not_elem_of_list_to_map_1. }
           by rewrite lookup_insert_eq.
        -- rewrite (lookup_insert_ne (list_to_map rows)) by done.
           destruct (list_to_map rows !! key); [done|].
           by rewrite lookup_insert_ne.
Qed.

Lemma setSetting_roundtrip_aux (c : Conn) (key value other : string) :
  writes_left c ≠ Some 0%nat →
  other ≠ key →
  ∃ c', Database.setSetting key value (Some c) = (Returned true, Some c')
        ∧ Database.getSetting key (Some c') = (Returned (Some value), Some c')
        ∧ (Database.getSetting other (Some c')).1 = (Database.getSetting other (Some c)).1.
Proof.
  intros Hw Hother.
  unfold Database.setSetting, Database.getSetting, Database.opened, Sqlite.try_catch,
    Sqlite.bind, Sqlite.run, Sqlite.query, Sqlite.ret, Database.upsert_setting.
  destruct (writes_left c) as [[|n]|] eqn:Hwl; [done| |];
    eexists; (split; [reflexivity|]); cbn; rewrite lookup_insert_eq;
    (split; [done|]); by rewrite lookup_insert_ne.
Qed.

(** X1. On an open store that accepts a write, [setSetting] returns [true],
    a following [getSetting] of the same key returns the value written, and
    [getSetting] of any other key returns what it returned before. *)
Theorem setSetting_then_getSetting (c : Conn) (key value other : string) :
  writes_left c ≠ Some 0%nat →
  other ≠ key →
  ∃ c', Database.setSetting key value (Some c) = (Returned true, Some c')
        ∧ Database.getSetting key (Some c') = (Returned (Some value), Some c')
        ∧ (Database.getSetting other (Some c')).1 = (Database.getSetting other (Some c)).1.
Proof.
  intros Hw Hother.
  assert (Hset : ∃ c', Database.setSetting key value (Some c) = (Returned true, Some c')
                       ∧ settings c' = <[key := value]> (settings c)).
  { unfold Database.setSetting, Database.opened, Sqlite.try_catch, Sqlite.bind,
      Sqlite.run, Sqlite.ret, Database.upsert_setting.
    destruct (writes_left c) as [[|n]|]; [done| |]; eexists; by split. }
  destruct Hset as (c' & Hset & Hrows). exists c'. split; [exact Hset|].
  unfold Database.getSetting, Database.opened, Sqlite.try_catch, Sqlite.query.
  cbn [fst]. rewrite Hrows. split.
  - by rewrite lookup_insert_eq.
  - by rewrite lookup_insert_ne.
Qed.

Lemma setSetting_then_getSetting_witness :
  (writes_left empty_conn ≠ Some 0%nat ∧ "searchEngine" ≠ "theme")
  ∧ ∃ c', Database.setSetting "theme" "dark" (Some empty_conn) = (Returned true, Some c')
          ∧ Database.getSetting "theme" (Some c') = (Returned (Some "dark"), Some c')
          ∧ (Database.getSetting "searchEngine" (Some c')).1
            = (Database.getSetting "searchEngine" (Some empty_conn)).1.
Proof.
  assert (H1 : writes_left empty_conn ≠ Some 0%nat) by discriminate.
  assert (H2 : "searchEngine" ≠ "theme") by discriminate.
  split; [by split|].
  exact (setSetting_then_getSetting empty_conn "theme" "dark" "searchEngine" H1 H2).
Defined.

(** X2. [getAllSettings] on an open store returns normally and leaves the
    store as it is; the object it returns holds, for every key but
    [__proto__], the value [getSetting] reads for that key, and never holds
    the key [__proto__], whatever the table holds for it. *)
Theorem getAllSettings_omits_proto (c : Conn) (key : string) :
  ∃ all, Database.getAllSettings (Some c) = (Returned all, Some c)
         ∧ Database.getSetting key (Some c) = (Returned (settings c !! key), Some c)
         ∧ all !! key = (if String.eqb key "__proto__" then None else settings c !! key).
Proof.
  eexists. split; [reflexivity|]. split; [reflexivity|].
  rewrite foldl_settings_object by apply NoDup_fst_map_to_list.
  rewrite list_to_map_to_list, lookup_empty.
  destruct (String.eqb key "__proto__"); [done|].
  by destruct (settings c !! key).
Qed.


(** *** History *)

(** X3. The ids of the history table are not used again after
    [clearHistory]: on a store that accepts its writes, [clearHistory] leaves
    [getHistory] with nothing to return, and the row that the next
    [addHistoryEntry] inserts has an id larger than every id the table held
    before it was cleared. *)
Theorem cleared_history_ids_are_not_reused
    (c : Conn) (url title : string) (favicon : option string) (now : Z) :
  writes_left c = None →
  history_seq_bounds c →
  Js.startsWith url "hera://" = false →
  ∃ c1 c2 r,
    Database.clearHistory (Some c) = (Returned tt, Some c1) ∧
    Database.getHistory (Some c1) = (Returned [], Some c1) ∧
    Database.addHistoryEntry url title favicon now (Some c1) = (Returned tt, Some c2) ∧
    history c2 = [r] ∧ h_url r = url ∧ h_visit_count r = 1 ∧
    Forall (λ old, h_id old < h_id r) (history c).
Proof.
  intros Hw Hseq Hext.
  unfold Database.clearHistory, Database.getHistory, Database.addHistoryEntry,
    Database.opened, Sqlite.try_catch, Sqlite.bind, Sqlite.run, Sqlite.query,
    Sqlite.ret, Sqlite.throw.
  rewrite Hw, Hext. cbn.
  eexists _, _, _. repeat (split; [reflexivity|]).
  cbn. unfold Database.next_history_id. cbn.
  eapply Forall_impl; [exact Hseq|]. cbn. intros r Hr. lia.
Qed.

Lemma cleared_history_ids_are_not_reused_witness :
  (writes_left visited_store = None ∧ history_seq_bounds visited_store ∧
   Js.startsWith example_address "hera://" = false)
  ∧ ∃ c1 c2 r,
      Database.clearHistory (Some visited_store) = (Returned tt, Some c1) ∧
      Database.getHistory (Some c1) = (Returned [], Some c1) ∧
      Database.addHistoryEntry example_address "Example" None 400 (Some c1)
        = (Returned tt, Some c2) ∧
      history c2 = [r] ∧ h_url r = example_address ∧ h_visit_count r = 1 ∧
      Forall (λ old, h_id old < h_id r) (history visited_store).
Proof.
  assert (H1 : writes_left visited_store = None) by reflexivity.
  assert (H2 : history_seq_bounds visited_store).
  { unfold history_seq_bounds. cbn. repeat constructor; cbn; lia. }
  assert (H3 : Js.startsWith example_address "hera://" = false) by reflexivity.
  split; [by repeat split|].
  exact (cleared_history_ids_are_not_reused visited_store example_address "Example"
           None 400 H1 H2 H3).
Defined.

Lemma sorted_head_is_greatest {A} (R : relation A) (x : A) (l : list A) :
  StronglySorted R (x :: l) → ∀ y, y ∈ x :: l → y = x ∨ R x y.
Proof.
  intros Hs y Hy. apply StronglySorted_inv in Hs as [_ Hall].
  apply elem_of_cons in Hy as [->|Hy]; [by left|right].
  rewrite Forall_forall in Hall. by apply Hall.
Qed.

(** X4. The visit just recorded heads the history list: when
    [addHistoryEntry] runs with a clock later than every stored timestamp, on
    a store that accepts its writes, the first entry [getHistory] then returns
    is the one of that address, with the title and the time of the call. *)
Theorem latest_visit_is_listed_first
    (c : Conn) (url title : string) (favicon : option string) (now : Z) :
  writes_left c = None →
  history_keys_unique c →
  Js.startsWith url "hera://" = false →
  Forall (λ r, h_timestamp r < now) (history c) →
  ∃ c' e rest,
    Database.addHistoryEntry url title favicon now (Some c) = (Returned tt, Some c') ∧
    Database.getHistory (Some c') = (Returned (e :: rest), Some c') ∧
    he_url e = VString url ∧ he_title e = VString title ∧
    he_timestamp e = VNumber now.
Proof.
  intros Hw Hnd Hext Hold.
  set (v := {| v_url := url; v_title := title; v_favicon := favicon; v_now := now |}).
  destruct (record_visit_external c v Hw Hext) as (c' & Hc' & Hw' & Hh).
  assert (Hcall : ∃ c'', Database.addHistoryEntry url title favicon now (Some c)
                        = (Returned tt, Some c'')).
  { unfold Database.addHistoryEntry, Database.opened. rewrite Hext.
    unfold Sqlite.try_catch, Sqlite.bind, Sqlite.query, Sqlite.run, Sqlite.ret.
    destruct (Database.select_history_by_url url c); rewrite Hw; cbn; eauto. }
  destruct Hcall as [c'' Hcall].
  assert (c'' = c') as ->.
  { unfold record_visit in Hc'. subst v. cbn [v_url v_title v_favicon v_now] in Hc'.
    rewrite Hcall in Hc'. cbn in Hc'. congruence. }
  (* the rows of the new table *)
  assert (Hrows : (∃ r, r ∈ history c' ∧ h_timestamp r = now) ∧
                  ∀ r, r ∈ history c' →
                       h_timestamp r ≤ now ∧
                       (h_timestamp r = now → h_url r = url ∧ h_title r = title)).
  { rewrite Hh. cbn [v_url v_title v_now v_favicon v].
    rewrite Forall_forall in Hold.
    destruct (Database.select_history_by_url url c) as [row|] eqn:Hsel.
    - unfold Database.select_history_by_url in Hsel.
      apply List.find_some in Hsel as [Hin Hu]. apply String.eqb_eq in Hu.
      apply list_elem_of_In in Hin.
      split.
      + exists (Database.visit_again now title favicon row). split; [|done].
        apply list_elem_of_fmap. exists row. by rewrite Z.eqb_refl.
      + intros r Hr. apply list_elem_of_fmap in Hr as (x & -> & Hx).
        destruct (Z.eqb_spec (h_id x) (h_id row)) as [Hid|Hid].
        * assert (x = row) by (eapply unique_key_row; eauto). subst x.
          cbn. split; [lia|done].
        * specialize (Hold x Hx). cbn in Hold. split; [lia|]. lia.
    - split.
      + eexists. split; [apply elem_of_app; right; apply list_elem_of_singleton; done|done].
      + intros r Hr. apply elem_of_app in Hr as [Hr|Hr].
        * specialize (Hold r Hr). cbn in Hold. split; lia.
        * apply list_elem_of_singleton in Hr as ->. cbn. split; [lia|done]. }
  destruct Hrows as [(rnew & Hnew & Hts) Hall].
  set (sorted := merge_sort newer_first (history c')).
  assert (Hperm : sorted ≡ₚ history c') by apply merge_sort_Permutation.
  assert (Hsorted : StronglySorted newer_first sorted)
    by (apply StronglySorted_merge_sort; apply _).
  destruct sorted as [|h tl] eqn:Hs.
  { exfalso. rewrite <- Hperm in Hnew. by apply elem_of_nil in Hnew. }
  assert (Hh_in : h ∈ history c') by (rewrite <- Hperm; apply list_elem_of_here).
  assert (Hh_ts : h_timestamp h = now).
  { destruct (Hall h Hh_in) as [Hle _].
    assert (Hn : rnew ∈ h :: tl) by by rewrite Hperm.
    destruct (sorted_head_is_greatest _ _ _ Hsorted rnew Hn) as [->|HR]; [done|].
    unfold newer_first in HR. lia. }
  destruct (Hall h Hh_in) as [_ Hid]. destruct (Hid Hh_ts) as [Hu Ht].
  exists c', (Database.history_entry_of_row h),
    (Database.history_entry_of_row <$> take 999 tl).
  split; [done|]. split.
  - unfold Database.getHistory, Database.opened, Sqlite.try_catch, Sqlite.bind,
      Sqlite.query, Sqlite.ret, Database.select_recent_history.
    fold sorted. rewrite Hs.
    change (take 1000 (h :: tl)) with (h :: take 999 tl).
    change (map Database.history_entry_of_row (h :: take 999 tl))
      with (Database.history_entry_of_row <$> (h :: take 999 tl)).
    by rewrite validateHistoryEntries_rows.
  - cbn. by rewrite Hu, Ht, Hh_ts.
Qed.

Lemma latest_visit_is_listed_first_witness :
  (writes_left visited_store = None ∧ history_keys_unique visited_store ∧
   Js.startsWith "https://other.net/" "hera://" = false ∧
   Forall (λ r, h_timestamp r < 400) (history visited_store))
  ∧ ∃ c' e rest,
      Database.addHistoryEntry "https://other.net/" "Other" None 400 (Some visited_store)
        = (Returned tt, Some c') ∧
      Database.getHistory (Some c') = (Returned (e :: rest), Some c') ∧
      he_url e = VString "https://other.net/" ∧ he_title e = VString "Other" ∧
      he_timestamp e = VNumber 400.
Proof.
  assert (H1 : writes_left visited_store = None) by reflexivity.
  assert (H2 : history_keys_unique visited_store).
  { unfold history_keys_unique. cbn. apply NoDup_cons. split.
    - intros H. apply list_elem_of_singleton in H. discriminate.
    - apply NoDup_singleton. }
  assert (H3 : Js.startsWith "https://other.net/" "hera://" = false) by reflexivity.
  assert (H4 : Forall (λ r, h_timestamp r < 400) (history visited_store)).
  { cbn. repeat constructor; cbn; lia. }
  split; [by repeat split|].
  exact (latest_visit_is_listed_first visited_store "https://other.net/" "Other"
           None 400 H1 H2 H3 H4).
Defined.


(** *** Downloads *)

#[global] Instance download_newer_first_transitive : Transitive download_newer_first.
Proof. unfold download_newer_first. intros a b c ??. lia. Qed.

#[global] Instance download_newer_first_total : Total download_newer_first.
Proof. unfold download_newer_first. intros a b. lia. Qed.

Lemma filter_negb_id {A} (p : A → bool) (l : list A) :
  Forall (λ x, p x = false) l → List.filter (λ x, negb (p x)) l = l.
Proof.
  induction 1 as [|x l Hx _ IH]; [done|]. cbn. rewrite Hx. cbn. by rewrite IH.
Qed.

Lemma map_if_unhit {A} (p : A → bool) (f : A → A) (l : list A) :
  Forall (λ x, p x = false) l → map (λ x, if p x then f x else x) l = l.
Proof.
  induction 1 as [|x l Hx _ IH]; [done|]. cbn. by rewrite Hx, IH.
Qed.

Lemma List_filter_Permutation {A} (p : A → bool) (l l' : list A) :
  l ≡ₚ l' → List.filter p l ≡ₚ List.filter p l'.
Proof.
  induction 1 as [|x l l' _ IH|x y l|l1 l2 l3 _ IH1 _ IH2]; cbn.
  - done.
  - destruct (p x); by rewrite IH.
  - destruct (p x), (p y); (done || apply perm_swap).
  - by rewrite IH1.
Qed.

Lemma List_filter_fmap {A B} (p : B → bool) (f : A → B) (l : list A) :
  List.filter p (f <$> l) = f <$> List.filter (λ x, p (f x)) l.
Proof.
  induction l as [|x l IH]; [done|]. rewrite fmap_cons. cbn.
  destruct (p (f x)); by rewrite IH.
Qed.

Section DownloadFacts.

Context {F : Type} (zero : F) (percent : Z → Z → F).

Lemma getDownloads_rows (c : Conn) :
  Database.getDownloads F zero percent (Some c)
  = (Returned (Database.download_with_progress F zero percent
                 <$> merge_sort download_newer_first (downloads c)),
     Some c).
Proof. reflexivity. Qed.

End DownloadFacts.


(** X6. [clearCompletedDownloads] on a store that accepts a write removes
    the completed downloads and no other: what [getDownloads] lists afterwards
    is, up to the order of equal timestamps, what it listed before without the
    entries whose state is [completed]. *)
Theorem clearCompletedDownloads_keeps_the_rest
    {F : Type} (zero : F) (percent : Z → Z → F) (c : Conn) :
  writes_left c ≠ Some 0%nat →
  ∃ c' before after,
    Database.getDownloads F zero percent (Some c) = (Returned before, Some c) ∧
    Database.clearCompletedDownloads (Some c) = (Returned tt, Some c') ∧
    Database.getDownloads F zero percent (Some c') = (Returned after, Some c') ∧
    after ≡ₚ List.filter (λ d, negb (String.eqb (Database.dp_state d) "completed")) before ∧
    StronglySorted listed_newer_first after.
Proof.
  intros Hw.
  assert (Hcall : ∃ c', Database.clearCompletedDownloads (Some c) = (Returned tt, Some c')
            ∧ downloads c'
              = List.filter (λ r, negb (String.eqb (d_state r) "completed")) (downloads c)).
  { unfold Database.clearCompletedDownloads, Database.opened, Sqlite.try_catch,
      Sqlite.bind, Sqlite.run, Sqlite.ret, Database.delete_completed.
    destruct (writes_left c) as [[|n]|]; [done| |]; eexists; by split. }
  destruct Hcall as (c' & Hcall & Hrows).
  eexists c', _, _. split; [apply getDownloads_rows|]. split; [exact Hcall|].
  split; [apply getDownloads_rows|]. split.
  - rewrite Hrows, List_filter_fmap. apply fmap_Permutation.
    rewrite (merge_sort_Permutation download_newer_first (List.filter _ (downloads c))).
    apply List_filter_Permutation. symmetry. apply merge_sort_Permutation.
  - apply (StronglySorted_fmap_2 download_newer_first); [by intros a b|].
    apply StronglySorted_merge_sort; apply _.
Qed.

Lemma clearCompletedDownloads_keeps_the_rest_witness :
  writes_left three_downloads ≠ Some 0%nat
  ∧ ∃ c' before after,
      Database.getDownloads Z 0 whole_percent (Some three_downloads)
        = (Returned before, Some three_downloads) ∧
      Database.clearCompletedDownloads (Some three_downloads) = (Returned tt, Some c') ∧
      Database.getDownloads Z 0 whole_percent (Some c') = (Returned after, Some c') ∧
      after ≡ₚ List.filter (λ d, negb (String.eqb (Database.dp_state d) "completed")) before ∧
      StronglySorted listed_newer_first after.
Proof.
  assert (H1 : writes_left three_downloads ≠ Some 0%nat) by discriminate.
  split; [done|].
  exact (clearCompletedDownloads_keeps_the_rest 0 whole_percent three_downloads H1).
Defined.

(** X7. [removeDownload] on a store that accepts a write returns whether a
    download had the given id; afterwards no download has it, and the other
    downloads are the same, in the same order. *)
Theorem removeDownload_reports_what_it_removed (c : Conn) (id : string) :
  writes_left c ≠ Some 0%nat →
  ∃ c',
    Database.removeDownload id (Some c)
      = (Returned (bool_decide (id ∈ d_id <$> downloads c)), Some c') ∧
    (id ∉ d_id <$> downloads c') ∧
    List.filter (λ r, negb (String.eqb (d_id r) id)) (downloads c) = downloads c'.
Proof.
  intros Hw.
  assert (Hcount : (0 <? length (List.filter (λ r, String.eqb (d_id r) id) (downloads c)))%nat
                   = bool_decide (id ∈ d_id <$> downloads c)).
  { induction (downloads c) as [|r l IH]; [done|]. rewrite fmap_cons. cbn [List.filter].
    destruct (String.eqb_spec (d_id r) id) as [Heq|Hne].
    - symmetry. apply bool_decide_eq_true. rewrite Heq. apply list_elem_of_here.
    - rewrite IH. apply bool_decide_ext. rewrite elem_of_cons.
      split; [by right|]. by intros [?|?]. }
  assert (Hcall : ∃ c',
            Database.removeDownload id (Some c)
            = (Returned (0 <? length (List.filter (λ r, String.eqb (d_id r) id)
                                        (downloads c)))%nat, Some c') ∧
            downloads c' = List.filter (λ r, negb (String.eqb (d_id r) id)) (downloads c)).
  { unfold Database.removeDownload, Database.opened, Sqlite.try_catch,
      Sqlite.bind, Sqlite.run, Sqlite.ret, Database.delete_download.
    destruct (writes_left c) as [[|n]|]; [done| |]; eexists; by split. }
  destruct Hcall as (c' & Hcall & Hrows).
  exists c'. rewrite <- Hcount. split; [done|]. split; [|done].
  rewrite Hrows. intros Hin. apply list_elem_of_fmap in Hin as (r & Hr & Hin).
  apply list_elem_of_In, List.filter_In in Hin as [_ Hin].
  by rewrite <- Hr, String.eqb_refl in Hin.
Qed.

Lemma removeDownload_reports_what_it_removed_witness :
  writes_left three_downloads ≠ Some 0%nat
  ∧ ∃ c',
      Database.removeDownload "d2" (Some three_downloads) = (Returned true, Some c') ∧
      ("d2" ∉ d_id <$> downloads c') ∧
      List.filter (λ r, negb (String.eqb (d_id r) "d2")) (downloads three_downloads)
      = downloads c'.
Proof.
  assert (H1 : writes_left three_downloads ≠ Some 0%nat) by discriminate.
  split; [done|].
  exact (removeDownload_reports_what_it_removed three_downloads "d2" H1).
Defined.

(** X8. A download that has no row is never given one by the events of its
    item: when no row has the id, the [updated] and [done] listeners leave the
    downloads table as it is, and still tell the renderer of the progress and
    of the completion. *)
Theorem untracked_download_is_never_recorded
    (s : App) (c : Conn) (id state savePath : string) (receivedBytes totalBytes : Z) :
  db s = Some c →
  (id ∉ d_id <$> downloads c) →
  (∃ c1, db (Main.on_download_updated id "progressing" savePath receivedBytes totalBytes s)
         = Some c1 ∧ downloads c1 = downloads c)
  ∧ (∃ c2, db (Main.on_download_done id state savePath s) = Some c2
           ∧ downloads c2 = downloads c)
  ∧ sent (Main.on_download_updated id "progressing" savePath receivedBytes totalBytes s)
    = (sent s ++ [DownloadProgress id savePath receivedBytes totalBytes])%list
  ∧ sent (Main.on_download_done id state savePath s)
    = (sent s ++ [DownloadComplete id savePath (persisted_state state)])%list.
Proof.
  intros Hdb Hid.
  assert (Hun : Forall (λ r, String.eqb (d_id r) id = false) (downloads c)).
  { apply Forall_forall. intros r Hr. apply String.eqb_neq. intros Heq.
    apply Hid. rewrite <- Heq. by apply list_elem_of_fmap_2. }
  unfold Main.on_download_updated, Main.on_download_done,
    Database.updateDownloadProgress, Database.updateDownloadState, Database.opened,
    Sqlite.try_catch, Sqlite.bind, Sqlite.run, Sqlite.ret, Sqlite.throw,
    Database.update_download, persisted_state.
  rewrite Hdb. cbn.
  destruct (writes_left c) as [[|n]|]; cbn; rewrite ?map_if_unhit by done;
    repeat split; eauto.
Qed.

Lemma untracked_download_is_never_recorded_witness :
  (db (boot (Some three_downloads)) = Some three_downloads ∧
   ("d9" ∉ d_id <$> downloads three_downloads))
  ∧ ∃ c2, db (Main.on_download_done "d9" "completed" "/tmp/z.zip"
                (boot (Some three_downloads))) = Some c2
          ∧ downloads c2 = downloads three_downloads.
Proof.
  assert (H1 : db (boot (Some three_downloads)) = Some three_downloads) by reflexivity.
  assert (H2 : "d9" ∉ (d_id <$> downloads three_downloads)).
  { cbn. intros H. repeat (apply elem_of_cons in H as [H|H]; [discriminate|]).
    by apply elem_of_nil in H. }
  split; [by split|].
  exact (proj1 (proj2 (untracked_download_is_never_recorded _ _ "d9" "completed"
                         "/tmp/z.zip" 0 0 H1 H2))).
Defined.

Lemma map_if_app {A} (p : A → bool) (f : A → A) (l : list A) (x : A) :
  Forall (λ y, p y = false) l → p x = true →
  map (λ y, if p y then f y else y) (l ++ [x]) = (l ++ [f x])%list.
Proof.
  intros Hl Hx. rewrite map_app, map_if_unhit by done. cbn. by rewrite Hx.
Qed.

(** X9. A download that is tracked from its start is listed as it ended:
    on a store that accepts its writes and holds no download with the id
    drawn for it, after the [will-download] listener, a progress event and the
    [done] event, [getDownloads] lists one more download, and the entry of
    that id has the file name and the size announced at the start, the bytes
    received at the progress event, the final path, and the state
    [completed] or [failed]. *)
Theorem tracked_download_is_listed
    {F : Type} (zero : F) (percent : Z → Z → F) (s : App) (c : Conn)
    (id filename savePath finalPath state : string) (totalBytes receivedBytes now : Z) :
  db s = Some c →
  writes_left c = None →
  (id ∉ d_id <$> downloads c) →
  ∃ c' listed entry,
    db (Main.on_download_done id state finalPath
          (Main.on_download_updated id "progressing" savePath receivedBytes totalBytes
             (Main.on_will_download id filename savePath totalBytes now s)))
    = Some c' ∧
    Database.getDownloads F zero percent (Some c') = (Returned listed, Some c') ∧
    length listed = S (length (downloads c)) ∧
    entry ∈ listed ∧
    Database.dp_id entry = id ∧ Database.dp_filename entry = filename ∧
    Database.dp_totalBytes entry = totalBytes ∧
    Database.dp_receivedBytes entry = receivedBytes ∧
    Database.dp_savePath entry = finalPath ∧
    Database.dp_state entry = persisted_state state ∧
    Database.dp_timestamp entry = now.
Proof.
  intros Hdb Hw Hid.
  assert (Hun : Forall (λ r, String.eqb (d_id r) id = false) (downloads c)).
  { apply Forall_forall. intros r Hr. apply String.eqb_neq. intros Heq.
    apply Hid. rewrite <- Heq. by apply list_elem_of_fmap_2. }
  assert (Hex : existsb (λ r, String.eqb (d_id r) id) (downloads c) = false).
  { apply not_true_is_false. intros Hex. apply existsb_exists in Hex as (r & Hr & Heq).
    rewrite Forall_forall in Hun. apply list_elem_of_In in Hr.
    rewrite (Hun r Hr) in Heq. done. }
  set (final := {| d_id := id; d_filename := filename; d_savePath := finalPath;
                   d_totalBytes := totalBytes; d_receivedBytes := receivedBytes;
                   d_state := persisted_state state; d_timestamp := now |}).
  assert (Hend : ∃ c',
            db (Main.on_download_done id state finalPath
                  (Main.on_download_updated id "progressing" savePath receivedBytes
                     totalBytes
                     (Main.on_will_download id filename savePath totalBytes now s)))
            = Some c' ∧ downloads c' = (downloads c ++ [final])%list).
  { unfold Main.on_download_done, Main.on_download_updated, Main.on_will_download,
      Database.addDownload, Database.updateDownloadProgress, Database.updateDownloadState,
      Database.opened, Sqlite.try_catch, Sqlite.bind, Sqlite.run, Sqlite.ret,
      Sqlite.throw, Database.insert_download, Database.update_download.
    rewrite Hdb, Hw, Hex. cbn.
    eexists. split; [reflexivity|]. cbn.
    rewrite (map_if_app (λ r, String.eqb (d_id r) id)) by (done || apply String.eqb_refl).
    rewrite (map_if_app (λ r, String.eqb (d_id r) id)) by (done || apply String.eqb_refl).
    reflexivity. }
  destruct Hend as (c' & Hc' & Hrows).
  exists c', (Database.download_with_progress F zero percent
                <$> merge_sort download_newer_first (downloads c')),
         (Database.download_with_progress F zero percent final).
  split; [exact Hc'|]. split; [apply getDownloads_rows|]. split; [|split].
  - rewrite length_fmap, (Permutation_length (merge_sort_Permutation _ _)), Hrows,
      length_app. cbn. lia.
  - apply list_elem_of_fmap_2. rewrite merge_sort_Permutation, Hrows.
    apply elem_of_app. right. apply list_elem_of_here.
  - by repeat split.
Qed.

Lemma tracked_download_is_listed_witness :
  (db (boot (Some three_downloads)) = Some three_downloads ∧
   writes_left three_downloads = None ∧
   ("d4" ∉ d_id <$> downloads three_downloads))
  ∧ ∃ c' listed entry,
      db (Main.on_download_done "d4" "cancelled" "/tmp/e.zip"
            (Main.on_download_updated "d4" "progressing" "/tmp/e.zip" 70 100
               (Main.on_will_download "d4" "e.zip" "/tmp/e.zip" 100 40
                  (boot (Some three_downloads)))))
      = Some c' ∧
      Database.getDownloads Z 0 whole_percent (Some c') = (Returned listed, Some c') ∧
      length listed = 4%nat ∧
      entry ∈ listed ∧
      Database.dp_id entry = "d4" ∧ Database.dp_filename entry = "e.zip" ∧
      Database.dp_totalBytes entry = 100 ∧
      Database.dp_receivedBytes entry = 70 ∧
      Database.dp_savePath entry = "/tmp/e.zip" ∧
      Database.dp_state entry = "failed" ∧
      Database.dp_timestamp entry = 40.
Proof.
  assert (H1 : db (boot (Some three_downloads)) = Some three_downloads) by reflexivity.
  assert (H2 : writes_left three_downloads = None) by reflexivity.
  assert (H3 : "d4" ∉ d_id <$> downloads three_downloads).
  { cbn. intros H. repeat (apply elem_of_cons in H as [H|H]; [discriminate|]).
    by apply elem_of_nil in H. }
  split; [by repeat split|].
  exact (tracked_download_is_listed 0 whole_percent _ _ "d4" "e.zip" "/tmp/e.zip"
           "/tmp/e.zip" "cancelled" 100 70 40 H1 H2 H3).
Defined.


(** *** Bookmarks *)

#[global] Instance bookmark_position_asc_transitive : Transitive bookmark_position_asc.
Proof. unfold bookmark_position_asc. intros a b c ??. lia. Qed.

#[global] Instance bookmark_position_asc_total : Total bookmark_position_asc.
Proof. unfold bookmark_position_asc. intros a b. lia. Qed.

Section BookmarkReadFacts.

(** The guard accepts the object of a row exactly when the row has an
    address. *)
Lemma isBookmark_row (r : BookmarkRow) :
  Guards.isBookmark (Database.bookmark_of_row r)
  = match b_url r with Some _ => true | None => false end.
Proof.
  unfold Guards.isBookmark, Database.bookmark_of_row. cbn.
  destruct (b_url r), (Js.or_undefined (b_favicon r)),
    (Js.or_undefined (b_folder_id r)); reflexivity.
Qed.

Lemma validateBookmarks_rows (rows : list BookmarkRow) :
  Guards.validateBookmarks (map Database.bookmark_of_row rows)
  = Database.bookmark_of_row
      <$> List.filter (λ r, match b_url r with Some _ => true | None => false end) rows.
Proof.
  unfold Guards.validateBookmarks.
  change (map Database.bookmark_of_row rows) with (Database.bookmark_of_row <$> rows).
  rewrite List_filter_fmap. f_equal.
  induction rows as [|r rows IH]; [done|]. cbn [List.filter].
  by rewrite isBookmark_row, IH.
Qed.


Lemma List_filter_filter {A} (p q : A → bool) (l : list A) :
  List.filter p (List.filter q l) = List.filter (λ x, q x && p x) l.
Proof.
  induction l as [|x l IH]; [done|]. cbn. destruct (q x); cbn; [|done].
  destruct (p x); by rewrite IH.
Qed.

Lemma getBookmarks_rows (c : Conn) (folderId : option string) :
  Database.getBookmarks folderId (Some c)
  = (Returned (Guards.validateBookmarks
                 (map Database.bookmark_of_row
                    (Database.select_bookmarks_in (Js.or_undefined folderId) c))),
     Some c).
Proof. reflexivity. Qed.

End BookmarkReadFacts.


(** X11. A bookmark stored with the empty string as folder id is listed in
    no folder: once [addBookmark] has returned for the folder id [''],
    [getBookmarks] returns no bookmark with that id, whatever folder it is
    asked for. *)
Theorem bookmark_in_empty_folder_is_never_listed
    (c c' : Conn) (id url title : string) (favicon folderId : option string)
    (now : Z) (added : Bookmark) (result : list BookmarkObject) (db' : option Conn) :
  Database.addBookmark id url title favicon (Some EmptyString) now (Some c)
    = (Returned added, Some c') →
  Database.getBookmarks folderId (Some c') = (Returned result, db') →
  Forall (λ b, bo_id b ≠ VString id) result.
Proof.
  intros Hadd Hget.
  assert (Hrows : Forall (λ r, b_id r = id → b_folder_id r = Some EmptyString)
                    (bookmarks c')).
  { revert Hadd.
    unfold Database.addBookmark, Database.opened, Sqlite.try_catch, Sqlite.bind,
      Sqlite.run, Sqlite.query, Sqlite.ret, Sqlite.throw, Database.insert_bookmark.
    destruct (writes_left c) as [[|n]|]; [done| |];
      (match goal with |- context [existsb ?p ?l] => destruct (existsb p l) eqn:Hex end;
        [done|]);
      cbn; intros [= _ <-]; cbn;
      (apply Forall_app; split;
        [|by repeat constructor]);
      apply Forall_forall; intros r Hr Hid; exfalso;
      (assert (existsb (λ r, String.eqb (b_id r) id) (bookmarks c) = true);
        [|congruence]);
      apply existsb_exists; exists r; (split; [by apply list_elem_of_In|]);
      by apply String.eqb_eq. }
  rewrite getBookmarks_rows in Hget. injection Hget as <- _.
  apply Forall_forall. intros b Hb Hid.
  rewrite validateBookmarks_rows in Hb.
  apply list_elem_of_fmap in Hb as (r & -> & Hr).
  apply list_elem_of_In, List.filter_In in Hr as [Hr _].
  unfold Database.select_bookmarks_in in Hr. apply list_elem_of_In in Hr.
  rewrite merge_sort_Permutation in Hr.
  apply list_elem_of_In, List.filter_In in Hr as [Hr Hfolder].
  apply list_elem_of_In in Hr.
  rewrite Forall_forall in Hrows. cbn in Hid. injection Hid as Hid.
  rewrite (Hrows r Hr Hid) in Hfolder.
  destruct folderId as [[|a g]|]; discriminate.
Qed.

Lemma bookmark_in_empty_folder_is_never_listed_witness :
  (Database.addBookmark "b9" "https://example.org/" "Example" None (Some EmptyString)
     1700000000000 (Some empty_conn)
   = (Returned hidden_bookmark, Some hidden_bookmark_store)
   ∧ Database.getBookmarks (Some EmptyString) (Some hidden_bookmark_store)
     = (Returned [], Some hidden_bookmark_store))
  ∧ Forall (λ b, bo_id b ≠ VString "b9") [].
Proof.
  assert (H1 : Database.addBookmark "b9" "https://example.org/" "Example" None
                 (Some EmptyString) 1700000000000 (Some empty_conn)
               = (Returned hidden_bookmark, Some hidden_bookmark_store)) by reflexivity.
  assert (H2 : Database.getBookmarks (Some EmptyString) (Some hidden_bookmark_store)
               = (Returned [], Some hidden_bookmark_store)) by reflexivity.
  split; [by split|].
  exact (bookmark_in_empty_folder_is_never_listed _ _ _ _ _ _ _ _ _ _ _ H1 H2).
Defined.

(** *** The [LIKE] operator *)

Section LikeFacts.







Lemma list_ascii_of_string_app (s t : string) :
  list_ascii_of_string (s +:+ t) = (list_ascii_of_string s ++ list_ascii_of_string t)%list.
Proof. induction s as [|a s IH]; [done|]. cbn. by rewrite <- IH. Qed.



End LikeFacts.




(** ** Validators of the command surface *)

Section GuardFacts.

Lemma lang_star_class (p : ascii → bool) (s : list ascii) :
  lang (Regex.Star (Regex.Class p)) s ↔ Forall (λ a, p a = true) s.
Proof.
  split.
  - intros H. remember (Regex.Star (Regex.Class p)) as r eqn:Hr.
    induction H as [| | | | | |r0 s1 s2 H1 _ H2 IH2]; try done.
    injection Hr as ->. apply lang_class_inv in H1 as (a & -> & Ha).
    constructor; [done|]. by apply IH2.
  - induction 1 as [|a s Ha _ IH]; [constructor|].
    apply (lang_star_cons _ [a]); [by constructor|done].
Qed.

Lemma lang_plus_class (p : ascii → bool) (s : list ascii) :
  lang (Regex.Plus (Regex.Class p)) s ↔ s ≠ [] ∧ Forall (λ a, p a = true) s.
Proof.
  unfold Regex.Plus. split.
  - inversion 1 as [| |? ? s1 s2 H1 H2| | | |]; subst.
    apply lang_class_inv in H1 as (a & -> & Ha). apply lang_star_class in H2.
    split; [done|]. by constructor.
  - intros [Hne Hall]. destruct Hall as [|a s Ha Hall]; [done|].
    apply (lang_cat _ _ [a]); [by constructor|]. by apply lang_star_class.
Qed.

Lemma length_list_ascii (s : string) :
  length (list_ascii_of_string s) = String.length s.
Proof. induction s as [|a s IH]; [done|]. cbn. by rewrite IH. Qed.

Lemma trim_start_space (a : ascii) (s : string) :
  Guards.is_space a = true →
  Guards.trim_start (String a s) = Guards.trim_start s.
Proof. intros Ha. cbn. by rewrite Ha. Qed.

End GuardFacts.

(** X13. [isValidTabId] accepts exactly the strings of 1 to 100 characters
    that are all ASCII letters, digits or hyphens, and [isValidBookmarkId]
    accepts the same strings. *)
Theorem isValidTabId_accepts_labels (id : string) :
  (Guards.isValidTabId id = true ↔
   (1 ≤ String.length id ≤ 100)%nat ∧
   Forall (λ a, Regex.label_char a = true) (list_ascii_of_string id))
  ∧ Guards.isValidBookmarkId id = Guards.isValidTabId id.
Proof.
  split; [|reflexivity].
  unfold Guards.isValidTabId, Regex.test_whole.
  destruct (String.length id =? 0)%nat eqn:H0; cbn [orb].
  { apply Nat.eqb_eq in H0. split; [done|]. intros [? _]. lia. }
  apply Nat.eqb_neq in H0.
  destruct (100 <? String.length id)%nat eqn:H100.
  { apply Nat.ltb_lt in H100. split; [done|]. intros [? _]. lia. }
  apply Nat.ltb_ge in H100.
  rewrite matches_lang, lang_plus_class. split.
  - intros [_ Hall]. split; [lia|done].
  - intros [_ Hall]. split; [|done]. intros Hnil.
    apply (f_equal length) in Hnil. rewrite length_list_ascii in Hnil. cbn in Hnil. lia.
Qed.

Section Regex16Facts.

Import Regex16.

Lemma nullable_lang16 r : nullable r = true ↔ lang16 r [].
Proof.
  induction r as [| |p|r1 IH1 r2 IH2|r1 IH1 r2 IH2|r IH]; simpl.
  - split; [done|]. inversion 1.
  - split; [constructor|done].
  - split; [done|]. inversion 1.
  - rewrite andb_true_iff, IH1, IH2. split.
    + intros [H1 H2]. exact (lang16_cat _ _ [] [] H1 H2).
    + inversion 1 as [| |? ? s1 s2 H1 H2| | | |]; subst.
      match goal with
      | H : (_ ++ _)%list = [] |- _ => apply app_eq_nil in H as [-> ->]
      end. done.
  - rewrite orb_true_iff, IH1, IH2. split.
    + intros [H|H]; [by apply lang16_alt_l|by apply lang16_alt_r].
    + inversion 1; subst; auto.
  - split; [constructor|done].
Qed.

Lemma lang16_star_head r a s :
  lang16 (Star r) (a :: s) →
  ∃ s1 s2, s = (s1 ++ s2)%list ∧ lang16 r (a :: s1) ∧ lang16 (Star r) s2.
Proof.
  intros H. remember (Star r) as r' eqn:Hr. remember (a :: s) as w eqn:Hw.
  revert a s Hw. induction H as [| | | | | |r0 s1 s2 H1 _ H2 IH2]; try done.
  intros a s Hw. injection Hr as ->.
  destruct s1 as [|b s1]; simpl in Hw.
  - by apply IH2.
  - injection Hw as -> <-. by exists s1, s2.
Qed.

Lemma deriv_lang16 r : ∀ a s, lang16 (deriv a r) s ↔ lang16 r (a :: s).
Proof.
  induction r as [| |p|r1 IH1 r2 IH2|r1 IH1 r2 IH2|r IH]; intros a s; simpl.
  - split; inversion 1.
  - split; inversion 1.
  - destruct (p a) eqn:Hp; split.
    + inversion 1; subst. by constructor.
    + inversion 1; subst. constructor.
    + inversion 1.
    + inversion 1; subst. congruence.
  - assert (Hcat : lang16 (Cat (deriv a r1) r2) s → lang16 (Cat r1 r2) (a :: s)).
    { inversion 1 as [| |? ? s1 s2 H1 H2| | | |]; subst.
      apply IH1 in H1. exact (lang16_cat _ _ (a :: s1) s2 H1 H2). }
    assert (Hinv : lang16 (Cat r1 r2) (a :: s) →
                   lang16 (Cat (deriv a r1) r2) s ∨ (lang16 r1 [] ∧ lang16 r2 (a :: s))).
    { inversion 1 as [| |? ? s1 s2 H1 H2| | | |]; subst.
      match goal with
      | H : (_ ++ _)%list = _ :: _ |- _ => rename H into Heq
      end.
      destruct s1 as [|b s1]; simpl in *.
      - right. by subst.
      - injection Heq as -> <-. left. apply lang16_cat; [by apply IH1|done]. }
    destruct (nullable r1) eqn:Hn; split.
    + inversion 1 as [| | |? ? ? Hl|? ? ? Hr| |]; subst; [by apply Hcat|].
      apply nullable_lang16 in Hn. apply IH2 in Hr.
      exact (lang16_cat _ _ [] (a :: s) Hn Hr).
    + intros H. destruct (Hinv H) as [?|[_ H2]]; [by apply lang16_alt_l|].
      apply lang16_alt_r. by apply IH2.
    + apply Hcat.
    + intros H. destruct (Hinv H) as [?|[H1 _]]; [done|].
      apply nullable_lang16 in H1. congruence.
  - split.
    + inversion 1; subst; [apply lang16_alt_l|apply lang16_alt_r];
        by apply IH1 || apply IH2.
    + inversion 1; subst; [apply lang16_alt_l|apply lang16_alt_r];
        by apply IH1 || apply IH2.
  - split.
    + inversion 1 as [| |? ? s1 s2 H1 H2| | | |]; subst.
      apply IH in H1. exact (lang16_star_cons _ (a :: s1) s2 H1 H2).
    + intros H. apply lang16_star_head in H as (s1 & s2 & -> & H1 & H2).
      apply lang16_cat; [by apply IH|done].
Qed.

Lemma matches_prefix_lang16 s : ∀ r,
  matches_prefix r s = true ↔ ∃ p q, s = (p ++ q)%list ∧ lang16 r p.
Proof.
  induction s as [|a s IH]; intros r; simpl.
  - rewrite orb_false_r, nullable_lang16. split.
    + intros H. by exists [], [].
    + intros (p & q & Heq & H). symmetry in Heq.
      apply app_eq_nil in Heq as [-> _]. done.
  - rewrite orb_true_iff, nullable_lang16, IH. split.
    + intros [H|(p & q & -> & H)].
      * by exists [], (a :: s).
      * exists (a :: p), q. split; [done|]. by apply deriv_lang16.
    + intros (p & q & Heq & H). destruct p as [|b p]; [by left|].
      injection Heq as <- ->. right. exists p, q. split; [done|]. by apply deriv_lang16.
Qed.

Lemma lang16_class_inv p s : lang16 (Class p) s → ∃ a, s = [a] ∧ p a = true.
Proof. inversion 1; subst. by eexists. Qed.

Lemma lang16_lit w s : lang16 (Lit w) s ↔ s = units w.
Proof.
  revert s. induction w as [|c w IH]; intros s.
  - split; [by inversion 1|intros ->; constructor].
  - change (Lit (String c w)) with (Cat (Chr c) (Lit w)).
    change (units (String c w)) with (N_of_ascii c :: units w).
    split.
    + inversion 1 as [| |? ? s1 s2 H1 H2 Heq| | | |]; subst.
      apply lang16_class_inv in H1 as (a & -> & Ha). apply N.eqb_eq in Ha. subst a.
      apply IH in H2. by subst.
    + intros ->. apply (lang16_cat _ _ [N_of_ascii c]); [|by apply IH].
      constructor. apply N.eqb_refl.
Qed.

Lemma lang16_star_class (p : N → bool) (s : list N) :
  lang16 (Star (Class p)) s ↔ Forall (λ a, p a = true) s.
Proof.
  split.
  - intros H. remember (Star (Class p)) as r eqn:Hr.
    induction H as [| | | | | |r0 s1 s2 H1 _ H2 IH2]; try done.
    injection Hr as ->. apply lang16_class_inv in H1 as (a & -> & Ha).
    constructor; [done|]. by apply IH2.
  - induction 1 as [|a s Ha _ IH]; [constructor|].
    apply (lang16_star_cons _ [a]); [by constructor|done].
Qed.

Lemma lang16_plus_class (p : N → bool) (s : list N) :
  lang16 (Plus (Class p)) s ↔ s ≠ [] ∧ Forall (λ a, p a = true) s.
Proof.
  unfold Plus. split.
  - inversion 1 as [| |? ? s1 s2 H1 H2| | | |]; subst.
    apply lang16_class_inv in H1 as (a & -> & Ha). apply lang16_star_class in H2.
    split; [done|]. by constructor.
  - intros [Hne Hall]. destruct Hall as [|a s Ha Hall]; [done|].
    apply (lang16_cat _ _ [a]); [by constructor|]. by apply lang16_star_class.
Qed.

End Regex16Facts.

(** X14. [isValidUrl] accepts exactly the strings of 10 to 2048 code units
    that begin with [http://] or [https://] followed by a code unit that is
    not a line terminator, that is, not LF, CR, U+2028 or U+2029; what comes
    after that code unit is not examined. *)
Theorem isValidUrl_accepts_web_addresses (url : list N) :
  Guards.isValidUrl url = true ↔
  (10 ≤ length url ≤ 2048)%nat ∧
  ∃ scheme first rest,
    (scheme = "http://" ∨ scheme = "https://") ∧
    url = (Regex16.units scheme ++ first :: rest)%list ∧
    Regex16.line_terminator first = false.
Proof.
  unfold Guards.isValidUrl.
  destruct (length url <? 10)%nat eqn:H10; cbn [orb].
  { apply Nat.ltb_lt in H10. split; [done|]. intros [? _]. lia. }
  apply Nat.ltb_ge in H10.
  destruct (2048 <? length url)%nat eqn:Hmax.
  { apply Nat.ltb_lt in Hmax. split; [done|]. intros [? _]. lia. }
  apply Nat.ltb_ge in Hmax.
  rewrite matches_prefix_lang16. unfold Guards.URL_PATTERN, Regex16.Dot. split.
  - intros (p & q & Hsplit & Hlang). split; [lia|].
    inversion Hlang as [| |? ? s1 s2 H1 H2| | | |]; subst.
    apply (lang16_lit "http") in H1. subst s1.
    inversion H2 as [| |? ? s3 s4 H3 H4| | | |]; subst.
    inversion H4 as [| |? ? s5 s6 H5 H6| | | |]; subst.
    apply (lang16_lit "://") in H5. subst s5.
    apply lang16_plus_class in H6 as [Hne Hall].
    destruct Hall as [|first tail Hfirst _]; [done|].
    apply negb_true_iff in Hfirst.
    unfold Regex16.Opt in H3.
    inversion H3 as [| | |? ? ? Hs|? ? ? He| |]; subst.
    + apply lang16_class_inv in Hs as (a & -> & Ha). apply N.eqb_eq in Ha. subst a.
      exists "https://", first, (tail ++ q)%list. split; [by right|]. split; [|done].
      cbn. by rewrite <- ?app_assoc.
    + inversion He; subst.
      exists "http://", first, (tail ++ q)%list. split; [by left|]. split; [|done].
      cbn. by rewrite <- ?app_assoc.
  - intros (_ & scheme & first & rest & Hscheme & Hsplit & Hfirst).
    assert (Hone : lang16 (Regex16.Plus
                             (Regex16.Class (λ u, negb (Regex16.line_terminator u))))
                     [first]).
    { apply lang16_plus_class. split; [done|]. repeat constructor. by rewrite Hfirst. }
    assert (Htail : lang16 (Regex16.Cat (Regex16.Lit "://")
                              (Regex16.Plus
                                 (Regex16.Class (λ u, negb (Regex16.line_terminator u)))))
                      (Regex16.units "://" ++ [first])).
    { apply lang16_cat; [by apply lang16_lit|done]. }
    destruct Hscheme as [->| ->].
    + exists (Regex16.units "http://" ++ [first])%list, rest. split.
      { rewrite Hsplit. by rewrite <- app_assoc. }
      apply (lang16_cat _ _ (Regex16.units "http")); [by apply lang16_lit|].
      apply (lang16_cat _ _ []); [|exact Htail].
      apply lang16_alt_r. constructor.
    + exists (Regex16.units "https://" ++ [first])%list, rest. split.
      { rewrite Hsplit. by rewrite <- app_assoc. }
      apply (lang16_cat _ _ (Regex16.units "http")); [by apply lang16_lit|].
      apply (lang16_cat _ _ [N_of_ascii "s"]); [|exact Htail].
      apply lang16_alt_l. constructor. apply N.eqb_refl.
Qed.


(** ** More of the command surface *)

Section CommandFacts.

Lemma validateHistoryEntries_idempotent (l : list HistoryEntry) :
  Guards.validateHistoryEntries (Guards.validateHistoryEntries l)
  = Guards.validateHistoryEntries l.
Proof.
  unfold Guards.validateHistoryEntries. rewrite List_filter_filter.
  apply List.filter_ext. intros x. by destruct (Guards.isHistoryEntry x).
Qed.

Lemma validateBookmarks_idempotent (l : list BookmarkObject) :
  Guards.validateBookmarks (Guards.validateBookmarks l) = Guards.validateBookmarks l.
Proof.
  unfold Guards.validateBookmarks. rewrite List_filter_filter.
  apply List.filter_ext. intros x. by destruct (Guards.isBookmark x).
Qed.

Lemma set_db_Some_same s c : db s = Some c → Main.set_db (Some c) s = s.
Proof. intros <-. apply set_db_same. Qed.

Lemma set_db_None_same s : db s = None → Main.set_db None s = s.
Proof. intros <-. apply set_db_same. Qed.

End CommandFacts.

(** X15. The commands that only read answer with a value, whatever the
    state of the store, open or closed, and leave the state of the main
    process as it is: ['history:get'] resolves to what [getHistory] returns,
    or to the empty list when the store is closed; ['settings:get'],
    ['settings:getAll'], ['bookmark:get'] and ['bookmark:search'] resolve
    for arguments of any type, a string or not. *)
Theorem reading_commands_never_reject
    (s : App) (key folderId query : JsValue) :
  (∃ entries, Main.history_get s = (Main.Resolved entries, s) ∧
              match db s with
              | Some c => Database.getHistory (Some c) = (Returned entries, Some c)
              | None => entries = []
              end)
  ∧ (∃ value, Main.settings_get_any key s = (Main.Resolved value, s))
  ∧ (∃ all, Main.settings_getAll s = (Main.Resolved all, s))
  ∧ (∃ listed, Main.bookmark_get folderId s = (Main.Resolved listed, s))
  ∧ (∃ found, Main.bookmark_search query s = (Main.Resolved found, s)).
Proof.
  destruct (db s) as [c|] eqn:Hdb.
  - pose proof (set_db_Some_same s c Hdb) as Hsame.
    split; [|split; [|split; [|split]]].
    + unfold Main.history_get. rewrite Hdb.
      unfold Database.getHistory, Database.opened, Sqlite.try_catch, Sqlite.bind,
        Sqlite.query, Sqlite.ret. cbn.
      rewrite validateHistoryEntries_idempotent, Hsame. by eexists.
    + unfold Main.settings_get_any. destruct key as [| | |key]; try by eexists.
      change (negb (String.eqb (typeof (VString key)) "string")) with false. cbn iota.
      unfold Main.settings_get. destruct (Guards.isValidSettingKey key); cbn; [|by eexists].
      rewrite Hdb. cbn. rewrite Hsame. by eexists.
    + unfold Main.settings_getAll. rewrite Hdb.
      unfold Database.getAllSettings, Database.opened, Sqlite.try_catch, Sqlite.bind,
        Sqlite.query, Sqlite.ret. cbn. rewrite Hsame. by eexists.
    + unfold Main.bookmark_get. destruct (Main.optional_string folderId); [|by eexists].
      rewrite Hdb, getBookmarks_rows, Hsame. by eexists.
    + unfold Main.bookmark_search. destruct query; try by eexists.
      rewrite Hdb.
      unfold Database.searchBookmarks, Database.opened, Sqlite.try_catch, Sqlite.bind,
        Sqlite.ret, Database.select_bookmarks_like.
      match goal with |- context [if ?b then _ else _] => destruct b end;
        cbn; rewrite Hsame; by eexists.
  - pose proof (set_db_None_same s Hdb) as Hsame.
    split; [|split; [|split; [|split]]].
    + unfold Main.history_get. rewrite Hdb. cbn. rewrite Hsame. by eexists.
    + unfold Main.settings_get_any. destruct key as [| | |key]; try by eexists.
      change (negb (String.eqb (typeof (VString key)) "string")) with false. cbn iota.
      unfold Main.settings_get. destruct (Guards.isValidSettingKey key); cbn; [|by eexists].
      rewrite Hdb. cbn. rewrite Hsame. by eexists.
    + unfold Main.settings_getAll. rewrite Hdb. cbn. rewrite Hsame. by eexists.
    + unfold Main.bookmark_get. destruct (Main.optional_string folderId); [|by eexists].
      rewrite Hdb. cbn. rewrite Hsame. by eexists.
    + unfold Main.bookmark_search. destruct query; try by eexists.
      rewrite Hdb. cbn. rewrite Hsame. by eexists.
Qed.

(** X16. ['settings:set'] validates the key without the white space around
    it and stores the key as it was given: for a valid key with a white-space
    character in front, on a store that accepts a write, the command resolves
    to [true], ['settings:get'] then reads the value under the key with the
    white space, and under the key without it reads what it read before. *)
Theorem settings_set_stores_the_untrimmed_key
    (s : App) (c : Conn) (a : ascii) (key value : string) :
  db s = Some c →
  writes_left c ≠ Some 0%nat →
  Guards.is_space a = true →
  Guards.isValidSettingKey key = true →
  ∃ s',
    Main.settings_set (String a key) value s = (Main.Resolved true, s') ∧
    reply_of (Main.settings_get (String a key) s') = Main.Resolved (Some value) ∧
    reply_of (Main.settings_get key s') = reply_of (Main.settings_get key s).
Proof.
  intros Hdb Hw Ha Hkey.
  assert (Hpadded : Guards.isValidSettingKey (String a key) = true).
  { unfold Guards.isValidSettingKey, Guards.trim in *. by rewrite trim_start_space. }
  assert (Hne : key ≠ String a key).
  { intros Heq. apply (f_equal String.length) in Heq. cbn in Heq. lia. }
  destruct (setSetting_roundtrip_aux c (String a key) value key Hw Hne)
    as (c' & Hset & Hget & Hother).
  exists (Main.set_db (Some c') s). split; [|split].
  - unfold Main.settings_set. by rewrite Hpadded, Hdb, Hset.
  - unfold reply_of, Main.settings_get. rewrite Hpadded. cbn [negb].
    change (db (Main.set_db (Some c') s)) with (Some c'). by rewrite Hget.
  - unfold reply_of, Main.settings_get. rewrite Hkey. cbn [negb].
    change (db (Main.set_db (Some c') s)) with (Some c'). rewrite Hdb.
    revert Hother. unfold Database.getSetting, Database.opened, Sqlite.try_catch,
      Sqlite.query. cbn. by intros [= ->].
Qed.

Lemma settings_set_stores_the_untrimmed_key_witness :
  (db (boot (Some empty_conn)) = Some empty_conn ∧
   writes_left empty_conn ≠ Some 0%nat ∧
   Guards.is_space " " = true ∧
   Guards.isValidSettingKey "theme" = true)
  ∧ ∃ s',
      Main.settings_set " theme" "dark" (boot (Some empty_conn)) = (Main.Resolved true, s') ∧
      reply_of (Main.settings_get " theme" s') = Main.Resolved (Some "dark") ∧
      reply_of (Main.settings_get "theme" s')
      = reply_of (Main.settings_get "theme" (boot (Some empty_conn))).
Proof.
  assert (H1 : db (boot (Some empty_conn)) = Some empty_conn) by reflexivity.
  assert (H2 : writes_left empty_conn ≠ Some 0%nat) by discriminate.
  assert (H3 : Guards.is_space " " = true) by reflexivity.
  assert (H4 : Guards.isValidSettingKey "theme" = true) by reflexivity.
  split; [by repeat split|].
  exact (settings_set_stores_the_untrimmed_key _ _ " " "theme" "dark" H1 H2 H3 H4).
Defined.

Section BookmarkCommandFacts.

Lemma removeBookmark_open (c : Conn) (id : string) :
  ∃ removed c',
    Database.removeBookmark id (Some c) = (Returned removed, Some c') ∧
    bookmarks c' = (if bool_decide (writes_left c = Some 0%nat) then bookmarks c
                    else List.filter (λ r, negb (String.eqb (b_id r) id)) (bookmarks c)).
Proof.
  unfold Database.removeBookmark, Database.opened, Sqlite.try_catch, Sqlite.bind,
    Sqlite.run, Sqlite.ret, Database.delete_bookmark.
  destruct (writes_left c) as [[|n]|]; cbn; eexists _, _; by split.
Qed.

(** What ['bookmark:add'] does with well-typed arguments on a store that
    accepts a write and holds no bookmark whose id is the address. *)
Lemma bookmark_add_row (s : App) (c : Conn) (url title favicon : string)
    (folderId : option string) (now : Z) :
  db s = Some c →
  writes_left c ≠ Some 0%nat →
  Main.blank url = false →
  Main.blank title = false →
  (url ∉ b_id <$> bookmarks c) →
  ∃ c' added,
    Main.bookmark_add (VString url) (VString title) (VString favicon)
      (Database.js_of_option folderId) now s
    = (Main.Resolved added, Main.set_db (Some c') s) ∧
    bookmarks c'
    = (bookmarks c ++
         [row_of_bookmark_add url title favicon folderId
            (Database.count_bookmarks None c) now])%list ∧
    bo_id added = VString url ∧ bo_url added = VString title ∧
    bo_title added = VString favicon.
Proof.
  intros Hdb Hw Hurl Htitle Hfresh.
  assert (Hex : existsb (λ r, String.eqb (b_id r) url) (bookmarks c) = false).
  { apply not_true_is_false. intros Hex. apply existsb_exists in Hex as (r & Hr & Hid).
    apply String.eqb_eq in Hid. apply Hfresh. rewrite <- Hid.
    apply list_elem_of_fmap_2. by apply list_elem_of_In. }
  unfold Main.bookmark_add. rewrite Hurl, Htitle. cbn [Main.optional_string].
  assert (Main.optional_string (Database.js_of_option folderId) = Some folderId) as ->
    by by destruct folderId.
  rewrite Hdb.
  unfold Database.addBookmark_untyped, Database.opened, Sqlite.try_catch, Sqlite.bind,
    Sqlite.run, Sqlite.query, Sqlite.ret, Sqlite.throw, Database.insert_bookmark_untyped,
    Database.insert_bookmark.
  rewrite Hex.
  destruct (writes_left c) as [[|n]|]; [done| |]; cbn; eexists _, _; by repeat split.
Qed.

End BookmarkCommandFacts.

(** X17. ['bookmark:remove'] resolves to [true] whatever [removeBookmark]
    did: for every valid id and open store the command resolves to [true],
    also when no bookmark has the id and when the store accepts no write, in
    which case the bookmarks are left as they were. *)
Theorem bookmark_remove_resolves_true_whatever_happened
    (s : App) (c : Conn) (id : string) :
  db s = Some c →
  Guards.isValidBookmarkId id = true →
  ∃ c',
    Main.bookmark_remove id s = (Main.Resolved true, Main.set_db (Some c') s) ∧
    bookmarks c' = (if bool_decide (writes_left c = Some 0%nat) then bookmarks c
                    else List.filter (λ r, negb (String.eqb (b_id r) id)) (bookmarks c)).
Proof.
  intros Hdb Hid. destruct (removeBookmark_open c id) as (removed & c' & Hcall & Hrows).
  exists c'. split; [|done].
  unfold Main.bookmark_remove. by rewrite Hid, Hdb, Hcall.
Qed.

Lemma bookmark_remove_resolves_true_whatever_happened_witness :
  (db with_three_bookmarks = Some three_bookmarks ∧
   Guards.isValidBookmarkId "no-such-bookmark" = true)
  ∧ ∃ c',
      Main.bookmark_remove "no-such-bookmark" with_three_bookmarks
      = (Main.Resolved true, Main.set_db (Some c') with_three_bookmarks) ∧
      bookmarks c' = bookmarks three_bookmarks.
Proof.
  assert (H1 : db with_three_bookmarks = Some three_bookmarks) by reflexivity.
  assert (H2 : Guards.isValidBookmarkId "no-such-bookmark" = true) by reflexivity.
  split; [by split|].
  exact (bookmark_remove_resolves_true_whatever_happened _ _ "no-such-bookmark" H1 H2).
Defined.

(** X18. ['bookmark:add'] without a favicon always rejects and changes
    nothing: the handler passes its four arguments to the five parameters of
    [addBookmark], so the favicon stands for the title, and a title that is
    [undefined] is refused by the store.  This holds for every state of the
    main process and for arguments of any type. *)
Theorem bookmark_add_without_favicon_rejects
    (s : App) (url title folderId : JsValue) (now : Z) :
  ∃ error, Main.bookmark_add url title VUndefined folderId now s = (Main.Rejected error, s).
Proof.
  unfold Main.bookmark_add.
  destruct url as [| | |url]; try by eexists.
  destruct (Main.blank url); [by eexists|].
  destruct title as [| | |title]; try by eexists.
  destruct (Main.blank title); [by eexists|].
  cbn [Main.optional_string].
  destruct (Main.optional_string folderId) as [folder|]; [|by eexists].
  destruct (db s) as [c|] eqn:Hdb.
  - unfold Database.addBookmark_untyped, Database.opened, Sqlite.try_catch, Sqlite.bind,
      Sqlite.run, Sqlite.query, Sqlite.ret, Sqlite.throw, Database.insert_bookmark_untyped.
    destruct (writes_left c) as [[|n]|]; cbn; rewrite (set_db_Some_same s c Hdb); by eexists.
  - cbn. rewrite (set_db_None_same s Hdb). by eexists.
Qed.

(** X19. ['bookmark:add'] with a favicon files the bookmark under the wrong
    columns: on a store that accepts a write and holds no bookmark whose id is
    the address, the command resolves, and the row it inserts has the address
    as id, the title as address, the favicon as title and the folder id as
    favicon, in no folder. *)
Theorem bookmark_add_shifts_its_arguments
    (s : App) (c : Conn) (url title favicon : string) (folderId : option string) (now : Z) :
  db s = Some c →
  writes_left c ≠ Some 0%nat →
  Main.blank url = false →
  Main.blank title = false →
  (url ∉ b_id <$> bookmarks c) →
  ∃ c' added row,
    Main.bookmark_add (VString url) (VString title) (VString favicon)
      (Database.js_of_option folderId) now s
    = (Main.Resolved added, Main.set_db (Some c') s) ∧
    bookmarks c' = (bookmarks c ++ [row])%list ∧
    b_id row = url ∧ b_url row = Some title ∧ b_title row = favicon ∧
    b_favicon row = folderId ∧ b_folder_id row = None ∧
    bo_id added = VString url ∧ bo_url added = VString title ∧
    bo_title added = VString favicon.
Proof.
  intros Hdb Hw Hurl Htitle Hfresh.
  destruct (bookmark_add_row s c url title favicon folderId now Hdb Hw Hurl Htitle Hfresh)
    as (c' & added & Hcall & Hrows & Hid & Hu & Ht).
  eexists c', added, _. split; [exact Hcall|]. split; [exact Hrows|]. by repeat split.
Qed.

Lemma bookmark_add_shifts_its_arguments_witness :
  (db (boot (Some empty_conn)) = Some empty_conn ∧
   writes_left empty_conn ≠ Some 0%nat ∧
   Main.blank "https://example.org/" = false ∧
   Main.blank "Example" = false ∧
   ("https://example.org/" ∉ b_id <$> bookmarks empty_conn))
  ∧ ∃ c' added row,
      Main.bookmark_add (VString "https://example.org/") (VString "Example")
        (VString "https://example.org/favicon.ico") (VString "work") 1700000000000
        (boot (Some empty_conn))
      = (Main.Resolved added, Main.set_db (Some c') (boot (Some empty_conn))) ∧
      bookmarks c' = (bookmarks empty_conn ++ [row])%list ∧
      b_id row = "https://example.org/" ∧ b_url row = Some "Example" ∧
      b_title row = "https://example.org/favicon.ico" ∧
      b_favicon row = Some "work" ∧ b_folder_id row = None ∧
      bo_id added = VString "https://example.org/" ∧ bo_url added = VString "Example" ∧
      bo_title added = VString "https://example.org/favicon.ico".
Proof.
  assert (H1 : db (boot (Some empty_conn)) = Some empty_conn) by reflexivity.
  assert (H2 : writes_left empty_conn ≠ Some 0%nat) by discriminate.
  assert (H3 : Main.blank "https://example.org/" = false) by reflexivity.
  assert (H4 : Main.blank "Example" = false) by reflexivity.
  assert (H5 : "https://example.org/" ∉ b_id <$> bookmarks empty_conn)
    by apply not_elem_of_nil.
  split; [by repeat split|].
  exact (bookmark_add_shifts_its_arguments _ _ _ _ "https://example.org/favicon.ico"
           (Some "work") 1700000000000 H1 H2 H3 H4 H5).
Defined.

(** X20. A bookmark added through ['bookmark:add'] for an address that
    holds a character other than a letter, a digit or a hyphen cannot be
    removed through ['bookmark:remove']: the id of its row is the address,
    which the command refuses as an id, and the row stays. *)
Theorem bookmark_added_by_command_cannot_be_removed
    (s : App) (c : Conn) (url title favicon : string) (folderId : option string) (now : Z) :
  db s = Some c →
  writes_left c ≠ Some 0%nat →
  Main.blank url = false →
  Main.blank title = false →
  (url ∉ b_id <$> bookmarks c) →
  Exists (λ a, Regex.label_char a = false) (list_ascii_of_string url) →
  ∃ c' added,
    Main.bookmark_add (VString url) (VString title) (VString favicon)
      (Database.js_of_option folderId) now s
    = (Main.Resolved added, Main.set_db (Some c') s) ∧
    (url ∈ b_id <$> bookmarks c') ∧
    Main.bookmark_remove url (Main.set_db (Some c') s)
    = (Main.Rejected (Error "ID de bookmark inválido"), Main.set_db (Some c') s).
Proof.
  intros Hdb Hw Hurl Htitle Hfresh Hchar.
  destruct (bookmark_add_row s c url title favicon folderId now Hdb Hw Hurl Htitle Hfresh)
    as (c' & added & Hcall & Hrows & _).
  exists c', added. split; [exact Hcall|]. split.
  - rewrite Hrows, fmap_app. apply elem_of_app. right. apply list_elem_of_here.
  - assert (Hinvalid : Guards.isValidBookmarkId url = false).
    { apply not_true_is_false. intros Hvalid.
      unfold Guards.isValidBookmarkId, Regex.test_whole in Hvalid.
      destruct (_ || _)%bool; [done|].
      apply matches_lang, lang_plus_class in Hvalid as [_ Hall].
      apply Exists_exists in Hchar as (a & Ha & Hbad).
      rewrite Forall_forall in Hall. specialize (Hall a Ha). congruence. }
    unfold Main.bookmark_remove. by rewrite Hinvalid.
Qed.

Lemma bookmark_added_by_command_cannot_be_removed_witness :
  (db (boot (Some empty_conn)) = Some empty_conn ∧
   writes_left empty_conn ≠ Some 0%nat ∧
   Main.blank "https://example.org/" = false ∧
   Main.blank "Example" = false ∧
   ("https://example.org/" ∉ b_id <$> bookmarks empty_conn) ∧
   Exists (λ a, Regex.label_char a = false) (list_ascii_of_string "https://example.org/"))
  ∧ ∃ c' added,
      Main.bookmark_add (VString "https://example.org/") (VString "Example")
        (VString "https://example.org/favicon.ico") VUndefined 1700000000000
        (boot (Some empty_conn))
      = (Main.Resolved added, Main.set_db (Some c') (boot (Some empty_conn))) ∧
      ("https://example.org/" ∈ b_id <$> bookmarks c') ∧
      Main.bookmark_remove "https://example.org/"
        (Main.set_db (Some c') (boot (Some empty_conn)))
      = (Main.Rejected (Error "ID de bookmark inválido"),
         Main.set_db (Some c') (boot (Some empty_conn))).
Proof.
  assert (H1 : db (boot (Some empty_conn)) = Some empty_conn) by reflexivity.
  assert (H2 : writes_left empty_conn ≠ Some 0%nat) by discriminate.
  assert (H3 : Main.blank "https://example.org/" = false) by reflexivity.
  assert (H4 : Main.blank "Example" = false) by reflexivity.
  assert (H5 : "https://example.org/" ∉ b_id <$> bookmarks empty_conn)
    by apply not_elem_of_nil.
  assert (H6 : Exists (λ a, Regex.label_char a = false)
                 (list_ascii_of_string "https://example.org/")).
  { cbn. do 5 apply Exists_cons_tl. by apply Exists_cons_hd. }
  split; [by repeat split|].
  exact (bookmark_added_by_command_cannot_be_removed _ _ _ _
           "https://example.org/favicon.ico" None 1700000000000 H1 H2 H3 H4 H5 H6).
Defined.

(** X21. ['downloads:remove'] never rejects: whatever its argument and the
    state of the store, the command resolves to a boolean, and it resolves to
    [true] only when its argument is a non-empty string and the open store
    held a download with that id. *)
Theorem downloads_remove_never_rejects (s : App) (id : JsValue) :
  ∃ removed s',
    Main.downloads_remove id s = (Main.Resolved removed, s') ∧
    if removed
    then ∃ i c, id = VString i ∧ i ≠ EmptyString ∧ db s = Some c ∧
                i ∈ d_id <$> downloads c
    else True.
Proof.
  unfold Main.downloads_remove.
  destruct id as [| | |i]; try by eexists false, _.
  destruct (String.eqb_spec i EmptyString) as [->|Hne]; [by eexists false, _|].
  destruct (db s) as [c|] eqn:Hdb; [|by eexists false, _].
  unfold Database.removeDownload, Database.opened, Sqlite.try_catch, Sqlite.bind,
    Sqlite.run, Sqlite.ret, Database.delete_download.
  destruct (writes_left c) as [[|n]|]; [by eexists false, _| |].
  all: cbn; eexists _, _; (split; [reflexivity|]).
  all: destruct (List.filter (λ r, String.eqb (d_id r) i) (downloads c))
         as [|r rows] eqn:Hrows; [done|]; cbn.
  all: exists i, c; repeat split; try done.
  all: assert (Hr : In r (List.filter (λ r, String.eqb (d_id r) i) (downloads c)))
         by (rewrite Hrows; by left).
  all: apply List.filter_In in Hr as [Hr Hid]; apply String.eqb_eq in Hid; subst i.
  all: by apply list_elem_of_fmap_2, list_elem_of_In.
Qed.


(** ** The books of the tab coordinator *)

Section BooksFacts.

Lemma switchToTab_maps id s :
  tabInfo (Main.switchToTab id s) = tabInfo s ∧
  tabFindBarStates (Main.switchToTab id s) = tabFindBarStates s.
Proof.
  unfold Main.switchToTab, Main.leave_active_tab, Main.stopFindInPage,
    Main.removeBrowserView.
  repeat case_match; done.
Qed.

Lemma switchToTab_ids id s : open_tab_ids (Main.switchToTab id s) = open_tab_ids s.
Proof.
  destruct (decide (id ∈ open_tab_ids s)) as [Hin|Hout].
  - by destruct (switchToTab_known id s Hin) as (_ & _ & Hk & _).
  - by rewrite switchToTab_unknown.
Qed.

Lemma loadURL_maps id url s :
  tabInfo (Main.loadURL id url s) = tabInfo s ∧
  tabFindBarStates (Main.loadURL id url s) = tabFindBarStates s.
Proof. unfold Main.loadURL. by case_match. Qed.

Lemma createNewTab_maps uuid url s :
  (∃ info, tabInfo (Main.createNewTab uuid url s) = <[uuid := info]> (tabInfo s) ∧
           ti_url info = Js.or_str url "hera://new-tab") ∧
  tabFindBarStates (Main.createNewTab uuid url s) = tabFindBarStates s.
Proof.
  unfold Main.createNewTab. cbn [tabInfo tabFindBarStates Main.send].
  rewrite (proj1 (loadURL_maps _ _ _)), (proj2 (loadURL_maps _ _ _)).
  rewrite (proj1 (switchToTab_maps _ _)), (proj2 (switchToTab_maps _ _)).
  split; [|reflexivity]. eexists. split; reflexivity.
Qed.

Lemma books_agree_createNewTab uuid url s :
  books_agree s → books_agree (Main.createNewTab uuid url s).
Proof.
  intros (Hnd & Hinfo & Hfind).
  destruct (createNewTab_spec uuid url s) as (_ & Hk & _).
  destruct (createNewTab_maps uuid url s) as ((info & Hti & _) & Hfb).
  assert (Hsub : ∀ id, id ∈ open_tab_ids s →
                       id ∈ open_tab_ids (Main.createNewTab uuid url s)).
  { intros id Hid. rewrite Hk. destruct (JsMap.has (tabs s) uuid); [done|].
    apply elem_of_app. by left. }
  split; [|split].
  - rewrite Hk. destruct (JsMap.has (tabs s) uuid) eqn:Hhas; [done|].
    apply NoDup_app. split; [done|]. split; [|apply NoDup_singleton].
    intros x Hx Hx'. apply list_elem_of_singleton in Hx'. subst x.
    apply has_keys in Hx. congruence.
  - intros id. rewrite Hti, Hk.
    destruct (decide (id = uuid)) as [->|Hne].
    + rewrite lookup_insert_eq. split; [|by eexists]. intros _.
      destruct (JsMap.has (tabs s) uuid) eqn:Hhas; [by apply has_keys|].
      apply elem_of_app. right. apply list_elem_of_here.
    + rewrite lookup_insert_ne by done. rewrite Hinfo.
      destruct (JsMap.has (tabs s) uuid); [done|].
      rewrite elem_of_app, list_elem_of_singleton.
      split; [by left|]. by intros [?|?].
  - intros id Hid. rewrite Hfb in Hid. by apply Hsub, Hfind.
Qed.

Lemma books_agree_switchToTab id s :
  books_agree s → books_agree (Main.switchToTab id s).
Proof.
  intros (Hnd & Hinfo & Hfind). unfold books_agree.
  destruct (switchToTab_maps id s) as [-> ->]. by rewrite switchToTab_ids.
Qed.

Lemma discard_tab_maps id s :
  tabInfo (Main.discard_tab id s) = delete id (tabInfo s) ∧
  tabFindBarStates (Main.discard_tab id s) = delete id (tabFindBarStates s).
Proof.
  unfold Main.discard_tab, Main.stopFindInPage, Main.removeBrowserView.
  repeat case_match; done.
Qed.

Lemma elem_of_filter_ne (id k : string) (l : list string) :
  k ∈ List.filter (λ k', negb (String.eqb k' id)) l ↔ k ∈ l ∧ k ≠ id.
Proof.
  split.
  - intros H. apply list_elem_of_In, List.filter_In in H as [H Hne].
    split; [by apply list_elem_of_In|]. by destruct (String.eqb_spec k id).
  - intros [H Hne]. apply list_elem_of_In, List.filter_In.
    split; [by apply list_elem_of_In|]. by destruct (String.eqb_spec k id).
Qed.

Lemma NoDup_List_filter {A} (p : A → bool) (l : list A) :
  NoDup l → NoDup (List.filter p l).
Proof.
  induction 1 as [|x l Hx _ IH]; cbn; [constructor|].
  destruct (p x); [|done]. constructor; [|done].
  intros Hin. apply Hx. apply list_elem_of_In, List.filter_In in Hin as [Hin _].
  by apply list_elem_of_In.
Qed.

Lemma books_agree_discard_tab id s :
  books_agree s → books_agree (Main.discard_tab id s).
Proof.
  intros (Hnd & Hinfo & Hfind).
  destruct (discard_tab_frame id s) as (Hk & _).
  destruct (discard_tab_maps id s) as [Hti Hfb].
  split; [|split].
  - rewrite Hk. by apply NoDup_List_filter.
  - intros k. rewrite Hti, Hk, elem_of_filter_ne.
    destruct (decide (k = id)) as [->|Hne].
    + rewrite lookup_delete_eq. split; [by intros [? ?]|by intros [_ ?]].
    + rewrite lookup_delete_ne by done. rewrite Hinfo.
      split; [by split|by intros [? _]].
  - intros k. rewrite Hfb, Hk, elem_of_filter_ne.
    destruct (decide (k = id)) as [->|Hne].
    + rewrite lookup_delete_eq. by intros [? ?].
    + rewrite lookup_delete_ne by done. intros Hk'. split; [by apply Hfind|done].
Qed.

Lemma books_agree_show_another_tab id uuid s :
  books_agree s → books_agree (Main.show_another_tab id uuid s).
Proof.
  intros Hs. unfold Main.show_another_tab.
  case_bool_decide; [|done].
  destruct (JsMap.keys (tabs s)).
  - by apply books_agree_createNewTab.
  - by apply books_agree_switchToTab.
Qed.

Lemma save_tabs_findbar s :
  tabFindBarStates (Main.save_tabs s) = tabFindBarStates s.
Proof.
  unfold Main.save_tabs.
  by destruct (Database.saveTabsState (Main.tabs_array s) (db s)).
Qed.

Lemma books_agree_save_tabs s : books_agree s → books_agree (Main.save_tabs s).
Proof.
  intros Hs. destruct (save_tabs_frame s) as (Ht & _ & _ & _ & Hti).
  unfold books_agree, open_tab_ids. by rewrite Ht, Hti, save_tabs_findbar.
Qed.

Lemma books_agree_closeTab id uuid s :
  books_agree s → books_agree (Main.closeTab id uuid s).
Proof.
  intros Hs. unfold Main.closeTab. destruct (JsMap.has (tabs s) id); [|done].
  cbn [negb]. by apply books_agree_save_tabs, books_agree_show_another_tab,
    books_agree_discard_tab.
Qed.

Lemma books_agree_run_immediate s : books_agree s → books_agree (Main.run_immediate s).
Proof.
  unfold Main.run_immediate. by destruct (immediates s) as [|[] ?].
Qed.

Lemma books_agree_step s cmd : books_agree s → books_agree (Main.step s cmd).
Proof.
  intros Hs. destruct cmd; cbn [Main.step].
  - by apply books_agree_createNewTab.
  - by apply books_agree_switchToTab.
  - by apply books_agree_closeTab.
  - by apply books_agree_run_immediate.
Qed.

Lemma books_agree_update_tabInfo id f s :
  books_agree s → books_agree (Main.update_tabInfo id f s).
Proof.
  intros (Hnd & Hinfo & Hfind). unfold Main.update_tabInfo.
  destruct (tabInfo s !! id) as [info|] eqn:Hid; [|done].
  split; [done|]. split; [|done]. intros k. cbn.
  destruct (decide (k = id)) as [->|Hne].
  - rewrite lookup_insert_eq. split; [|by eexists]. intros _. apply Hinfo. by eexists.
  - by rewrite lookup_insert_ne.
Qed.

Lemma update_tabInfo_frame id f s :
  tabs (Main.update_tabInfo id f s) = tabs s ∧
  activeTabId (Main.update_tabInfo id f s) = activeTabId s.
Proof. unfold Main.update_tabInfo. by destruct (tabInfo s !! id). Qed.

Lemma update_tabInfo_db id f s : db (Main.update_tabInfo id f s) = db s.
Proof. unfold Main.update_tabInfo. by destruct (tabInfo s !! id). Qed.

Lemma books_agree_set_db d s : books_agree s → books_agree (Main.set_db d s).
Proof. done. Qed.

(** The events of a view change neither the open tabs nor the active
    one. *)
Lemma listener_frame new_URL s e :
  match e with
  | DidFinishLoad _ _ _ _ | DidNavigate _ _ | PageTitleUpdated _ _
  | PageFaviconUpdated _ _ _ => True
  | _ => False
  end →
  tabs (handle new_URL s e) = tabs s ∧ activeTabId (handle new_URL s e) = activeTabId s.
Proof.
  destruct e as [| | | |id title url now|id url|id title|id url favs]; try done; intros _;
    cbn [handle].
  - unfold Main.on_did_finish_load.
    repeat (case_match; cbn [snd tabs activeTabId Main.set_db]);
      by repeat match goal with
        | |- context [Main.update_tabInfo ?i ?f ?s] =>
            destruct (update_tabInfo_frame i f s) as [-> ->]
        end.
  - apply update_tabInfo_frame.
  - apply update_tabInfo_frame.
  - unfold Main.on_page_favicon_updated. repeat case_match; cbn [snd]; try done;
      apply update_tabInfo_frame.
Qed.

Lemma books_agree_listener new_URL s e :
  match e with
  | DidFinishLoad _ _ _ _ | DidNavigate _ _ | PageTitleUpdated _ _
  | PageFaviconUpdated _ _ _ => True
  | _ => False
  end →
  books_agree s → books_agree (handle new_URL s e).
Proof.
  destruct e as [| | | |id title url now|id url|id title|id url favs]; try done;
    intros _ Hs; cbn [handle].
  - unfold Main.on_did_finish_load.
    repeat (case_match; cbn [snd]);
      try apply books_agree_set_db; by apply books_agree_update_tabInfo.
  - by apply books_agree_update_tabInfo.
  - by apply books_agree_update_tabInfo.
  - unfold Main.on_page_favicon_updated. repeat case_match; cbn [snd]; try done;
      by apply books_agree_update_tabInfo.
Qed.

Lemma settled_step s cmd : settled s → settled (Main.step s cmd).
Proof.
  intros [[Hnil Hact]|Hopen]; [|right; by apply step_active_open].
  destruct cmd as [uuid url|id|id uuid|]; cbn [Main.step].
  - right. apply createNewTab_active_open.
  - left. rewrite switchToTab_unknown; [done|].
    unfold open_tab_ids. rewrite Hnil. apply not_elem_of_nil.
  - left. unfold Main.closeTab. by rewrite Hnil.
  - left. by destruct (run_immediate_frame s) as (-> & -> & _).
Qed.

Lemma settled_frame s s' :
  tabs s' = tabs s → activeTabId s' = activeTabId s → settled s → settled s'.
Proof.
  intros Ht Ha. unfold settled, active_tab_open, open_tab_ids. by rewrite Ht, Ha.
Qed.

Lemma handle_keeps_the_books new_URL s e :
  settled s ∧ books_agree s → settled (handle new_URL s e) ∧ books_agree (handle new_URL s e).
Proof.
  intros [Hset Hbooks].
  destruct e as [cmd|id|id uuid|visible|id title url now|id url|id title|id url favs].
  - split; [by apply settled_step|by apply books_agree_step].
  - cbn [handle]. unfold Main.tab_switch. destruct (Guards.isValidTabId id); [|done].
    split; [apply (settled_step s (Main.SwitchTab id) Hset)
           |by apply books_agree_switchToTab].
  - cbn [handle]. unfold Main.tab_close. destruct (Guards.isValidTabId id); [|done].
    split; [apply (settled_step s (Main.CloseTab id uuid) Hset)
           |by apply books_agree_closeTab].
  - cbn [handle]. unfold Main.find_bar_visibility.
    destruct (activeTabId s) as [active|] eqn:Hact; [|done].
    destruct (String.eqb active EmptyString); [done|]. cbn [negb].
    split; [done|].
    destruct Hbooks as (Hnd & Hinfo & Hfind). split; [done|]. split; [done|].
    intros k. cbn. destruct (decide (k = active)) as [->|Hne].
    + intros _. destruct Hset as [[_ Hnone]|(a & Ha & Hin)]; [congruence|].
      rewrite Hact in Ha. injection Ha as <-. exact Hin.
    + rewrite lookup_insert_ne by done. apply Hfind.
  - split; [|by apply books_agree_listener].
    eapply settled_frame; [..|exact Hset]; by apply listener_frame.
  - split; [|by apply books_agree_listener].
    eapply settled_frame; [..|exact Hset]; by apply listener_frame.
  - split; [|by apply books_agree_listener].
    eapply settled_frame; [..|exact Hset]; by apply listener_frame.
  - split; [|by apply books_agree_listener].
    eapply settled_frame; [..|exact Hset]; by apply listener_frame.
Qed.

Lemma handle_all_keeps_the_books new_URL events : ∀ s,
  settled s ∧ books_agree s →
  settled (handle_all new_URL events s) ∧ books_agree (handle_all new_URL events s).
Proof.
  induction events as [|e events IH]; intros s Hs; [done|].
  apply IH. by apply handle_keeps_the_books.
Qed.

Lemma boot_books d : settled (boot d) ∧ books_agree (boot d).
Proof.
  split; [by left|]. split; [constructor|]. split.
  - intros id. cbn. rewrite lookup_empty. split; [by intros [? ?]|].
    intros H. by apply elem_of_nil in H.
  - intros id. cbn. rewrite lookup_empty. by intros [? ?].
Qed.

End BooksFacts.

(** X22. The books of the coordinator agree in every state the main
    process reaches, whatever commands the renderer sends and whatever the
    views of the tabs report, in any order: no id is open twice, a tab has an
    entry in [tabInfo] exactly when it is open, so an event of a closed tab
    never brings its entry back, only open tabs have a find bar state, and,
    once a tab has been opened, the active id names an open tab. *)
Theorem coordinator_books_agree
    (new_URL : string → option Main.Url) (d : option Conn) (events : list Event) :
  books_agree (handle_all new_URL events (boot d))
  ∧ settled (handle_all new_URL events (boot d)).
Proof.
  destruct (handle_all_keeps_the_books new_URL events (boot d) (boot_books d)). by split.
Qed.


(** ** Saving the open tabs and restoring them *)

Section SessionFacts.











End SessionFacts.



Section RestoreFacts.

Variable uuid : nat → string.


End RestoreFacts.






(** ** The listeners of a tab *)

(** X25. What a finished load leaves in the history: with the store open
    and accepting its writes, the [did-finish-load] listener leaves the store
    as it is for a page under [hera://] and for an empty address; for any
    other address the history then holds a row of that address whose
    timestamp is the clock of the call and whose title is the title of the
    page, or the address when the page has no title, and the table has grown
    by one row exactly when it held no row of the address. *)
Theorem finished_load_goes_to_history
    (s : App) (c : Conn) (id title url : string) (now : Z) :
  db s = Some c →
  writes_left c = None →
  ∃ c',
    db (Main.on_did_finish_load id title url now s).2 = Some c' ∧
    if Js.startsWith url "hera://" || String.eqb url EmptyString
    then c' = c
    else
      (∃ r, r ∈ history c' ∧ h_url r = url ∧ h_timestamp r = now ∧
            h_title r = Js.or_str (Some title) url) ∧
      length (history c')
      = if bool_decide (url ∈ h_url <$> history c) then length (history c)
        else S (length (history c)).
Proof.
  intros Hdb Hw. unfold Main.on_did_finish_load.
  destruct (Js.startsWith url "hera://") eqn:Hint.
  { exists c. cbn [snd orb]. by rewrite update_tabInfo_db. }
  cbn [orb negb andb].
  set (s1 := if negb (String.eqb title EmptyString) then Main.update_tabInfo _ _ _ else _).
  assert (Hdb1 : db s1 = Some c).
  { unfold s1. destruct (negb _); by rewrite update_tabInfo_db. }
  destruct (String.eqb url EmptyString) eqn:Hempty; cbn [negb andb snd].
  { by exists c. }
  set (v := {| v_url := url; v_title := Js.or_str (Some title) url;
               v_favicon := None; v_now := now |}).
  destruct (record_visit_external c v Hw Hint) as (c' & Hc' & _ & Hh).
  unfold record_visit in Hc'. cbn [v_url v_title v_favicon v_now v] in Hc'.
  rewrite Hdb1.
  destruct (Database.addHistoryEntry url (Js.or_str (Some title) url) None now (Some c))
    as [o db'] eqn:Hcall.
  cbn [snd] in Hc'. subst db'. exists c'. split; [done|].
  rewrite Hh. cbn [v_url v_title v_favicon v_now v].
  destruct (Database.select_history_by_url url c) as [row|] eqn:Hsel.
  - unfold Database.select_history_by_url in Hsel.
    apply List.find_some in Hsel as [Hin Hu]. apply String.eqb_eq in Hu.
    apply list_elem_of_In in Hin. split.
    + exists (Database.visit_again now (Js.or_str (Some title) url) None row).
      split; [|done]. apply list_elem_of_fmap. exists row. by rewrite Z.eqb_refl.
    + rewrite length_map. rewrite bool_decide_eq_true_2; [done|].
      rewrite <- Hu. by apply list_elem_of_fmap_2.
  - split.
    + eexists. split; [apply elem_of_app; right; apply list_elem_of_here|done].
    + rewrite length_app. cbn [length]. rewrite bool_decide_eq_false_2; [lia|].
      intros Hin. apply list_elem_of_fmap in Hin as (r & Hr & Hin).
      unfold Database.select_history_by_url in Hsel.
      apply list_elem_of_In in Hin.
      pose proof (List.find_none _ _ Hsel r Hin) as Hno. cbn in Hno.
      rewrite <- Hr, String.eqb_refl in Hno. done.
Qed.

Lemma finished_load_goes_to_history_witness :
  (db (boot (Some visited_store)) = Some visited_store ∧
   writes_left visited_store = None)
  ∧ ∃ c',
      db (Main.on_did_finish_load "t1" EmptyString "https://rocq-prover.org/" 500
            (boot (Some visited_store))).2 = Some c' ∧
      (∃ r, r ∈ history c' ∧ h_url r = "https://rocq-prover.org/" ∧ h_timestamp r = 500 ∧
            h_title r = "https://rocq-prover.org/") ∧
      length (history c') = 3%nat.
Proof.
  assert (H1 : db (boot (Some visited_store)) = Some visited_store) by reflexivity.
  assert (H2 : writes_left visited_store = None) by reflexivity.
  split; [by split|].
  exact (finished_load_goes_to_history (boot (Some visited_store)) visited_store
           "t1" EmptyString "https://rocq-prover.org/" 500 H1 H2).
Defined.

(** ** The address of a favicon *)

Section FaviconFacts.

Lemma split_nonempty (sep : ascii) (s : string) : Main.split sep s ≠ [].
Proof.
  destruct s as [|a s]; [done|]. cbn.
  destruct (Ascii.eqb a sep); [done|]. by destruct (Main.split sep s).
Qed.

Lemma split_app_sep (sep : ascii) (y : string) : ∀ x,
  Main.split sep (x +:+ String sep y) = (Main.split sep x ++ Main.split sep y)%list.
Proof.
  induction x as [|a x IH].
  - change (EmptyString +:+ String sep y) with (String sep y).
    cbn [Main.split app]. by rewrite Ascii.eqb_refl.
  - change (String a x +:+ String sep y) with (String a (x +:+ String sep y)).
    cbn [Main.split]. rewrite IH.
    destruct (Ascii.eqb a sep); [done|].
    pose proof (split_nonempty sep x) as Hne.
    by destruct (Main.split sep x).
Qed.

Lemma split_no_sep (sep : ascii) : ∀ s,
  sep ∉ list_ascii_of_string s → Main.split sep s = [s].
Proof.
  induction s as [|a s IH]; intros Hs; [done|].
  cbn in Hs. apply not_elem_of_cons in Hs as [Ha Hs]. cbn.
  destruct (Ascii.eqb_spec a sep) as [->|_]; [done|]. by rewrite IH.
Qed.

Lemma join_split (sep : ascii) : ∀ s,
  Main.join (String sep EmptyString) (Main.split sep s) = s.
Proof.
  induction s as [|a s IH]; [done|].
  pose proof (split_nonempty sep s) as Hne. cbn [Main.split].
  destruct (Ascii.eqb_spec a sep) as [->|_].
  - destruct (Main.split sep s) as [|p ps] eqn:Hs; [done|].
    change (Main.join (String sep EmptyString) (EmptyString :: p :: ps))
      with (EmptyString +:+ String sep EmptyString
            +:+ Main.join (String sep EmptyString) (p :: ps)).
    by rewrite IH.
  - destruct (Main.split sep s) as [|p [|q ps]] eqn:Hs; [done| |].
    + cbn in IH. cbn. by rewrite IH.
    + change (Main.join (String sep EmptyString) (String a p :: q :: ps))
        with (String a (p +:+ String sep EmptyString
                        +:+ Main.join (String sep EmptyString) (q :: ps))).
      by rewrite <- IH.
Qed.

Lemma startsWith_slashes (s : string) :
  Js.startsWith s "//" = true → ∃ rest, s = String "/" (String "/" rest).
Proof.
  unfold Js.startsWith. intros H. apply prefix_list in H as [q Hq].
  exists (string_of_list_ascii q).
  by rewrite <- (string_of_list_ascii_of_string s), Hq.
Qed.

Lemma startsWith_append (p s : string) : Js.startsWith (p +:+ s) p = true.
Proof.
  unfold Js.startsWith. apply prefix_list. exists (list_ascii_of_string s).
  apply list_ascii_of_string_app.
Qed.

End FaviconFacts.

(** X26. A resolved favicon address resolves to itself: when the page
    address does not parse, or parses with the protocol [http:] or [https:],
    resolving the result of [resolveFaviconUrl] once more against the same
    page gives the same address. *)
Theorem resolveFaviconUrl_settles
    (new_URL : string → option Main.Url) (faviconUrl baseUrl : string) :
  (∀ u, new_URL baseUrl = Some u →
        Main.protocol u = "http:" ∨ Main.protocol u = "https:") →
  Main.resolveFaviconUrl new_URL (Main.resolveFaviconUrl new_URL faviconUrl baseUrl) baseUrl
  = Main.resolveFaviconUrl new_URL faviconUrl baseUrl.
Proof.
  intros Hweb.
  assert (Habs : ∀ p x, p = "http://" ∨ p = "https://" →
                        Main.resolveFaviconUrl new_URL (p +:+ x) baseUrl = p +:+ x).
  { intros p x Hp. unfold Main.resolveFaviconUrl.
    destruct Hp as [-> | ->].
    - by rewrite (startsWith_append "http://" x).
    - rewrite (startsWith_append "https://" x). by rewrite orb_true_r. }
  remember (Main.resolveFaviconUrl new_URL faviconUrl baseUrl) as r eqn:Hr.
  unfold Main.resolveFaviconUrl in Hr.
  destruct (Js.startsWith faviconUrl "http://" || Js.startsWith faviconUrl "https://"
            || Js.startsWith faviconUrl "data:") eqn:Habsolute.
  { subst r. unfold Main.resolveFaviconUrl. by rewrite Habsolute. }
  destruct (Js.startsWith faviconUrl "//") eqn:Hslashes.
  { apply startsWith_slashes in Hslashes as [rest ->].
    destruct (new_URL baseUrl) as [u|] eqn:Hu; subst r.
    - destruct (Hweb u eq_refl) as [-> | ->].
      + exact (Habs "http://" rest (or_introl eq_refl)).
      + exact (Habs "https://" rest (or_intror eq_refl)).
    - exact (Habs "https://" rest (or_intror eq_refl)). }
  destruct (Js.startsWith faviconUrl "/") eqn:Hslash.
  { destruct (new_URL baseUrl) as [u|] eqn:Hu; subst r.
    - destruct (Hweb u eq_refl) as [-> | ->].
      + exact (Habs "http://" (Main.host u +:+ faviconUrl) (or_introl eq_refl)).
      + exact (Habs "https://" (Main.host u +:+ faviconUrl) (or_intror eq_refl)).
    - unfold Main.resolveFaviconUrl. by rewrite Habsolute, Hslashes, Hslash, Hu. }
  destruct (new_URL baseUrl) as [u|] eqn:Hu; subst r.
  - destruct (Hweb u eq_refl) as [-> | ->].
    + exact (Habs "http://" _ (or_introl eq_refl)).
    + exact (Habs "https://" _ (or_intror eq_refl)).
  - unfold Main.resolveFaviconUrl. by rewrite Habsolute, Hslashes, Hslash, Hu.
Qed.

Lemma resolveFaviconUrl_settles_witness :
  (∀ u, example_URL "https://example.org/index.html" = Some u →
        Main.protocol u = "http:" ∨ Main.protocol u = "https:")
  ∧ Main.resolveFaviconUrl example_URL
      (Main.resolveFaviconUrl example_URL "/icons/site.png" "https://example.org/index.html")
      "https://example.org/index.html"
    = Main.resolveFaviconUrl example_URL "/icons/site.png" "https://example.org/index.html".
Proof.
  assert (H1 : ∀ u, example_URL "https://example.org/index.html" = Some u →
                    Main.protocol u = "http:" ∨ Main.protocol u = "https:").
  { intros u [= <-]. by right. }
  split; [exact H1|].
  exact (resolveFaviconUrl_settles example_URL "/icons/site.png"
           "https://example.org/index.html" H1).
Defined.

(** X27. A favicon address relative to the page is put behind the directory
    of the page, and behind two slashes when the page lies directly under the
    root: for a page whose path is [dir/name], [name] holding no slash, the
    resolved address is protocol, [//], host, [dir], [/] and the favicon
    address, with [/] in the place of an empty [dir]. *)
Theorem resolveFaviconUrl_relative_to_directory
    (new_URL : string → option Main.Url) (faviconUrl baseUrl : string)
    (u : Main.Url) (dir name : string) :
  new_URL baseUrl = Some u →
  Main.pathname u = dir +:+ String "/" name →
  ("/"%char ∉ list_ascii_of_string name) →
  relative_favicon faviconUrl →
  Main.resolveFaviconUrl new_URL faviconUrl baseUrl
  = Main.protocol u +:+ "//" +:+ Main.host u
    +:+ (if String.eqb dir EmptyString then "/" else dir) +:+ "/" +:+ faviconUrl.
Proof.
  intros Hu Hpath Hname (Hhttp & Hhttps & Hdata & Hslash).
  assert (Hslashes : Js.startsWith faviconUrl "//" = false).
  { apply not_true_is_false. intros H. apply startsWith_slashes in H as [rest ->]. done. }
  unfold Main.resolveFaviconUrl.
  rewrite Hhttp, Hhttps, Hdata, Hslashes, Hslash, Hu. cbn [orb].
  rewrite Hpath, split_app_sep, (split_no_sep "/" name Hname), removelast_last, join_split.
  unfold Js.or_str. by destruct (String.eqb dir EmptyString).
Qed.

Lemma resolveFaviconUrl_relative_to_directory_witness :
  (example_URL "https://example.org/index.html"
   = Some {| Main.protocol := "https:"; Main.host := "example.org";
             Main.pathname := "/index.html" |} ∧
   "/index.html" = EmptyString +:+ String "/" "index.html" ∧
   ("/"%char ∉ list_ascii_of_string "index.html") ∧
   relative_favicon "favicon.ico")
  ∧ Main.resolveFaviconUrl example_URL "favicon.ico" "https://example.org/index.html"
    = "https://example.org//favicon.ico".
Proof.
  assert (H1 : example_URL "https://example.org/index.html"
               = Some {| Main.protocol := "https:"; Main.host := "example.org";
                         Main.pathname := "/index.html" |}) by reflexivity.
  assert (H2 : "/index.html" = EmptyString +:+ String "/" "index.html") by reflexivity.
  assert (H3 : "/"%char ∉ list_ascii_of_string "index.html").
  { cbn. intros H. repeat (apply elem_of_cons in H as [H|H]; [discriminate|]).
    by apply elem_of_nil in H. }
  assert (H4 : relative_favicon "favicon.ico") by by repeat split.
  split; [by repeat split|].
  exact (resolveFaviconUrl_relative_to_directory example_URL "favicon.ico"
           "https://example.org/index.html" _ EmptyString "index.html" H1 H2 H3 H4).
Defined.

(** ** The find bar of each tab *)

(** X28. The find bar is remembered for each tab: after the renderer
    reports the find bar of the active tab as shown, switching to another open
    tab without a find bar state gives the height of the interface without
    the find bar, and switching back gives the height with it. *)
Theorem find_bar_is_remembered_per_tab
    (s : App) (a b : string) (isFavoritesBarHidden : bool) :
  activeTabId s = Some a →
  a ∈ open_tab_ids s →
  b ∈ open_tab_ids s →
  a ≠ EmptyString → b ≠ EmptyString → a ≠ b →
  tabFindBarStates s !! b = None →
  Main.getUIHeight isFavoritesBarHidden
    (Main.switchToTab b (Main.find_bar_visibility true s))
  = 90 + (if isFavoritesBarHidden then 0 else 40)
  ∧ Main.getUIHeight isFavoritesBarHidden
      (Main.switchToTab a (Main.switchToTab b (Main.find_bar_visibility true s)))
    = 90 + (if isFavoritesBarHidden then 0 else 40) + 50.
Proof.
  intros Hact Ha Hb Hane Hbne Hab Hnone.
  set (s1 := Main.find_bar_visibility true s).
  assert (Hs1 : open_tab_ids s1 = open_tab_ids s ∧
                tabFindBarStates s1 = <[a := true]> (tabFindBarStates s)).
  { unfold s1, Main.find_bar_visibility. rewrite Hact.
    destruct (String.eqb_spec a EmptyString); [done|]. done. }
  destruct Hs1 as [Hk1 Hf1].
  assert (Hb1 : b ∈ open_tab_ids s1) by by rewrite Hk1.
  destruct (switchToTab_known b s1 Hb1) as (_ & _ & Hk2 & Hact2 & _).
  destruct (switchToTab_maps b s1) as [_ Hf2].
  set (s2 := Main.switchToTab b s1) in *.
  assert (Ha2 : a ∈ open_tab_ids s2) by by rewrite Hk2, Hk1.
  destruct (switchToTab_known a s2 Ha2) as (_ & _ & _ & Hact3 & _).
  destruct (switchToTab_maps a s2) as [_ Hf3].
  unfold Main.getUIHeight. rewrite Hact2, Hact3, Hf3, Hf2, Hf1.
  destruct (String.eqb_spec a EmptyString); [done|].
  destruct (String.eqb_spec b EmptyString); [done|]. cbn [negb].
  rewrite lookup_insert_ne by done. rewrite Hnone, lookup_insert_eq. cbn.
  unfold Main.TAB_BAR_HEIGHT, Main.NAV_BAR_HEIGHT, Main.FAVORITES_BAR_HEIGHT,
    Main.FIND_BAR_HEIGHT.
  destruct isFavoritesBarHidden; split; lia.
Qed.

Lemma find_bar_is_remembered_per_tab_witness :
  (activeTabId two_tabs = Some "t2" ∧ "t2" ∈ open_tab_ids two_tabs ∧
   "t1" ∈ open_tab_ids two_tabs ∧ "t2" ≠ EmptyString ∧ "t1" ≠ EmptyString ∧
   "t2" ≠ "t1" ∧ tabFindBarStates two_tabs !! "t1" = None)
  ∧ Main.getUIHeight true (Main.switchToTab "t1" (Main.find_bar_visibility true two_tabs))
    = 90 + 0
  ∧ Main.getUIHeight true
      (Main.switchToTab "t2"
         (Main.switchToTab "t1" (Main.find_bar_visibility true two_tabs)))
    = 90 + 0 + 50.
Proof.
  assert (H1 : activeTabId two_tabs = Some "t2") by reflexivity.
  assert (H2 : "t2" ∈ open_tab_ids two_tabs)
    by apply list_elem_of_further, list_elem_of_here.
  assert (H3 : "t1" ∈ open_tab_ids two_tabs) by apply list_elem_of_here.
  assert (H4 : "t2" ≠ EmptyString) by discriminate.
  assert (H5 : "t1" ≠ EmptyString) by discriminate.
  assert (H6 : "t2" ≠ "t1") by discriminate.
  assert (H7 : tabFindBarStates two_tabs !! "t1" = None) by reflexivity.
  split; [by repeat split|].
  exact (find_bar_is_remembered_per_tab two_tabs "t2" "t1" true H1 H2 H3 H4 H5 H6 H7).
Defined.
